(** * Lethal Markets: the LLM-response ingestion pipeline

    A shallow embedding of the sanitizer, the coercion step, the fallback
    datasets, the client caches, the HTTP handlers and the data validator of
    the repository, and of the services around them (the update of one
    event, the consents and the features they open, the news digest, the
    stock prices and the real-time data manager), followed by the
    properties proved about them.

    JavaScript numbers are IEEE-754 binary64 values: they are modelled by
    Rocq's primitive floats, so NaN, signed zeros and infinities behave as in
    the source.  JavaScript strings are sequences of UTF-16 code units. *)

From Stdlib Require Import ZArith NArith List Bool Lia String Ascii.
From Stdlib Require Import DecimalString Floats Permutation.
Import ListNotations.

#[global] Set Warnings "-register-all,-inexact-float".

Local Open Scope Z_scope.

(* ================================================================== *)
(** * JavaScript strings *)
(* ================================================================== *)

Module JsString.

(** A string is its list of UTF-16 code units. *)
Definition jsstring := list N.

(** An ASCII literal as a JavaScript string. *)
Definition lit (s : string) : jsstring :=
  List.map N_of_ascii (list_ascii_of_string s).

(** A literal in which an apostrophe stands for the double quote. *)
Definition quoted (s : string) : jsstring :=
  List.map (fun c => if N.eqb c 39 then 34%N else c) (lit s).

Definition length (s : jsstring) : Z := Z.of_nat (List.length s).

(** The code units matched by the regular expression class [\s], which are
    also the ones [String.prototype.trim] removes (WhiteSpace and
    LineTerminator of ECMA-262). *)
Definition is_ws (c : N) : bool :=
  ((9 <=? c) && (c <=? 13) || (c =? 32) || (c =? 160) || (c =? 5760)
   || (8192 <=? c) && (c <=? 8202) || (c =? 8232) || (c =? 8233)
   || (c =? 8239) || (c =? 8287) || (c =? 12288) || (c =? 65279))%N.

Fixpoint trimStart (s : jsstring) : jsstring :=
  match s with
  | [] => []
  | c :: t => if is_ws c then trimStart t else s
  end.

Definition trimEnd (s : jsstring) : jsstring := rev (trimStart (rev s)).

Definition trim (s : jsstring) : jsstring := trimEnd (trimStart s).

(** [s.indexOf(c)] for a one-unit needle: the first position, or -1. *)
Fixpoint indexOf (s : jsstring) (c : N) : Z :=
  match s with
  | [] => -1
  | x :: t =>
      if N.eqb x c then 0
      else let i := indexOf t c in if i =? -1 then -1 else i + 1
  end.

(** [s.lastIndexOf(c)] for a one-unit needle: the last position, or -1. *)
Fixpoint lastIndexOf (s : jsstring) (c : N) : Z :=
  match s with
  | [] => -1
  | x :: t =>
      let i := lastIndexOf t c in
      if i =? -1 then (if N.eqb x c then 0 else -1) else i + 1
  end.

(** [s.substring(a, b)]: both ends are clamped to [0, length] and swapped
    when they come in the wrong order. *)
Definition substring (s : jsstring) (a b : Z) : jsstring :=
  let clamp i := Z.max 0 (Z.min i (length s)) in
  let lo := Z.min (clamp a) (clamp b) in
  let hi := Z.max (clamp a) (clamp b) in
  firstn (Z.to_nat (hi - lo)) (skipn (Z.to_nat lo) s).

(** [s.substring(a)]. *)
Definition substring_from (s : jsstring) (a : Z) : jsstring :=
  substring s a (length s).

(** [Some rest] when [p] is a prefix of [s], and [rest] what follows it. *)
Fixpoint strip_prefix (p s : jsstring) : option jsstring :=
  match p, s with
  | [], _ => Some s
  | a :: p', b :: s' => if N.eqb a b then strip_prefix p' s' else None
  | _ :: _, [] => None
  end.

(** The greedy [\s*] that follows a matched fence. *)
Fixpoint skip_ws (s : jsstring) : jsstring :=
  match s with
  | [] => []
  | c :: t => if is_ws c then skip_ws t else s
  end.

(** The optional line feed [\n?] that follows a matched fence. *)
Definition skip_nl (s : jsstring) : jsstring :=
  match s with
  | 10%N :: t => t
  | _ => s
  end.

(** [s.replace(/<fence><tail>/g, '')]: the scan goes left to right; at a
    position where [fence] matches, the fence and what [tail] consumes after
    it are dropped and the scan resumes behind them; elsewhere the code unit
    is copied.  [fuel] bounds the number of scan steps. *)
Fixpoint replace_scan (fuel : nat) (fence : jsstring)
    (tail : jsstring -> jsstring) (s : jsstring) : jsstring :=
  match fuel with
  | O => []
  | S k =>
      match strip_prefix fence s with
      | Some rest => replace_scan k fence tail (tail rest)
      | None =>
          match s with
          | [] => []
          | c :: t => c :: replace_scan k fence tail t
          end
      end
  end.

Definition replace_all (fence : jsstring) (tail : jsstring -> jsstring)
    (s : jsstring) : jsstring :=
  replace_scan (S (List.length s)) fence tail s.

Definition fence : jsstring := lit "```".
Definition fence_json : jsstring := lit "```json".
Definition lbrace : N := 123.
Definition rbrace : N := 125.

End JsString.

(* ================================================================== *)
(** * The response sanitizer *)
(* ================================================================== *)

(** server/index.js *)
Module ServerSanitizer.
Import JsString.

(** [.replace(/```json\s*/g, '').replace(/```\s*/g, '')] *)
Definition strip_fences (s : jsstring) : jsstring :=
  replace_all fence skip_ws (replace_all fence_json skip_ws s).

Definition cleanJsonResponse (response : jsstring) : jsstring :=
  let cleaned := trim response in
  let cleaned := strip_fences cleaned in
  let jsonStart := indexOf cleaned lbrace in
  let jsonEnd := lastIndexOf cleaned rbrace + 1 in
  if negb (jsonStart =? -1) && (jsonEnd >? jsonStart)
  then substring cleaned jsonStart jsonEnd
  else cleaned.

End ServerSanitizer.

(** src/services/gptCrisisService.ts *)
Module GptSanitizer.
Import JsString.

(** [.replace(/```json\n?/g, '').replace(/```\n?/g, '')] *)
Definition strip_fences (s : jsstring) : jsstring :=
  replace_all fence skip_nl (replace_all fence_json skip_nl s).

(** "Remove any text before the first {" *)
Definition drop_before_brace (cleaned : jsstring) : jsstring :=
  let firstBrace := indexOf cleaned lbrace in
  if firstBrace >? 0 then substring_from cleaned firstBrace else cleaned.

(** "Remove any text after the last }" *)
Definition drop_after_brace (cleaned : jsstring) : jsstring :=
  let lastBrace := lastIndexOf cleaned rbrace in
  if (lastBrace >? 0) && (lastBrace <? length cleaned - 1)
  then substring cleaned 0 (lastBrace + 1)
  else cleaned.

Definition cleanJsonResponse (response : jsstring) : jsstring :=
  let cleaned := strip_fences response in
  let cleaned := drop_before_brace cleaned in
  let cleaned := drop_after_brace cleaned in
  trim cleaned.

End GptSanitizer.

(* ================================================================== *)
(** * JavaScript values *)
(* ================================================================== *)

Module Js.
Import JsString.

(** What [JSON.parse] can return, plus [undefined] and [Date] objects. *)
Inductive value : Type :=
| VUndefined
| VNull
| VBool (b : bool)
| VNum (x : float)
| VStr (s : jsstring)
| VArr (xs : list value)
| VObj (props : list (jsstring * value))
| VDate (t : Z).

(** A computation that may throw; an exception carries its message. *)
Inductive result (A : Type) : Type :=
| Ok (a : A)
| Throw (message : jsstring).
Arguments Ok {A} a.
Arguments Throw {A} message.

Definition bind {A B : Type} (r : result A) (k : A -> result B) : result B :=
  match r with
  | Ok a => k a
  | Throw m => Throw m
  end.

Fixpoint mapM {A B : Type} (f : A -> result B) (xs : list A)
  : result (list B) :=
  match xs with
  | [] => Ok []
  | x :: t =>
      bind (f x) (fun y => bind (mapM f t) (fun ys => Ok (y :: ys)))
  end.

(** [xs.map((x, i) => f x i)], the index starting at [i]. *)
Fixpoint mapiM {A B : Type} (f : A -> Z -> result B) (i : Z) (xs : list A)
  : result (list B) :=
  match xs with
  | [] => Ok []
  | x :: t =>
      bind (f x i) (fun y => bind (mapiM f (i + 1) t) (fun ys => Ok (y :: ys)))
  end.

(** The integer [z] as a number (rounded to nearest when it has more than
    53 significant bits). *)
Definition of_Z (z : Z) : float :=
  SF2Prim (binary_normalize prec emax z 0 false).

Definition of_nat (n : nat) : float := of_Z (Z.of_nat n).

(** ToBoolean. *)
Definition truthy (v : value) : bool :=
  match v with
  | VUndefined | VNull => false
  | VBool b => b
  | VNum x => negb (is_zero x || is_nan x)
  | VStr s => match s with [] => false | _ :: _ => true end
  | VArr _ | VObj _ | VDate _ => true
  end.

(** [a || b] *)
Definition or (a b : value) : value := if truthy a then a else b.

Definition nullish (v : value) : bool :=
  match v with
  | VUndefined | VNull => true
  | _ => false
  end.

Definition key_eqb (a b : jsstring) : bool :=
  if list_eq_dec N.eq_dec a b then true else false.

Fixpoint lookup (props : list (jsstring * value)) (k : jsstring) : value :=
  match props with
  | [] => VUndefined
  | (k', v) :: t => if key_eqb k' k then v else lookup t k
  end.

(** [v.k] for a value [v] that is neither [null] nor [undefined]: an own
    property of an object, the length of an array or a string, and
    [undefined] otherwise (none of the names the pipeline reads is
    inherited from a prototype). *)
Definition field (v : value) (k : string) : value :=
  match v with
  | VObj props => lookup props (lit k)
  | VArr xs =>
      if key_eqb (lit k) (lit "length") then VNum (of_nat (List.length xs))
      else VUndefined
  | VStr s =>
      if key_eqb (lit k) (lit "length") then VNum (of_nat (List.length s))
      else VUndefined
  | _ => VUndefined
  end.

(** The message of the TypeError raised by a property read on [null] or
    [undefined], and by a call of something that is not a function. *)
Definition type_error : jsstring := lit "TypeError".

(** [v.k], which throws on [null] and [undefined]. *)
Definition get (v : value) (k : string) : result value :=
  if nullish v then Throw type_error else Ok (field v k).

(** Assignment of property [k] in an object literal: an existing key keeps
    its place, a new one goes last. *)
Fixpoint set_prop (props : list (jsstring * value)) (k : jsstring) (v : value)
  : list (jsstring * value) :=
  match props with
  | [] => [(k, v)]
  | (k', v') :: t =>
      if key_eqb k' k then (k, v) :: t else (k', v') :: set_prop t k v
  end.

Definition prop (k : string) (v : value) : jsstring * value := (lit k, v).

(** The decimal digits of a natural number, as an index key. *)
Definition index_key (n : nat) : jsstring :=
  lit (NilEmpty.string_of_uint (Nat.to_uint n)).

Fixpoint indexed {A : Type} (f : A -> value) (i : nat) (xs : list A)
  : list (jsstring * value) :=
  match xs with
  | [] => []
  | x :: t => (index_key i, f x) :: indexed f (S i) t
  end.

(** The own enumerable properties that [{...v}] copies. *)
Definition own_props (v : value) : list (jsstring * value) :=
  match v with
  | VObj props => props
  | VArr xs => indexed (fun x => x) 0 xs
  | VStr s => indexed (fun c => VStr [c]) 0 s
  | _ => []
  end.

(** [Math.min] and [Math.max] of two numbers: NaN when an argument is NaN,
    and -0 below +0. *)
Definition Math_min (a b : float) : float :=
  if is_nan a || is_nan b then nan
  else if (a <? b)%float then a
  else if (b <? a)%float then b
  else if get_sign a then a else b.

Definition Math_max (a b : float) : float :=
  if is_nan a || is_nan b then nan
  else if (a <? b)%float then b
  else if (b <? a)%float then a
  else if get_sign a then b else a.

End Js.

(* ================================================================== *)
(** * The coercion step and the fallback datasets *)
(* ================================================================== *)

(** src/services/gptCrisisService.ts: [processEvents], [processEvent],
    [getFallbackData] *)
Module GptCoercer.
Import JsString Js.

Section Coercion.

(** [new Date().toISOString().split('T')[0]] *)
Variable today : jsstring.

(** The arrow function mapped over [event.companies].  Its first property
    read throws when [company] is [null] or [undefined]. *)
Definition processCompany (company : value) : result value :=
  if nullish company then Throw type_error
  else
    Ok (VObj
      [ prop "name" (or (field company "name") (VStr (lit "Unknown Company")));
        prop "symbol" (or (field company "symbol") (VStr (lit "N/A")));
        prop "price" (or (field company "price") (VNum 100));
        prop "change" (or (field company "change") (VNum 0));
        prop "changePercent" (or (field company "changePercent") (VNum 0));
        prop "role" (or (field company "role") (VStr (lit "Unknown role")));
        prop "category" (or (field company "category") (VStr (lit "Technology")));
        prop "involvement"
          (or (field company "involvement") (VStr (lit "Unknown involvement")));
        prop "impact" (or (field company "impact") (VStr (lit "Neutral impact")));
        prop "confidence" (or (field company "confidence") (VNum 0.5)) ]).

(** [(event.companies || []).map(...)]: only an array has [map]. *)
Definition processCompanies (event : value) : result value :=
  match or (field event "companies") (VArr []) with
  | VArr cs => bind (mapM processCompany cs) (fun cs' => Ok (VArr cs'))
  | _ => Throw type_error
  end.

Definition processEvent (event : value) (index : option Z) : result value :=
  if nullish event then Throw type_error
  else
    bind (processCompanies event) (fun companies =>
    Ok (VObj
      [ prop "id"
          (or (field event "id")
              (VNum (match index with Some i => of_Z (i + 1) | None => 1 end)));
        prop "title" (or (field event "title") (VStr (lit "Unknown Crisis")));
        prop "date" (or (field event "date") (VStr today));
        prop "type" (or (field event "type") (VStr (lit "Political Crisis")));
        prop "severity" (or (field event "severity") (VStr (lit "Medium")));
        prop "location" (or (field event "location") (VStr (lit "Unknown")));
        prop "status" (or (field event "status") (VStr (lit "Ongoing")));
        prop "description"
          (or (field event "description") (VStr (lit "No description available")));
        prop "riskScore" (or (field event "riskScore") (VNum 50));
        prop "marketImpact" (or (field event "marketImpact") (VNum 0));
        prop "companies" companies ])).

(** [events.map((event, index) => this.processEvent(event, index))] *)
Definition processEvents (events : value) : result value :=
  match events with
  | VArr es =>
      bind (mapiM (fun e i => processEvent e (Some i)) 0 es)
           (fun es' => Ok (VArr es'))
  | _ => Throw type_error
  end.

End Coercion.

(** [now] stands for [new Date()]. *)
Definition getFallbackData (now : Z) : value :=
  VObj
    [ prop "events" (VArr
          [ VObj
              [ prop "id" (VNum 1);
                prop "title" (VStr (lit "Ukraine-Russia Conflict"));
                prop "date" (VStr (lit "2022-02-24"));
                prop "type" (VStr (lit "War"));
                prop "severity" (VStr (lit "Critical"));
                prop "location" (VStr (lit "Ukraine, Eastern Europe"));
                prop "status" (VStr (lit "Ongoing"));
                prop "description" (VStr (lit "Ongoing military conflict between Russia and Ukraine affecting global markets and supply chains"));
                prop "riskScore" (VNum 95);
                prop "marketImpact" (VNum (-3.2));
                prop "companies" (VArr
                    [ VObj
                        [ prop "name" (VStr (lit "Lockheed Martin"));
                          prop "symbol" (VStr (lit "LMT"));
                          prop "price" (VNum 425.50);
                          prop "change" (VNum 12.30);
                          prop "changePercent" (VNum 2.98);
                          prop "role" (VStr (lit "Defense contractor supplying weapons systems"));
                          prop "category" (VStr (lit "Arms Supplier"));
                          prop "involvement" (VStr (lit "Providing missile systems and military equipment to Ukraine"));
                          prop "impact" (VStr (lit "Positive due to increased defense spending"));
                          prop "confidence" (VNum 0.9) ];
                      VObj
                        [ prop "name" (VStr (lit "Raytheon Technologies"));
                          prop "symbol" (VStr (lit "RTX"));
                          prop "price" (VNum 115.75);
                          prop "change" (VNum 8.45);
                          prop "changePercent" (VNum 7.87);
                          prop "role" (VStr (lit "Defense contractor"));
                          prop "category" (VStr (lit "Arms Supplier"));
                          prop "involvement" (VStr (lit "Supplying air defense systems"));
                          prop "impact" (VStr (lit "Significant positive impact from defense contracts"));
                          prop "confidence" (VNum 0.85) ] ]) ];
            VObj
              [ prop "id" (VNum 2);
                prop "title" (VStr (lit "Middle East Tensions"));
                prop "date" (VStr (lit "2023-10-07"));
                prop "type" (VStr (lit "War"));
                prop "severity" (VStr (lit "High"));
                prop "location" (VStr (lit "Israel, Palestine, Middle East"));
                prop "status" (VStr (lit "Ongoing"));
                prop "description" (VStr (lit "Escalating conflict affecting regional stability and global oil markets"));
                prop "riskScore" (VNum 85);
                prop "marketImpact" (VNum 1.8);
                prop "companies" (VArr
                    [ VObj
                        [ prop "name" (VStr (lit "Exxon Mobil"));
                          prop "symbol" (VStr (lit "XOM"));
                          prop "price" (VNum 118.90);
                          prop "change" (VNum 5.20);
                          prop "changePercent" (VNum 4.57);
                          prop "role" (VStr (lit "Energy company"));
                          prop "category" (VStr (lit "Energy"));
                          prop "involvement" (VStr (lit "Oil price volatility affecting operations"));
                          prop "impact" (VStr (lit "Positive from higher oil prices"));
                          prop "confidence" (VNum 0.75) ] ]) ] ]);
      prop "lastUpdated" (VDate now);
      prop "totalEvents" (VNum 2);
      prop "highRiskEvents" (VNum 2) ].

End GptCoercer.

(** server/index.js: [processEvents], [getFallbackData] *)
Module ServerCoercer.
Import JsString Js.

Section Coercion.

(** [parseFloat] of a string: the number its longest numeric prefix
    denotes, NaN when there is none. *)
Variable parseFloat_string : jsstring -> float.

(** [Math.floor(Math.random() * 10000)] as drawn for the event at a given
    position of the array. *)
Variable random_id : nat -> float.

(** [parseFloat(v)]: the argument is first converted to a string.  A number
    prints to a string that reads back as the same number (-0 prints as
    [0]); [undefined], [null], booleans, objects and dates print to text
    with no numeric prefix; an array prints its elements separated by
    commas, so the prefix is that of its first element. *)
Fixpoint parseFloat (v : value) : float :=
  match v with
  | VNum x => if is_zero x then 0%float else x
  | VStr s => parseFloat_string s
  | VArr (x :: _) => parseFloat x
  | _ => nan
  end.

(** The arrow function mapped over [event.companies]. *)
Definition processCompany (company : value) : result value :=
  if nullish company then Throw type_error
  else
    let o := own_props company in
    let o := set_prop o (lit "price")
      (or (VNum (parseFloat (field company "price"))) (VNum 100)) in
    let o := set_prop o (lit "change")
      (or (VNum (parseFloat (field company "change"))) (VNum 0)) in
    let o := set_prop o (lit "changePercent")
      (or (VNum (parseFloat (field company "changePercent"))) (VNum 0)) in
    let o := set_prop o (lit "confidence")
      (or (VNum (parseFloat (field company "confidence"))) (VNum 0.5)) in
    Ok (VObj o).

(** [event.companies?.map(...) || []]: the optional chain stops on [null]
    and [undefined] only; any other value that is not an array has no
    [map]. *)
Definition processCompanies (event : value) : result value :=
  let companies := field event "companies" in
  if nullish companies then Ok (or VUndefined (VArr []))
  else
    match companies with
    | VArr cs =>
        bind (mapM processCompany cs) (fun cs' => Ok (or (VArr cs') (VArr [])))
    | _ => Throw type_error
    end.

Definition processEvent (event : value) (position : nat) : result value :=
  if nullish event then Throw type_error
  else
    let id := or (field event "id") (VNum (random_id position)) in
    bind (processCompanies event) (fun companies =>
    Ok (VObj (set_prop (set_prop (own_props event) (lit "id") id)
                       (lit "companies") companies))).

Fixpoint processEvents_from (position : nat) (es : list value)
  : result (list value) :=
  match es with
  | [] => Ok []
  | e :: t =>
      bind (processEvent e position) (fun e' =>
      bind (processEvents_from (S position) t) (fun t' => Ok (e' :: t')))
  end.

(** [events.map(event => ({...}))] *)
Definition processEvents (events : value) : result value :=
  match events with
  | VArr es => bind (processEvents_from 0 es) (fun es' => Ok (VArr es'))
  | _ => Throw type_error
  end.

End Coercion.

Definition getFallbackData : value :=
  VObj
    [ prop "events" (VArr
          [ VObj
              [ prop "id" (VNum 1);
                prop "title" (VStr (lit "Ukraine-Russia Conflict"));
                prop "description" (VStr (lit "Ongoing military conflict affecting global markets and defense spending"));
                prop "date" (VStr (lit "2024-01-15"));
                prop "type" (VStr (lit "War"));
                prop "severity" (VStr (lit "Critical"));
                prop "location" (VStr (lit "Ukraine/Russia"));
                prop "status" (VStr (lit "Ongoing"));
                prop "riskScore" (VNum 92);
                prop "marketImpact" (VNum (-1.8));
                prop "companies" (VArr
                    [ VObj
                        [ prop "name" (VStr (lit "Lockheed Martin"));
                          prop "symbol" (VStr (lit "LMT"));
                          prop "price" (VNum 428.50);
                          prop "change" (VNum 12.75);
                          prop "changePercent" (VNum 3.07);
                          prop "category" (VStr (lit "Arms Supplier"));
                          prop "role" (VStr (lit "Defense contractor"));
                          prop "involvement" (VStr (lit "Supplying military equipment and weapons systems"));
                          prop "impact" (VStr (lit "Increased defense contracts boosting revenue"));
                          prop "confidence" (VNum 0.9) ];
                      VObj
                        [ prop "name" (VStr (lit "Raytheon Technologies"));
                          prop "symbol" (VStr (lit "RTX"));
                          prop "price" (VNum 95.80);
                          prop "change" (VNum 7.20);
                          prop "changePercent" (VNum 8.12);
                          prop "category" (VStr (lit "Arms Supplier"));
                          prop "role" (VStr (lit "Weapons manufacturer"));
                          prop "involvement" (VStr (lit "Missile systems and defense technology"));
                          prop "impact" (VStr (lit "Higher demand for defense systems"));
                          prop "confidence" (VNum 0.85) ] ]) ] ]) ].

End ServerCoercer.

(** The secure API service: [getFallbackData] *)
Module SecureFallback.
Import JsString Js.

Definition getFallbackData (now : Z) : value :=
  VObj
    [ prop "events" (VArr
          [ VObj
              [ prop "id" (VNum 1);
                prop "title" (VStr (lit "Ukraine-Russia Conflict"));
                prop "description" (VStr (lit "Ongoing military conflict affecting global defense markets"));
                prop "date" (VStr (lit "2024-01-15"));
                prop "type" (VStr (lit "War"));
                prop "severity" (VStr (lit "Critical"));
                prop "location" (VStr (lit "Ukraine/Russia"));
                prop "status" (VStr (lit "Ongoing"));
                prop "riskScore" (VNum 92);
                prop "marketImpact" (VNum (-1.8));
                prop "companies" (VArr
                    [ VObj
                        [ prop "name" (VStr (lit "Lockheed Martin"));
                          prop "symbol" (VStr (lit "LMT"));
                          prop "price" (VNum 428.50);
                          prop "change" (VNum 12.75);
                          prop "changePercent" (VNum 3.07);
                          prop "category" (VStr (lit "Arms Supplier"));
                          prop "role" (VStr (lit "Defense contractor"));
                          prop "involvement" (VStr (lit "Supplying military equipment and weapons systems"));
                          prop "impact" (VStr (lit "Increased defense contracts boosting revenue"));
                          prop "confidence" (VNum 0.9) ];
                      VObj
                        [ prop "name" (VStr (lit "Raytheon Technologies"));
                          prop "symbol" (VStr (lit "RTX"));
                          prop "price" (VNum 95.80);
                          prop "change" (VNum 7.20);
                          prop "changePercent" (VNum 8.12);
                          prop "category" (VStr (lit "Arms Supplier"));
                          prop "role" (VStr (lit "Weapons manufacturer"));
                          prop "involvement" (VStr (lit "Missile systems and defense technology"));
                          prop "impact" (VStr (lit "Higher demand for defense systems"));
                          prop "confidence" (VNum 0.85) ] ]) ];
            VObj
              [ prop "id" (VNum 2);
                prop "title" (VStr (lit "Middle East Tensions"));
                prop "description" (VStr (lit "Regional conflicts affecting oil markets and energy companies"));
                prop "date" (VStr (lit "2024-02-01"));
                prop "type" (VStr (lit "Political Crisis"));
                prop "severity" (VStr (lit "High"));
                prop "location" (VStr (lit "Middle East"));
                prop "status" (VStr (lit "Escalating"));
                prop "riskScore" (VNum 78);
                prop "marketImpact" (VNum 2.3);
                prop "companies" (VArr
                    [ VObj
                        [ prop "name" (VStr (lit "Exxon Mobil"));
                          prop "symbol" (VStr (lit "XOM"));
                          prop "price" (VNum 118.45);
                          prop "change" (VNum 5.20);
                          prop "changePercent" (VNum 4.59);
                          prop "category" (VStr (lit "Energy"));
                          prop "role" (VStr (lit "Oil producer"));
                          prop "involvement" (VStr (lit "Benefiting from higher oil prices due to supply concerns"));
                          prop "impact" (VStr (lit "Increased revenue from elevated oil prices"));
                          prop "confidence" (VNum 0.75) ] ]) ] ]);
      prop "lastUpdated" (VDate now);
      prop "totalEvents" (VNum 2);
      prop "highRiskEvents" (VNum 2) ].

End SecureFallback.

(** src/services/fastApiService.ts: [getFastFallbackData] *)
Module FastFallback.
Import JsString Js.

Definition getFastFallbackData (now : Z) : value :=
  VObj
    [ prop "events" (VArr
          [ VObj
              [ prop "id" (VNum 1);
                prop "title" (VStr (lit "Ukraine-Russia Conflict"));
                prop "description" (VStr (lit "Ongoing military conflict with significant global impact on defense markets and energy supplies"));
                prop "date" (VStr (lit "2024-02-15"));
                prop "type" (VStr (lit "War"));
                prop "severity" (VStr (lit "Critical"));
                prop "location" (VStr (lit "Ukraine/Russia"));
                prop "status" (VStr (lit "Ongoing"));
                prop "riskScore" (VNum 94);
                prop "marketImpact" (VNum (-2.1));
                prop "companies" (VArr
                    [ VObj
                        [ prop "name" (VStr (lit "Lockheed Martin"));
                          prop "symbol" (VStr (lit "LMT"));
                          prop "price" (VNum 435.80);
                          prop "change" (VNum 15.25);
                          prop "changePercent" (VNum 3.62);
                          prop "category" (VStr (lit "Arms Supplier"));
                          prop "role" (VStr (lit "Defense contractor"));
                          prop "involvement" (VStr (lit "Supplying HIMARS, Javelin missiles, and F-16 support systems"));
                          prop "impact" (VStr (lit "Massive increase in defense contracts and revenue"));
                          prop "confidence" (VNum 0.95) ];
                      VObj
                        [ prop "name" (VStr (lit "Raytheon Technologies"));
                          prop "symbol" (VStr (lit "RTX"));
                          prop "price" (VNum 98.45);
                          prop "change" (VNum 8.90);
                          prop "changePercent" (VNum 9.94);
                          prop "category" (VStr (lit "Arms Supplier"));
                          prop "role" (VStr (lit "Weapons manufacturer"));
                          prop "involvement" (VStr (lit "Patriot missile systems, Stinger missiles, radar technology"));
                          prop "impact" (VStr (lit "Record high demand for missile defense systems"));
                          prop "confidence" (VNum 0.92) ];
                      VObj
                        [ prop "name" (VStr (lit "General Dynamics"));
                          prop "symbol" (VStr (lit "GD"));
                          prop "price" (VNum 267.30);
                          prop "change" (VNum 12.15);
                          prop "changePercent" (VNum 4.76);
                          prop "category" (VStr (lit "Arms Supplier"));
                          prop "role" (VStr (lit "Military equipment"));
                          prop "involvement" (VStr (lit "Abrams tanks, artillery shells, ammunition production"));
                          prop "impact" (VStr (lit "Expanded production capacity and government contracts"));
                          prop "confidence" (VNum 0.88) ] ]) ];
            VObj
              [ prop "id" (VNum 2);
                prop "title" (VStr (lit "Middle East Energy Crisis"));
                prop "description" (VStr (lit "Regional tensions affecting global oil supply chains and energy markets"));
                prop "date" (VStr (lit "2024-03-01"));
                prop "type" (VStr (lit "Political Crisis"));
                prop "severity" (VStr (lit "High"));
                prop "location" (VStr (lit "Middle East"));
                prop "status" (VStr (lit "Escalating"));
                prop "riskScore" (VNum 82);
                prop "marketImpact" (VNum 3.8);
                prop "companies" (VArr
                    [ VObj
                        [ prop "name" (VStr (lit "Exxon Mobil"));
                          prop "symbol" (VStr (lit "XOM"));
                          prop "price" (VNum 124.67);
                          prop "change" (VNum 7.89);
                          prop "changePercent" (VNum 6.76);
                          prop "category" (VStr (lit "Energy"));
                          prop "role" (VStr (lit "Oil producer"));
                          prop "involvement" (VStr (lit "Benefiting from supply disruptions and higher oil prices"));
                          prop "impact" (VStr (lit "Significant revenue increase from elevated crude prices"));
                          prop "confidence" (VNum 0.85) ];
                      VObj
                        [ prop "name" (VStr (lit "Chevron"));
                          prop "symbol" (VStr (lit "CVX"));
                          prop "price" (VNum 162.45);
                          prop "change" (VNum 9.23);
                          prop "changePercent" (VNum 6.02);
                          prop "category" (VStr (lit "Energy"));
                          prop "role" (VStr (lit "Oil & gas"));
                          prop "involvement" (VStr (lit "Alternative supply routes and increased production"));
                          prop "impact" (VStr (lit "Higher margins and expanded market share"));
                          prop "confidence" (VNum 0.80) ] ]) ];
            VObj
              [ prop "id" (VNum 3);
                prop "title" (VStr (lit "Taiwan Strait Tensions"));
                prop "description" (VStr (lit "Escalating military posturing affecting semiconductor and technology markets"));
                prop "date" (VStr (lit "2024-01-20"));
                prop "type" (VStr (lit "Political Crisis"));
                prop "severity" (VStr (lit "High"));
                prop "location" (VStr (lit "Taiwan/China"));
                prop "status" (VStr (lit "Escalating"));
                prop "riskScore" (VNum 89);
                prop "marketImpact" (VNum (-1.5));
                prop "companies" (VArr
                    [ VObj
                        [ prop "name" (VStr (lit "Taiwan Semiconductor"));
                          prop "symbol" (VStr (lit "TSM"));
                          prop "price" (VNum 98.23);
                          prop "change" (VNum (-4.56));
                          prop "changePercent" (VNum (-4.44));
                          prop "category" (VStr (lit "Technology"));
                          prop "role" (VStr (lit "Semiconductor manufacturer"));
                          prop "involvement" (VStr (lit "Critical supply chain vulnerability"));
                          prop "impact" (VStr (lit "Supply chain risks affecting global tech production"));
                          prop "confidence" (VNum 0.90) ];
                      VObj
                        [ prop "name" (VStr (lit "Northrop Grumman"));
                          prop "symbol" (VStr (lit "NOC"));
                          prop "price" (VNum 456.78);
                          prop "change" (VNum 18.90);
                          prop "changePercent" (VNum 4.32);
                          prop "category" (VStr (lit "Arms Supplier"));
                          prop "role" (VStr (lit "Defense systems"));
                          prop "involvement" (VStr (lit "Advanced missile defense and surveillance systems"));
                          prop "impact" (VStr (lit "Increased demand for Pacific defense capabilities"));
                          prop "confidence" (VNum 0.87) ] ]) ];
            VObj
              [ prop "id" (VNum 4);
                prop "title" (VStr (lit "African Sahel Conflicts"));
                prop "description" (VStr (lit "Multiple regional conflicts affecting mining and resource extraction"));
                prop "date" (VStr (lit "2024-02-10"));
                prop "type" (VStr (lit "War"));
                prop "severity" (VStr (lit "Medium"));
                prop "location" (VStr (lit "West Africa"));
                prop "status" (VStr (lit "Ongoing"));
                prop "riskScore" (VNum 71);
                prop "marketImpact" (VNum 1.2);
                prop "companies" (VArr
                    [ VObj
                        [ prop "name" (VStr (lit "Newmont Corporation"));
                          prop "symbol" (VStr (lit "NEM"));
                          prop "price" (VNum 43.21);
                          prop "change" (VNum 2.15);
                          prop "changePercent" (VNum 5.24);
                          prop "category" (VStr (lit "Mining"));
                          prop "role" (VStr (lit "Gold mining"));
                          prop "involvement" (VStr (lit "Operations in conflict-affected regions"));
                          prop "impact" (VStr (lit "Higher gold prices due to regional instability"));
                          prop "confidence" (VNum 0.75) ] ]) ];
            VObj
              [ prop "id" (VNum 5);
                prop "title" (VStr (lit "Global Cyber Warfare Escalation"));
                prop "description" (VStr (lit "State-sponsored cyber attacks targeting critical infrastructure"));
                prop "date" (VStr (lit "2024-03-05"));
                prop "type" (VStr (lit "Political Crisis"));
                prop "severity" (VStr (lit "High"));
                prop "location" (VStr (lit "Global"));
                prop "status" (VStr (lit "Escalating"));
                prop "riskScore" (VNum 78);
                prop "marketImpact" (VNum 2.3);
                prop "companies" (VArr
                    [ VObj
                        [ prop "name" (VStr (lit "CrowdStrike"));
                          prop "symbol" (VStr (lit "CRWD"));
                          prop "price" (VNum 267.89);
                          prop "change" (VNum 23.45);
                          prop "changePercent" (VNum 9.59);
                          prop "category" (VStr (lit "Technology"));
                          prop "role" (VStr (lit "Cybersecurity"));
                          prop "involvement" (VStr (lit "Increased demand for threat detection and response"));
                          prop "impact" (VStr (lit "Massive growth in cybersecurity contracts"));
                          prop "confidence" (VNum 0.93) ];
                      VObj
                        [ prop "name" (VStr (lit "Palo Alto Networks"));
                          prop "symbol" (VStr (lit "PANW"));
                          prop "price" (VNum 298.67);
                          prop "change" (VNum 19.87);
                          prop "changePercent" (VNum 7.13);
                          prop "category" (VStr (lit "Technology"));
                          prop "role" (VStr (lit "Network security"));
                          prop "involvement" (VStr (lit "Critical infrastructure protection services"));
                          prop "impact" (VStr (lit "Government and enterprise security spending surge"));
                          prop "confidence" (VNum 0.89) ] ]) ] ]);
      prop "lastUpdated" (VDate now);
      prop "totalEvents" (VNum 5);
      prop "highRiskEvents" (VNum 4) ].

End FastFallback.

(* ================================================================== *)
(** * The client services and their caches *)
(* ================================================================== *)

(** What a service sends over the network. *)
Inductive outbound : Type :=
| ModelRun        (* replicate.run("openai/gpt-5", ...) *)
| HealthCheck     (* GET /health *)
| AnalyzeCrisis.  (* POST /api/analyze-crisis *)

(** The three readings of the clock during one request: [Date.now()] on
    entry, the [new Date()] that dates the produced data, and the
    [new Date()] stored in [lastFetch]. *)
Record clock : Type := {
  at_entry : Z;
  at_result : Z;
  at_store : Z
}.

(** src/services/gptCrisisService.ts: [GPTCrisisService] *)
Module GptCrisisService.
Import JsString Js.

Record state : Type := {
  cache : option value;
  lastFetch : option Z
}.

Definition initial : state := {| cache := None; lastFetch := None |}.

Definition CACHE_DURATION : Z := 10 * 60 * 1000.

(** The awaited [replicate.run]: it rejects, or resolves to an output whose
    text is [responseText]. *)
Inductive model_reply : Type :=
| Rejected (message : jsstring)
| Replied (responseText : jsstring).

Section Service.

(** [JSON.parse]; [None] when it throws a SyntaxError. *)
Variable JSON_parse : jsstring -> option value.

(** ToNumber of a string, an array or an object. *)
Variable ToNumber_other : value -> float.

Variable today : jsstring.

Definition ToNumber (v : value) : float :=
  match v with
  | VUndefined => nan
  | VNull => 0
  | VBool b => if b then 1 else 0
  | VNum x => x
  | VDate t => of_Z t
  | _ => ToNumber_other v
  end.

(** [e.riskScore >= 70] *)
Definition highRisk (e : value) : result bool :=
  bind (get e "riskScore") (fun r => Ok (70 <=? ToNumber r)%float).

Fixpoint filterM (f : value -> result bool) (xs : list value)
  : result (list value) :=
  match xs with
  | [] => Ok []
  | x :: t =>
      bind (f x) (fun b =>
      bind (filterM f t) (fun t' => Ok (if b then x :: t' else t')))
  end.

(** [events?.length || 0] *)
Definition totalEvents (events : value) : value :=
  or (if nullish events then VUndefined else field events "length") (VNum 0).

(** [events?.filter((e) => e.riskScore >= 70).length || 0] *)
Definition highRiskEvents (events : value) : result value :=
  if nullish events then Ok (or VUndefined (VNum 0))
  else
    match events with
    | VArr es =>
        bind (filterM highRisk es) (fun hs =>
        Ok (or (VNum (of_nat (List.length hs))) (VNum 0)))
    | _ => Throw type_error
    end.

(** The guard at the top of [getAllCrisisData]. *)
Definition cached (st : state) (now : Z) (forceRefresh : bool)
  : option value :=
  match cache st, lastFetch st with
  | Some c, Some t =>
      if negb forceRefresh && (now - t <? CACHE_DURATION) then Some c
      else None
  | _, _ => None
  end.

(** The body of the [try] block, from the model's reply on. *)
Definition produce (reply : model_reply) (clk : clock) : result value :=
  match reply with
  | Rejected message => Throw message
  | Replied responseText =>
      let cleanedResponse := GptSanitizer.cleanJsonResponse responseText in
      let parsedData :=
        match JSON_parse cleanedResponse with
        | Some v => v
        | None => GptCoercer.getFallbackData (at_result clk)
        end in
      bind (get parsedData "events") (fun events =>
      bind (GptCoercer.processEvents today (or events (VArr []))) (fun es =>
      bind (highRiskEvents events) (fun high =>
      Ok (VObj
        [ prop "events" es;
          prop "lastUpdated" (VDate (at_result clk));
          prop "totalEvents" (totalEvents events);
          prop "highRiskEvents" high ]))))
  end.

(** The [try]/[catch] around the production: a success is cached, a failure
    is answered from the cache when there is one, from the fallback
    otherwise. *)
Definition settle (st : state) (reply : model_reply) (clk : clock)
  : value * state :=
  match produce reply clk with
  | Ok crisisData =>
      (crisisData,
       {| cache := Some crisisData; lastFetch := Some (at_store clk) |})
  | Throw _ =>
      (match cache st with
       | Some c => c
       | None => GptCoercer.getFallbackData (at_result clk)
       end, st)
  end.

(** One call run to completion with nothing else in between: the result,
    the state afterwards and the requests sent. *)
Definition getAllCrisisData (st : state) (forceRefresh : bool)
    (reply : model_reply) (clk : clock) : value * state * list outbound :=
  match cached st (at_entry clk) forceRefresh with
  | Some c => (c, st, [])
  | None => let (r, st') := settle st reply clk in (r, st', [ModelRun])
  end.

Definition clearCache (st : state) : state := initial.

(** ** Interleaved calls

    A call runs up to its [await]; the replies arrive later, one at a time.
    [waiting] counts the calls suspended at [await replicate.run(...)] and
    [modelRuns] the runs requested so far. *)
Record system : Type := {
  service : state;
  waiting : nat;
  modelRuns : nat
}.

Definition boot : system :=
  {| service := initial; waiting := 0; modelRuns := 0 |}.

(** A call is answered at once from the cache, or suspends on a model run
    of its own. *)
Definition call (sys : system) (now : Z) (forceRefresh : bool)
  : system * option value :=
  match cached (service sys) now forceRefresh with
  | Some c => (sys, Some c)
  | None =>
      ({| service := service sys;
          waiting := S (waiting sys);
          modelRuns := S (modelRuns sys) |}, None)
  end.

Fixpoint calls (sys : system) (reqs : list (Z * bool)) : system :=
  match reqs with
  | [] => sys
  | (now, forceRefresh) :: t => calls (fst (call sys now forceRefresh)) t
  end.

(** The reply to one suspended call arrives: that call resumes and runs to
    its end. *)
Definition arrive (sys : system) (reply : model_reply) (clk : clock)
  : system * value :=
  let (r, st') := settle (service sys) reply clk in
  ({| service := st';
      waiting := pred (waiting sys);
      modelRuns := modelRuns sys |}, r).

End Service.
End GptCrisisService.

(** The secure API service ([SecureApiService], 30-minute cache) *)
Module SecureApiService.
Import JsString Js.

Record state : Type := {
  cache : option value;
  lastFetch : option Z
}.

Definition initial : state := {| cache := None; lastFetch := None |}.

Definition CACHE_DURATION : Z := 30 * 60 * 1000.

(** What the backend does with one production: the health check fails;
    the health check passes and the request fails ([fetch] rejects, the
    status is not ok, or the body is not JSON); or the body parses to
    [data]. *)
Inductive backend : Type :=
| HealthDown
| Failed (message : jsstring)
| Responded (data : value).

Definition requests (b : backend) : list outbound :=
  match b with
  | HealthDown => [HealthCheck]
  | _ => [HealthCheck; AnalyzeCrisis]
  end.

Section Service.

(** [new Date(v)] *)
Variable new_Date : value -> value.

Definition cached (st : state) (now : Z) (forceRefresh : bool)
  : option value :=
  match cache st, lastFetch st with
  | Some c, Some t =>
      if negb forceRefresh
      then (if now - t <? CACHE_DURATION then Some c else None)
      else None
  | _, _ => None
  end.

(** [{ ...data, lastUpdated: new Date(data.lastUpdated) }] *)
Definition revive (data : value) : result value :=
  bind (get data "lastUpdated") (fun d =>
  Ok (VObj (set_prop (own_props data) (lit "lastUpdated") (new_Date d)))).

(** The [try]/[catch] of [getCrisisData]. *)
Definition settle (st : state) (b : backend) (clk : clock) : value * state :=
  let recover :=
    (match cache st with
     | Some c => c
     | None => SecureFallback.getFallbackData (at_result clk)
     end, st) in
  match b with
  | HealthDown => (SecureFallback.getFallbackData (at_result clk), st)
  | Failed _ => recover
  | Responded data =>
      match revive data with
      | Ok crisisData =>
          (crisisData,
           {| cache := Some crisisData; lastFetch := Some (at_store clk) |})
      | Throw _ => recover
      end
  end.

Definition getCrisisData (st : state) (forceRefresh : bool) (b : backend)
    (clk : clock) : value * state * list outbound :=
  match cached st (at_entry clk) forceRefresh with
  | Some c => (c, st, [])
  | None => let (r, st') := settle st b clk in (r, st', requests b)
  end.

End Service.
End SecureApiService.

(** src/services/fastApiService.ts: [FastApiService] *)
Module FastApiService.
Import JsString Js.

(** A promise returned by [fetchFreshData], named by its creation rank. *)
Definition promise := nat.

Record state : Type := {
  cache : option value;
  lastFetch : option Z;
  isLoading : bool;
  loadingPromise : option promise
}.

Definition CACHE_DURATION : Z := 60 * 60 * 1000.

Definition backend := SecureApiService.backend.

(** The service, the number of productions ([fetchFreshData] calls) started
    so far, the requests sent, and the value each settled promise holds. *)
Record system : Type := {
  service : state;
  started : nat;
  sent : list outbound;
  settled : list (promise * value)
}.

(** What a caller of [getCrisisData] gets: the cached data at once, or the
    value of a promise. *)
Inductive answer : Type :=
| Now (data : value)
| Later (p : promise).

Section Service.

Variable new_Date : value -> value.

Definition cached (st : state) (now : Z) (forceRefresh : bool)
  : option value :=
  match cache st, lastFetch st with
  | Some c, Some t =>
      if negb forceRefresh
      then (if now - t <? CACHE_DURATION then Some c else None)
      else None
  | _, _ => None
  end.

(** [getCrisisData] up to its [await]: a cache hit, the promise already in
    flight, or a production started now. *)
Definition call (sys : system) (now : Z) (forceRefresh : bool)
  : system * answer :=
  let st := service sys in
  match cached st now forceRefresh with
  | Some c => (sys, Now c)
  | None =>
      match isLoading st, loadingPromise st with
      | true, Some p => (sys, Later p)
      | _, _ =>
          let p := started sys in
          ({| service :=
                {| cache := cache st; lastFetch := lastFetch st;
                   isLoading := true; loadingPromise := Some p |};
              started := S p;
              sent := sent sys;
              settled := settled sys |}, Later p)
      end
  end.

(** [fetchFreshData]: its result and its effect on the cache. *)
Definition fetchFreshData (st : state) (b : backend) (clk : clock)
  : value * option value * option Z :=
  let recover :=
    (match cache st with
     | Some c => c
     | None => FastFallback.getFastFallbackData (at_result clk)
     end, cache st, lastFetch st) in
  match b with
  | SecureApiService.HealthDown =>
      (FastFallback.getFastFallbackData (at_result clk),
       cache st, lastFetch st)
  | SecureApiService.Failed _ => recover
  | SecureApiService.Responded data =>
      match SecureApiService.revive new_Date data with
      | Ok crisisData => (crisisData, Some crisisData, Some (at_store clk))
      | Throw _ => recover
      end
  end.

(** The production in flight completes: its promise takes its value, and
    the [finally] of the call that started it clears the registry. *)
Definition settle (sys : system) (b : backend) (clk : clock) : system :=
  let st := service sys in
  match loadingPromise st with
  | None => sys
  | Some p =>
      let '(r, c, t) := fetchFreshData st b clk in
      {| service :=
           {| cache := c; lastFetch := t;
              isLoading := false; loadingPromise := None |};
         started := started sys;
         sent := sent sys ++ SecureApiService.requests b;
         settled := (p, r) :: settled sys |}
  end.

(** The constructor: [preloadData] finds no cache and calls
    [getCrisisData], which starts the first production. *)
Definition blank : system :=
  {| service := {| cache := None; lastFetch := None;
                   isLoading := false; loadingPromise := None |};
     started := 0; sent := []; settled := [] |}.

Definition boot : system := fst (call blank 0 false).

(** [forceRefresh()] *)
Definition forceRefresh (sys : system) : system :=
  let st := service sys in
  {| service := {| cache := None; lastFetch := None;
                   isLoading := isLoading st;
                   loadingPromise := loadingPromise st |};
     started := started sys; sent := sent sys; settled := settled sys |}.

(** Calls issued one after the other with no settlement in between, and
    the answer each one gets. *)
Fixpoint calls (sys : system) (reqs : list (Z * bool))
  : system * list answer :=
  match reqs with
  | [] => (sys, [])
  | (now, force) :: t =>
      let (sys1, a) := call sys now force in
      let (sys2, rest) := calls sys1 t in
      (sys2, a :: rest)
  end.

(** The value an answer resolves to, once its promise has settled. *)
Definition resolved (sys : system) (a : answer) : option value :=
  match a with
  | Now v => Some v
  | Later p =>
      match find (fun e => Nat.eqb (fst e) p) (settled sys) with
      | Some e => Some (snd e)
      | None => None
      end
  end.

(** One call run to completion on its own. *)
Definition getCrisisData (sys : system) (forceRefresh : bool) (b : backend)
    (clk : clock) : option value * system :=
  let (sys1, a) := call sys (at_entry clk) forceRefresh in
  match a with
  | Now v => (Some v, sys1)
  | Later _ => let sys2 := settle sys1 b clk in (resolved sys2 a, sys2)
  end.

End Service.
End FastApiService.

(* ================================================================== *)
(** * The HTTP handlers (server/index.js) *)
(* ================================================================== *)

Module Server.
Import JsString Js.

Record response : Type := {
  status : Z;
  body : value
}.

(** Everything between the credential check and [responseText]: the
    dynamic import, the client construction and the awaited model run.
    Any of them may throw. *)
Inductive model_reply : Type :=
| Rejected (message : jsstring)
| Replied (responseText : jsstring).

(** [!process.env.REPLICATE_API_TOKEN] *)
Definition missing (token : option jsstring) : bool :=
  match token with
  | Some (_ :: _) => false
  | _ => true
  end.

Section Handlers.

Variable JSON_parse : jsstring -> option value.
Variable ToNumber_other : value -> float.
Variable parseFloat_string : jsstring -> float.
Variable random_id : nat -> float.

(** The [try] block of [POST /api/analyze-crisis] behind the credential
    check. *)
Definition analyze (reply : model_reply) (now : Z) : result value :=
  match reply with
  | Rejected message => Throw message
  | Replied responseText =>
      let cleanedResponse := ServerSanitizer.cleanJsonResponse responseText in
      let parsedData :=
        match JSON_parse cleanedResponse with
        | Some v => v
        | None => ServerCoercer.getFallbackData
        end in
      bind (get parsedData "events") (fun events =>
      bind (ServerCoercer.processEvents parseFloat_string random_id
              (or events (VArr []))) (fun es =>
      bind (GptCrisisService.highRiskEvents ToNumber_other events) (fun high =>
      Ok (VObj
        [ prop "events" es;
          prop "lastUpdated" (VDate now);
          prop "totalEvents" (GptCrisisService.totalEvents events);
          prop "highRiskEvents" high ]))))
  end.

(** [app.post('/api/analyze-crisis', ...)] *)
Definition analyze_crisis (token : option jsstring) (reply : model_reply)
    (now : Z) : response :=
  if missing token then
    {| status := 500;
       body := VObj [ prop "error" (VStr (lit "Server configuration error")) ] |}
  else
    match analyze reply now with
    | Ok crisisData => {| status := 200; body := crisisData |}
    | Throw _ =>
        {| status := 500;
           body := VObj
             [ prop "error" (VStr (lit "Analysis temporarily unavailable"));
               prop "fallback" ServerCoercer.getFallbackData ] |}
    end.




End Handlers.
End Server.

(* ================================================================== *)
(** * The profit predictor (src/services/newsService.ts) *)
(* ================================================================== *)

Module ProfitPredictorService.
Import JsString Js.

(** The [Map] holds at most the key ['profit-opportunities']. *)
Record state : Type := {
  cache : option (value * Z)
}.

Definition CACHE_DURATION : Z := 5 * 60 * 1000.

(** The awaited [fetch] of [/api/analyze-financial]: it fails ([fetch]
    rejects, the status is not ok, or the body is not JSON), or the body
    parses to [data]. *)
Inductive backend : Type :=
| Failed (message : jsstring)
| Responded (data : value).

Section Service.

Variable ToNumber_other : value -> float.

(** [.sort((a, b) => b.profitProbability * b.expectedReturn -
    a.profitProbability * a.expectedReturn)] *)
Variable sort_by_profit : list value -> list value.

Definition getFallbackOpportunities : value := VArr [].

(** [crisisEvents[0]?.title] *)
Definition first_title (crisisEvents : list value) : result value :=
  match crisisEvents with
  | [] => Ok VUndefined
  | e :: _ => if nullish e then Ok VUndefined else get e "title"
  end.

(** The arrow function mapped over [data.opportunities]. *)
Definition opportunity (crisisEvents : list value) (now : Z) (opp : value)
  : result value :=
  if nullish opp then Throw type_error
  else
    bind (let context := field opp "crisisContext" in
          if truthy context then Ok context
          else bind (first_title crisisEvents) (fun t =>
               Ok (or t (VStr (lit "Global Crisis"))))) (fun context =>
    Ok (VObj
      [ prop "symbol" (field opp "symbol");
        prop "companyName" (field opp "companyName");
        prop "currentPrice" (or (field opp "currentPrice") (VNum 100));
        prop "profitProbability" (field opp "profitProbability");
        prop "expectedReturn" (field opp "expectedReturn");
        prop "timeToProfit" (field opp "timeToProfit");
        prop "crisisContext" context;
        prop "investmentThesis" (field opp "investmentThesis");
        prop "riskFactors" (or (field opp "riskFactors") (VArr []));
        prop "entryPrice"
          (or (or (field opp "entryPrice") (field opp "currentPrice"))
              (VNum 100));
        prop "targetPrice" (field opp "targetPrice");
        prop "stopLoss" (field opp "stopLoss");
        prop "confidence" (field opp "confidence");
        prop "lastUpdated" (VDate now) ])).

(** The [try] block of [analyzeProfitOpportunities]. *)
Definition analyze (crisisEvents : list value) (b : backend) (now : Z)
  : result value :=
  match b with
  | Failed message => Throw message
  | Responded data =>
      bind (get data "opportunities") (fun opps =>
      match or opps (VArr []) with
      | VArr os =>
          bind (mapM (opportunity crisisEvents now) os) (fun os' =>
          Ok (VArr (firstn 15 (sort_by_profit os'))))
      | _ => Throw type_error
      end)
  end.

Definition analyzeProfitOpportunities (st : state) (crisisEvents : list value)
    (b : backend) (clk : clock) : value * state :=
  let miss :=
    match analyze crisisEvents b (at_result clk) with
    | Ok sortedOpportunities =>
        (sortedOpportunities,
         {| cache := Some (sortedOpportunities, at_store clk) |})
    | Throw _ => (getFallbackOpportunities, st)
    end in
  match cache st with
  | Some (data, timestamp) =>
      if at_entry clk - timestamp <? CACHE_DURATION then (data, st) else miss
  | None => miss
  end.

(** [a || b * k] with [b * k] a numeric product. *)
Definition or_scaled (a b : value) (k : float) : value :=
  or a (VNum (GptCrisisService.ToNumber ToNumber_other b * k)%float).

(** The arrow function mapped over [data.signals]. *)
Definition signal (now : Z) (s : value) : result value :=
  if nullish s then Throw type_error
  else
    Ok (VObj
      [ prop "symbol" (field s "symbol");
        prop "action" (field s "action");
        prop "confidence" (field s "confidence");
        prop "targetPrice" (field s "targetPrice");
        prop "stopLoss" (field s "stopLoss");
        prop "timeHorizon" (field s "timeHorizon");
        prop "reasoning" (field s "reasoning");
        prop "expectedReturn" (field s "expectedReturn");
        prop "riskLevel" (field s "riskLevel");
        prop "crisisTrigger" (field s "crisisTrigger");
        prop "validation" (VObj
          [ prop "isValid" (VBool true);
            prop "errors" (VArr []);
            prop "warnings" (VArr []);
            prop "confidence" (field s "confidence");
            prop "dataQuality" (VStr (lit "high"));
            prop "lastValidated" (VDate now) ]);
        prop "disclaimers"
          (VArr [ VStr (lit "not-financial-advice");
                  VStr (lit "high-risk-warning") ]);
        prop "dataFreshness" (VNum 0);
        prop "optimisticReturn"
          (or_scaled (field s "optimisticReturn") (field s "expectedReturn") 1.3);
        prop "pessimisticReturn"
          (or_scaled (field s "pessimisticReturn") (field s "expectedReturn") 0.7);
        prop "mostLikelyReturn"
          (or (field s "mostLikelyReturn") (field s "expectedReturn")) ]).


End Service.
End ProfitPredictorService.

(* ================================================================== *)
(** * The data validator (src/services/dataValidator.ts) *)
(* ================================================================== *)

Module DataValidator.
Import JsString Js.

(** [haystack.includes(needle)] on strings. *)
Fixpoint includes (haystack needle : jsstring) : bool :=
  match strip_prefix needle haystack with
  | Some _ => true
  | None =>
      match haystack with
      | [] => false
      | _ :: t => includes t needle
      end
  end.

(** The fields of [StockPrice] the validator reads; [timestamp] is
    [price.timestamp.getTime()]. *)
Module Stock.
Record t : Type := {
  price : float;
  changePercent : float;
  volume : float;
  timestamp : float
}.
End Stock.

(** The fields of [TradingSignal] the validator reads. *)
Module Signal.
Record t : Type := {
  action : jsstring;
  confidence : float;
  targetPrice : float;
  stopLoss : float;
  expectedReturn : float;
  riskLevel : jsstring;
  crisisTrigger : jsstring;
  dataFreshness : float
}.
End Signal.

(** The fields of [ProfitOpportunity] the validator reads. *)
Module Opportunity.
Record t : Type := {
  profitProbability : float;
  expectedReturn : float;
  timeToProfit : float;
  investmentThesis : jsstring;
  riskFactors : list jsstring;
  entryPrice : float;
  targetPrice : float;
  stopLoss : float;
  confidence : float;
  historicalAccuracy : option float
}.
End Opportunity.

Inductive quality : Type := high | medium | low.

Record ValidationResult : Type := {
  isValid : bool;
  errors : list string;
  warnings : list string;
  confidence : float;
  dataQuality : quality;
  lastValidated : Z
}.

(** [if (c) list.push(message)] *)
Definition push_if (c : bool) (message : string) (l : list string)
  : list string :=
  if c then l ++ [message] else l.

Definition count (l : list string) : float := of_nat (List.length l).

Local Open Scope float_scope.

Definition getDataQuality (confidence : float) : quality :=
  if 80 <=? confidence then high
  else if 60 <=? confidence then medium
  else low.

(** [now] is the [Date.now()] read inside this function. *)
Definition calculateStockPriceConfidence (price : Stock.t) (now : Z)
    (errors warnings : list string) : float :=
  let confidence := 100 in
  let confidence := confidence - count errors * 30 in
  let confidence := confidence - count warnings * 10 in
  let dataAge := of_Z now - Stock.timestamp price in
  let hoursSinceUpdate := dataAge / (1000 * 60 * 60) in
  let confidence := confidence - Math_min (hoursSinceUpdate * 2) 30 in
  let confidence :=
    if Stock.volume price <? 1000 then confidence - 15 else confidence in
  Math_max 0 (Math_min 100 confidence).

Definition calculateSignalConfidence (signal : Signal.t)
    (errors warnings : list string) : float :=
  let confidence := Signal.confidence signal in
  let confidence := confidence - count errors * 25 in
  let confidence := confidence - count warnings * 10 in
  let confidence :=
    if 30 <? Signal.dataFreshness signal
    then confidence - (Signal.dataFreshness signal - 30) * 0.5
    else confidence in
  let confidence :=
    if key_eqb (Signal.riskLevel signal) (lit "extreme") then confidence - 20
    else if key_eqb (Signal.riskLevel signal) (lit "high") then confidence - 10
    else if key_eqb (Signal.riskLevel signal) (lit "medium") then confidence - 5
    else confidence in
  Math_max 0 (Math_min 100 confidence).

Definition calculateOpportunityConfidence (opportunity : Opportunity.t)
    (errors warnings : list string) : float :=
  let confidence := Opportunity.confidence opportunity in
  let confidence := confidence - count errors * 25 in
  let confidence := confidence - count warnings * 8 in
  let confidence :=
    if Opportunity.profitProbability opportunity <? 50
    then confidence - (50 - Opportunity.profitProbability opportunity) * 0.5
    else confidence in
  let confidence :=
    match Opportunity.historicalAccuracy opportunity with
    | Some h =>
        if truthy (VNum h) then confidence + (h - 50) * 0.3 else confidence
    | None => confidence
    end in
  Math_max 0 (Math_min 100 confidence).

(** [now] and [now'] are the two [Date.now()] readings (here and in the
    confidence computation), [stamp] the [new Date()] of [lastValidated]. *)
Definition validateStockPrice (price : Stock.t) (now now' stamp : Z)
  : ValidationResult :=
  let errors := [] in
  let warnings := [] in
  let errors :=
    push_if (Stock.price price <=? 0) "Stock price must be positive" errors in
  let warnings :=
    push_if (10000 <? Stock.price price)
      "Unusually high stock price - please verify" warnings in
  let warnings :=
    push_if (50 <? abs (Stock.changePercent price))
      "Extreme price change detected - verify data accuracy" warnings in
  let errors :=
    push_if (100 <? abs (Stock.changePercent price))
      "Price change exceeds 100% - likely data error" errors in
  let errors :=
    push_if (Stock.volume price <? 0)
      "Trading volume cannot be negative" errors in
  let dataAge := of_Z now - Stock.timestamp price in
  let maxAge := 24 * 60 * 60 * 1000 in
  let warnings :=
    push_if (maxAge <? dataAge)
      "Stock data is more than 24 hours old" warnings in
  let errors :=
    push_if (7 * maxAge <? dataAge)
      "Stock data is too stale (over 7 days old)" errors in
  let confidence := calculateStockPriceConfidence price now' errors warnings in
  {| isValid := match errors with [] => true | _ => false end;
     errors := errors;
     warnings := warnings;
     confidence := confidence;
     dataQuality := getDataQuality confidence;
     lastValidated := stamp |}.

Definition validateTradingSignal (signal : Signal.t) (stamp : Z)
  : ValidationResult :=
  let errors := [] in
  let warnings := [] in
  let errors :=
    push_if
      (negb (existsb (key_eqb (Signal.action signal))
               [lit "BUY"; lit "SELL"; lit "HOLD"; lit "STRONG_BUY";
                lit "STRONG_SELL"]))
      "Invalid trading action" errors in
  let errors :=
    push_if ((Signal.confidence signal <? 0) || (100 <? Signal.confidence signal))
      "Confidence must be between 0 and 100" errors in
  let warnings :=
    push_if (Signal.confidence signal <? 30)
      "Low confidence signal - use with extreme caution" warnings in
  let errors :=
    push_if ((Signal.targetPrice signal <=? 0) || (Signal.stopLoss signal <=? 0))
      "Target price and stop loss must be positive" errors in
  let buy := includes (Signal.action signal) (lit "BUY") in
  let errors :=
    push_if (buy && (Signal.targetPrice signal <=? Signal.stopLoss signal))
      "Stop loss should be below target price for BUY signals" errors in
  let riskRewardRatio :=
    (Signal.targetPrice signal - Signal.stopLoss signal)
    / Signal.stopLoss signal in
  let warnings :=
    push_if (buy && (riskRewardRatio <? 0.1))
      "Poor risk/reward ratio detected" warnings in
  let errors :=
    push_if (includes (Signal.action signal) (lit "SELL")
             && (Signal.stopLoss signal <=? Signal.targetPrice signal))
      "Stop loss should be above target price for SELL signals" errors in
  let warnings :=
    push_if (200 <? abs (Signal.expectedReturn signal))
      "Extremely high expected return - verify calculations" warnings in
  let warnings :=
    push_if (60 <? Signal.dataFreshness signal)
      "Signal based on data older than 1 hour" warnings in
  let errors :=
    push_if (240 <? Signal.dataFreshness signal)
      "Signal based on stale data (over 4 hours old)" errors in
  let warnings :=
    push_if (Nat.ltb (List.length (Signal.crisisTrigger signal)) 10)
      "Insufficient crisis context provided" warnings in
  let confidence := calculateSignalConfidence signal errors warnings in
  {| isValid := match errors with [] => true | _ => false end;
     errors := errors;
     warnings := warnings;
     confidence := confidence;
     dataQuality := getDataQuality confidence;
     lastValidated := stamp |}.

Definition validateProfitOpportunity (opportunity : Opportunity.t) (stamp : Z)
  : ValidationResult :=
  let errors := [] in
  let warnings := [] in
  let errors :=
    push_if ((Opportunity.profitProbability opportunity <? 0)
             || (100 <? Opportunity.profitProbability opportunity))
      "Profit probability must be between 0 and 100" errors in
  let warnings :=
    push_if (Opportunity.profitProbability opportunity <? 20)
      "Very low profit probability - high risk investment" warnings in
  let errors :=
    push_if (Opportunity.expectedReturn opportunity <? -100)
      "Expected return cannot be less than -100%" errors in
  let warnings :=
    push_if (1000 <? Opportunity.expectedReturn opportunity)
      "Extremely high expected return - verify calculations" warnings in
  let errors :=
    push_if (Opportunity.timeToProfit opportunity <=? 0)
      "Time to profit must be positive" errors in
  let warnings :=
    push_if (365 <? Opportunity.timeToProfit opportunity)
      "Very long time horizon - consider market changes" warnings in
  let errors :=
    push_if ((Opportunity.entryPrice opportunity <=? 0)
             || (Opportunity.targetPrice opportunity <=? 0)
             || (Opportunity.stopLoss opportunity <=? 0))
      "All prices must be positive" errors in
  let potentialLoss :=
    abs (Opportunity.entryPrice opportunity - Opportunity.stopLoss opportunity) in
  let potentialGain :=
    abs (Opportunity.targetPrice opportunity - Opportunity.entryPrice opportunity) in
  let riskRewardRatio := potentialGain / potentialLoss in
  let warnings :=
    push_if (riskRewardRatio <? 1) "Risk exceeds potential reward" warnings in
  let warnings :=
    push_if (Nat.ltb (List.length (Opportunity.investmentThesis opportunity)) 50)
      "Investment thesis should be more detailed" warnings in
  let warnings :=
    push_if (Nat.eqb (List.length (Opportunity.riskFactors opportunity)) 0)
      "No risk factors identified - analysis may be incomplete" warnings in
  let confidence :=
    calculateOpportunityConfidence opportunity errors warnings in
  {| isValid := match errors with [] => true | _ => false end;
     errors := errors;
     warnings := warnings;
     confidence := confidence;
     dataQuality := getDataQuality confidence;
     lastValidated := stamp |}.

End DataValidator.

(* ================================================================== *)
(** * The JSON grammar accepted by [JSON.parse] *)
(* ================================================================== *)

Module Json.
Import JsString.

(** JSON whitespace: space, tab, line feed, carriage return. *)
Definition is_json_ws (c : N) : bool :=
  ((c =? 32) || (c =? 9) || (c =? 10) || (c =? 13))%N.

Fixpoint skip (s : jsstring) : jsstring :=
  match s with
  | [] => []
  | c :: t => if is_json_ws c then skip t else s
  end.

Definition is_digit (c : N) : bool := ((48 <=? c) && (c <=? 57))%N.

Definition is_hex (c : N) : bool :=
  (is_digit c || (65 <=? c) && (c <=? 70) || (97 <=? c) && (c <=? 102))%N.

Fixpoint digits (s : jsstring) : jsstring :=
  match s with
  | [] => []
  | c :: t => if is_digit c then digits t else s
  end.

(** At least one digit, then what follows the digits. *)
Definition digits1 (s : jsstring) : option jsstring :=
  match s with
  | c :: t => if is_digit c then Some (digits t) else None
  | [] => None
  end.

(** An optional minus sign; a zero, or a non-zero digit and more digits;
    an optional fraction (a point and digits); an optional exponent (e or
    E, an optional sign, digits). *)
Definition number (s : jsstring) : option jsstring :=
  let s := match s with 45%N :: t => t | _ => s end in
  let int :=
    match s with
    | 48%N :: t => Some t
    | c :: t => if is_digit c then Some (digits t) else None
    | [] => None
    end in
  match int with
  | None => None
  | Some r =>
      let frac :=
        match r with
        | 46%N :: t => digits1 t
        | _ => Some r
        end in
      match frac with
      | None => None
      | Some r =>
          match r with
          | c :: t =>
              if ((c =? 101) || (c =? 69))%N then
                match t with
                | d :: t' =>
                    if ((d =? 43) || (d =? 45))%N then digits1 t'
                    else digits1 t
                | [] => None
                end
              else Some r
          | [] => Some r
          end
      end
  end.

(** The characters of a string behind its opening quote, up to and
    including the closing one. *)
Fixpoint chars (s : jsstring) : option jsstring :=
  match s with
  | [] => None
  | 34%N :: t => Some t
  | 92%N :: t =>
      match t with
      | 117%N :: a :: b :: c :: d :: t' =>
          if is_hex a && is_hex b && is_hex c && is_hex d then chars t'
          else None
      | e :: t' =>
          if existsb (N.eqb e) [34; 92; 47; 98; 102; 110; 114; 116]%N
          then chars t' else None
      | [] => None
      end
  | c :: t => if (c <? 32)%N then None else chars t
  end.

(** A value, with the whitespace before it; [elements] reads the rest of an
    array behind its bracket and [members] the rest of an object behind its
    brace. *)
Fixpoint value (fuel : nat) (s : jsstring) : option jsstring :=
  match fuel with
  | O => None
  | S k =>
      match skip s with
      | [] => None
      | c :: t =>
          if (c =? 123)%N then
            match skip t with
            | 125%N :: r => Some r
            | _ => members k t
            end
          else if (c =? 91)%N then
            match skip t with
            | 93%N :: r => Some r
            | _ => elements k t
            end
          else if (c =? 34)%N then chars t
          else if (c =? 116)%N then strip_prefix (lit "rue") t
          else if (c =? 102)%N then strip_prefix (lit "alse") t
          else if (c =? 110)%N then strip_prefix (lit "ull") t
          else number (c :: t)
      end
  end
with elements (fuel : nat) (s : jsstring) : option jsstring :=
  match fuel with
  | O => None
  | S k =>
      match value k s with
      | None => None
      | Some r =>
          match skip r with
          | 44%N :: r' => elements k r'
          | 93%N :: r' => Some r'
          | _ => None
          end
      end
  end
with members (fuel : nat) (s : jsstring) : option jsstring :=
  match fuel with
  | O => None
  | S k =>
      match skip s with
      | 34%N :: t =>
          match chars t with
          | None => None
          | Some r =>
              match skip r with
              | 58%N :: r' =>
                  match value k r' with
                  | None => None
                  | Some r2 =>
                      match skip r2 with
                      | 44%N :: r3 => members k r3
                      | 125%N :: r3 => Some r3
                      | _ => None
                      end
                  end
              | _ => None
              end
          end
      | _ => None
      end
  end.

(** The text is one JSON value between optional whitespace. *)
Definition valid (s : jsstring) : bool :=
  match value (S (List.length s)) s with
  | Some r => match skip r with [] => true | _ => false end
  | None => false
  end.

End Json.

(* ================================================================== *)
(** * The fast API service: cache status and interleavings *)
(* ================================================================== *)

(** src/services/fastApiService.ts: [getCacheStatus] *)
Module FastApiStatus.

Record t : Type := {
  cached : bool;
  age : Z;
  expires : Z
}.

Definition getCacheStatus (st : FastApiService.state) (now : Z) : t :=
  match FastApiService.cache st, FastApiService.lastFetch st with
  | Some _, Some fetched =>
      let age := now - fetched in
      let expires := FastApiService.CACHE_DURATION - age in
      {| cached := true; age := age; expires := expires |}
  | _, _ => {| cached := false; age := 0; expires := 0 |}
  end.

End FastApiStatus.

(** What can happen to the fast API service, in any order: a caller enters
    [getCrisisData], the production in flight completes, or somebody calls
    [forceRefresh()]. *)
Module FastApiRuns.
Import Js.

Inductive event : Type :=
| Request (now : Z) (forceRefresh : bool)
| Completion (b : FastApiService.backend) (clk : clock)
| Refresh.

Section Runs.

Variable new_Date : value -> value.

Definition step (sys : FastApiService.system) (ev : event)
  : FastApiService.system :=
  match ev with
  | Request now force => fst (FastApiService.call sys now force)
  | Completion b clk => FastApiService.settle new_Date sys b clk
  | Refresh => FastApiService.forceRefresh sys
  end.

Definition run (sys : FastApiService.system) (evs : list event)
  : FastApiService.system :=
  fold_left step evs sys.

End Runs.
End FastApiRuns.

(* ================================================================== *)
(** * The GPT crisis service: updating one event *)
(* ================================================================== *)

(** src/services/gptCrisisService.ts: [updateSpecificEvent] *)
Module GptEventUpdate.
Import JsString Js.

Section Service.

Variable JSON_parse : jsstring -> option value.
Variable today : jsstring.

(** [e.id === eventId] *)
Definition has_id (eventId : float) (e : value) : result bool :=
  bind (get e "id") (fun i =>
  Ok (match i with
      | VNum x => (x =? eventId)%float
      | _ => false
      end)).

(** [events.findIndex(p)]: the first position whose element satisfies
    [p], counted from [i]. *)
Fixpoint findIndex (p : value -> result bool) (i : nat) (xs : list value)
  : result (option nat) :=
  match xs with
  | [] => Ok None
  | x :: t =>
      bind (p x) (fun b => if b then Ok (Some i) else findIndex p (S i) t)
  end.

(** [this.cache.events], on which [find] and [findIndex] are called: only
    an array has them. *)
Definition events_of (cache : option value) : result (list value) :=
  match cache with
  | None => Throw type_error
  | Some c =>
      bind (get c "events") (fun events =>
      match events with
      | VArr es => Ok es
      | _ => Throw type_error
      end)
  end.

(** [xs[i] = v] for [i] within the array. *)
Fixpoint assign (xs : list value) (i : nat) (v : value) : list value :=
  match xs, i with
  | [], _ => []
  | _ :: t, O => v :: t
  | x :: t, S j => x :: assign t j v
  end.

(** The call up to its [await]: it returns at once, or is suspended on a
    model run with the event it found.  As in [getAllCrisisData], a cache
    of [None] is [this.cache] being [null]. *)
Inductive entered : Type :=
| Returned (r : value)
| Suspended (event : value).

Definition enter (st : GptCrisisService.state) (eventId : float)
  : result entered :=
  match GptCrisisService.cache st with
  | None => Ok (Returned VNull)
  | Some _ =>
      bind (events_of (GptCrisisService.cache st)) (fun es =>
      bind (findIndex (has_id eventId) 0 es) (fun found =>
      match found with
      | None => Ok (Returned VNull)
      | Some i =>
          let event := nth i es VUndefined in
          if truthy event then Ok (Suspended event) else Ok (Returned VNull)
      end))
  end.

(** The [try] block from the model's reply on, run on the state the
    service has when the reply arrives: the event returned and the cache
    afterwards. *)
Definition update (st : GptCrisisService.state) (eventId : float)
    (reply : GptCrisisService.model_reply)
  : result (value * GptCrisisService.state) :=
  match reply with
  | GptCrisisService.Rejected message => Throw message
  | GptCrisisService.Replied responseText =>
      let cleanedResponse := GptSanitizer.cleanJsonResponse responseText in
      match JSON_parse cleanedResponse with
      | None => Throw (lit "SyntaxError")
      | Some updatedEvent =>
          bind (events_of (GptCrisisService.cache st)) (fun es =>
          bind (findIndex (has_id eventId) 0 es) (fun found =>
          match found, GptCrisisService.cache st with
          | Some eventIndex, Some c =>
              bind (GptCoercer.processEvent today updatedEvent None)
                (fun processed =>
              Ok (processed,
                  {| GptCrisisService.cache :=
                       Some (VObj (set_prop (own_props c) (lit "events")
                               (VArr (assign es eventIndex processed))));
                     GptCrisisService.lastFetch :=
                       GptCrisisService.lastFetch st |}))
          | _, _ => Ok (VUndefined, st)
          end))
      end
  end.

(** The reply arrives: the [try] block runs to its end, or the [catch]
    returns the event found on entry. *)
Definition resume (st : GptCrisisService.state) (eventId : float)
    (event : value) (reply : GptCrisisService.model_reply)
  : value * GptCrisisService.state :=
  match update st eventId reply with
  | Ok r => r
  | Throw _ => (event, st)
  end.

(** One call run to completion with nothing else in between. *)
Definition updateSpecificEvent (st : GptCrisisService.state)
    (eventId : float) (reply : GptCrisisService.model_reply)
  : result (value * GptCrisisService.state * list outbound) :=
  bind (enter st eventId) (fun e =>
  match e with
  | Returned r => Ok (r, st, [])
  | Suspended event =>
      let (r, st') := resume st eventId event reply in
      Ok (r, st', [ModelRun])
  end).

End Service.
End GptEventUpdate.

(* ================================================================== *)
(** * Legal disclaimers and consents *)
(* ================================================================== *)

(** A [Map] with string keys, in insertion order: [set] on a key already
    present keeps its place. *)
Module JsMap.
Import JsString Js.

Section Map.

Context {V : Type}.

Fixpoint get (m : list (jsstring * V)) (k : jsstring) : option V :=
  match m with
  | [] => None
  | (k', v) :: t => if key_eqb k' k then Some v else get t k
  end.

Fixpoint set (m : list (jsstring * V)) (k : jsstring) (v : V)
  : list (jsstring * V) :=
  match m with
  | [] => [(k, v)]
  | (k', v') :: t =>
      if key_eqb k' k then (k, v) :: t else (k', v') :: set t k v
  end.

Fixpoint delete (m : list (jsstring * V)) (k : jsstring)
  : list (jsstring * V) :=
  match m with
  | [] => []
  | (k', v') :: t =>
      if key_eqb k' k then delete t k else (k', v') :: delete t k
  end.

End Map.
End JsMap.

(** src/services/legalService.ts *)
Module LegalService.
Import JsString Js.

Record LegalDisclaimer : Type := {
  id : jsstring;
  title : jsstring;
  content : jsstring;
  severity : jsstring;
  userMustAcknowledge : bool;
  category : jsstring
}.

(** [timestamp] is the time value of the [Date], [None] for an invalid
    one. *)
Record UserConsent : Type := {
  disclaimerId : jsstring;
  acknowledged : bool;
  timestamp : option Z
}.

Definition FINANCIAL_DISCLAIMERS : list LegalDisclaimer :=
  [
    {| id := lit "not-financial-advice";
       title := lit "Not Financial Advice";
       content :=
        lit "This platform provides information and analysis for educational purposes only. " ++
        [10%N] ++
        lit "    Nothing on this platform constitutes financial, investment, trading, or other advice. " ++
        [10%N] ++
        lit "    You should not treat any content as a recommendation to buy, sell, or hold any security or investment.";
       severity := lit "critical";
       userMustAcknowledge := true;
       category := lit "general" |};
    {| id := lit "high-risk-warning";
       title := lit "High Risk Investment Warning";
       content :=
        lit "Trading and investing in securities involves substantial risk of loss and is not suitable for all investors. " ++
        [10%N] ++
        lit "    Past performance does not guarantee future results. You may lose some or all of your investment.";
       severity := lit "critical";
       userMustAcknowledge := true;
       category := lit "trading" |};
    {| id := lit "ai-predictions-warning";
       title := lit "AI Predictions Disclaimer";
       content :=
        lit "Our AI predictions are based on historical data and current events analysis. " ++
        [10%N] ++
        lit "    AI predictions can be wrong and should not be relied upon as the sole basis for investment decisions. " ++
        [10%N] ++
        lit "    Markets are unpredictable and AI models have limitations.";
       severity := lit "high";
       userMustAcknowledge := true;
       category := lit "predictions" |};
    {| id := lit "crisis-data-warning";
       title := lit "Crisis Data Accuracy";
       content :=
        lit "Crisis and conflict data is sourced from various sources and AI analysis. " ++
        [10%N] ++
        lit "    Information may be incomplete, delayed, or inaccurate. Always verify information from multiple sources " ++
        [10%N] ++
        lit "    before making investment decisions.";
       severity := lit "medium";
       userMustAcknowledge := false;
       category := lit "general" |};
    {| id := lit "volatility-warning";
       title := lit "Market Volatility Warning";
       content :=
        lit "Crisis-related investments can be extremely volatile. Prices can change rapidly and unpredictably. " ++
        [10%N] ++
        lit "    Only invest what you can afford to lose completely.";
       severity := lit "high";
       userMustAcknowledge := true;
       category := lit "risk" |} ].

(** [this.userConsents] *)
Definition state : Type := list (jsstring * UserConsent).

(** [!category] for the optional string parameter. *)
Definition absent (category : option jsstring) : bool :=
  match category with
  | Some (_ :: _) => false
  | _ => true
  end.

(** [disclaimer.category === category] *)
Definition in_category (d : LegalDisclaimer) (category : option jsstring)
  : bool :=
  match category with
  | Some c => key_eqb (LegalService.category d) c
  | None => false
  end.

Definition getRequiredDisclaimers (category : option jsstring)
  : list LegalDisclaimer :=
  filter (fun disclaimer =>
            userMustAcknowledge disclaimer
            && (absent category || in_category disclaimer category))
         FINANCIAL_DISCLAIMERS.

Definition getAllDisclaimers (category : option jsstring)
  : list LegalDisclaimer :=
  filter (fun disclaimer => absent category || in_category disclaimer category)
         FINANCIAL_DISCLAIMERS.

Section Service.

(** The time value of [d] after [d.setDate(d.getDate() - 30)] on a date
    whose time value was [now]: thirty calendar days earlier in the local
    time zone. *)
Variable thirty_days_before : Z -> Z.

(** [now] is the time value of the [new Date()] the check creates. *)
Definition hasUserConsented (st : state) (disclaimerId : jsstring) (now : Z)
  : bool :=
  match JsMap.get st disclaimerId with
  | None => false
  | Some consent =>
      let thirtyDaysAgo := thirty_days_before now in
      acknowledged consent
      && match timestamp consent with
         | Some t => thirtyDaysAgo <? t
         | None => false
         end
  end.

Definition recordConsent (st : state) (disclaimerId : jsstring) (now : Z)
  : state :=
  let consent :=
    {| disclaimerId := disclaimerId;
       acknowledged := true;
       timestamp := Some now |} in
  JsMap.set st disclaimerId consent.

Record ConsentCheck : Type := {
  hasAllConsents : bool;
  missingConsents : list LegalDisclaimer
}.

(** The loop of [checkRequiredConsents] runs without a pause: [now]
    stands for the clock readings of its checks. *)
Definition checkRequiredConsents (st : state) (feature : jsstring) (now : Z)
  : ConsentCheck :=
  let requiredDisclaimers := getRequiredDisclaimers (Some feature) in
  let missingConsents :=
    filter (fun disclaimer => negb (hasUserConsented st (id disclaimer) now))
           requiredDisclaimers in
  {| hasAllConsents := Nat.eqb (List.length missingConsents) 0;
     missingConsents := missingConsents |}.

Definition revokeConsent (st : state) (disclaimerId : jsstring) : state :=
  JsMap.delete st disclaimerId.

Definition clearAllConsents (st : state) : state := [].

End Service.
End LegalService.

(** src/hooks/useFinancialFeatures.ts *)
Module FinancialFeatures.
Import JsString Js.

Record features : Type := {
  tradingSignals : bool;
  profitPredictions : bool;
  portfolioAnalysis : bool
}.

(** The two pieces of state of the hook that [loadFeature] writes, with
    its [isLoading] and [error]. *)
Record state : Type := {
  isLoaded : bool;
  lastConsentCheck : option Z;
  featuresEnabled : features;
  isLoading : bool;
  error : option jsstring
}.

Definition initial : state :=
  {| isLoaded := false;
     lastConsentCheck := None;
     featuresEnabled :=
       {| tradingSignals := false; profitPredictions := false;
          portfolioAnalysis := false |};
     isLoading := false;
     error := None |}.

(** The awaited [import('@/services/dataValidator')]: it resolves, or
    rejects with an [Error] carrying [message] or with something else. *)
Inductive imported : Type :=
| Loaded
| Failed (message : option jsstring).

Section Hook.

Variable thirty_days_before : Z -> Z.

(** "Determine required consent category" *)
Definition consentCategory (featureName : jsstring) : jsstring :=
  if DataValidator.includes featureName (lit "trading")
     || DataValidator.includes featureName (lit "signal")
  then lit "trading"
  else if DataValidator.includes featureName (lit "profit")
          || DataValidator.includes featureName (lit "predict")
  then lit "predictions"
  else lit "general".

(** The [switch]: the feature a name enables, if it names one. *)
Definition enable (featureName : jsstring) (f : features) : option features :=
  if key_eqb featureName (lit "tradingSignals") then
    Some {| tradingSignals := true;
            profitPredictions := profitPredictions f;
            portfolioAnalysis := portfolioAnalysis f |}
  else if key_eqb featureName (lit "profitPredictions") then
    Some {| tradingSignals := tradingSignals f;
            profitPredictions := true;
            portfolioAnalysis := portfolioAnalysis f |}
  else if key_eqb featureName (lit "portfolioAnalysis") then
    Some {| tradingSignals := tradingSignals f;
            profitPredictions := profitPredictions f;
            portfolioAnalysis := true |}
  else None.

(** [loadFeature(featureName)] run to its end; [now] is the clock of the
    consent check and [later] the [new Date()] stored afterwards. *)
Definition loadFeature (st : state) (consents : LegalService.state)
    (featureName : jsstring) (module : imported) (now later : Z) : state :=
  let consentCheck :=
    LegalService.checkRequiredConsents thirty_days_before consents
      (consentCategory featureName) now in
  if negb (LegalService.hasAllConsents consentCheck) then
    {| isLoaded := isLoaded st;
       lastConsentCheck := lastConsentCheck st;
       featuresEnabled := featuresEnabled st;
       isLoading := false;
       error := Some (lit "Consent required for " ++ featureName) |}
  else
    match enable featureName (featuresEnabled st) with
    | None =>
        {| isLoaded := isLoaded st;
           lastConsentCheck := lastConsentCheck st;
           featuresEnabled := featuresEnabled st;
           isLoading := false;
           error := Some (lit "Unknown feature: " ++ featureName) |}
    | Some enabled =>
        match module with
        | Failed message =>
            {| isLoaded := isLoaded st;
               lastConsentCheck := lastConsentCheck st;
               featuresEnabled := featuresEnabled st;
               isLoading := false;
               error := Some match message with
                             | Some m => m
                             | None => lit "Failed to load feature"
                             end |}
        | Loaded =>
            {| isLoaded := true;
               lastConsentCheck := Some later;
               featuresEnabled := enabled;
               isLoading := false;
               error := None |}
        end
    end.

(** The effect run on mount. *)
Definition checkInitialConsents (st : state) (consents : LegalService.state)
    (now : Z) : state :=
  let tradingConsent :=
    LegalService.checkRequiredConsents thirty_days_before consents
      (lit "trading") now in
  let predictionsConsent :=
    LegalService.checkRequiredConsents thirty_days_before consents
      (lit "predictions") now in
  {| isLoaded := isLoaded st;
     lastConsentCheck := lastConsentCheck st;
     featuresEnabled :=
       {| tradingSignals := LegalService.hasAllConsents tradingConsent;
          profitPredictions := LegalService.hasAllConsents predictionsConsent;
          portfolioAnalysis := LegalService.hasAllConsents tradingConsent |};
     isLoading := isLoading st;
     error := error st |}.

End Hook.
End FinancialFeatures.

(* ================================================================== *)
(** * The news service (src/services/newsService.ts) *)
(* ================================================================== *)

Module NewsService.
Import JsString Js.

(** [ConflictNews]; [lastUpdated] is the time value of the date. *)
Record ConflictNews : Type := {
  articles : list value;
  lastUpdated : Z;
  totalResults : nat
}.

(** [this.cache]: a [Map] from the joined keywords to the digest and the
    time it was stored. *)
Definition state : Type := list (jsstring * (ConflictNews * Z)).

Definition CACHE_DURATION : Z := 5 * 60 * 1000.

(** [keywords.join(',')] *)
Fixpoint join (keywords : list jsstring) : jsstring :=
  match keywords with
  | [] => []
  | [k] => k
  | k :: t => k ++ lit "," ++ join t
  end.

Definition keywords : list jsstring :=
  [ lit "war"; lit "conflict"; lit "violence"; lit "military"; lit "attack";
    lit "bombing"; lit "crisis"; lit "sanctions"; lit "invasion";
    lit "occupation"; lit "refugee"; lit "casualties"; lit "ceasefire";
    lit "peace"; lit "negotiation"; lit "humanitarian"; lit "security";
    lit "terrorism"; lit "insurgency" ].

(** The terms of [calculateRelevanceScore], a second copy of the same
    list. *)
Definition conflictTerms : list jsstring :=
  [ lit "war"; lit "conflict"; lit "violence"; lit "military"; lit "attack";
    lit "bombing"; lit "crisis"; lit "sanctions"; lit "invasion";
    lit "occupation"; lit "refugee"; lit "casualties"; lit "ceasefire";
    lit "peace"; lit "negotiation"; lit "humanitarian"; lit "security";
    lit "terrorism"; lit "insurgency" ].

(** [s.split(/\s+/)]: the pieces between the runs of whitespace; a run at
    either end leaves an empty piece there. *)
Fixpoint split (s : jsstring) : list jsstring :=
  match s with
  | [] => [[]]
  | c :: t =>
      if is_ws c then
        match t with
        | c' :: _ => if is_ws c' then split t else [] :: split t
        | [] => [] :: split t
        end
      else
        match split t with
        | word :: rest => (c :: word) :: rest
        | [] => [[c]]
        end
  end.

Definition countries : list jsstring :=
  [ lit "Ukraine"; lit "Russia"; lit "Israel"; lit "Palestine"; lit "Syria";
    lit "Iraq"; lit "Afghanistan"; lit "Yemen"; lit "Libya"; lit "Sudan";
    lit "Ethiopia"; lit "Myanmar"; lit "China"; lit "Taiwan" ].

Definition regionMap : list (jsstring * jsstring) :=
  [ (lit "Ukraine", lit "Eastern Europe");
    (lit "Russia", lit "Eastern Europe");
    (lit "Israel", lit "Middle East");
    (lit "Palestine", lit "Middle East");
    (lit "Syria", lit "Middle East");
    (lit "Iraq", lit "Middle East");
    (lit "Afghanistan", lit "Central Asia");
    (lit "Yemen", lit "Middle East");
    (lit "Libya", lit "North Africa");
    (lit "Sudan", lit "North Africa");
    (lit "Ethiopia", lit "East Africa");
    (lit "Myanmar", lit "Southeast Asia");
    (lit "China", lit "East Asia");
    (lit "Taiwan", lit "East Asia") ].

(** [regionMap[country] || 'Unknown'], for a [country] that names no
    property inherited from [Object.prototype]. *)
Definition getRegionForCountry (country : jsstring) : jsstring :=
  match JsMap.get regionMap country with
  | Some (c :: region) => c :: region
  | _ => lit "Unknown"
  end.

(** [{ country, region }] *)
Record location : Type := {
  country : jsstring;
  region : jsstring
}.

Section Service.

(** [String.prototype.toLowerCase] *)
Variable toLowerCase : jsstring -> jsstring.

(** [articles.sort((a, b) => b.relevanceScore - a.relevanceScore)] *)
Variable sort_by_relevance : list value -> list value.

(** The [words] and the [matches] of [calculateRelevanceScore]. *)
Definition words (text : jsstring) : list jsstring :=
  split (toLowerCase text).

Definition matches (text : jsstring) : list jsstring :=
  filter (fun word =>
            existsb (fun term => DataValidator.includes word term)
                    conflictTerms)
         (words text).

Definition calculateRelevanceScore (text : jsstring) : float :=
  Math_min (of_nat (List.length (matches text))
            / of_nat (List.length (words text)) * 10)%float 1.

Definition extractConflictKeywords (text : jsstring) : list jsstring :=
  filter (fun keyword => DataValidator.includes (toLowerCase text) keyword)
         keywords.

Definition extractLocation (text : jsstring) : option location :=
  let foundCountry :=
    find (fun country =>
            DataValidator.includes (toLowerCase text) (toLowerCase country))
         countries in
  match foundCountry with
  | Some (c :: name) =>
      Some {| country := c :: name;
              region := getRegionForCountry (c :: name) |}
  | _ => None
  end.

(** [article.title.toLowerCase().trim()]: it throws unless the article is
    an object whose title is a string. *)
Definition key (article : value) : result jsstring :=
  bind (get article "title") (fun title =>
  match title with
  | VStr s => Ok (trim (toLowerCase s))
  | _ => Throw type_error
  end).

(** The [filter] of [removeDuplicates], [seen] being the set built so
    far. *)
Fixpoint removeDuplicates_from (seen : list jsstring) (articles : list value)
  : result (list value) :=
  match articles with
  | [] => Ok []
  | article :: t =>
      bind (key article) (fun k =>
      if existsb (key_eqb k) seen then removeDuplicates_from seen t
      else
        bind (removeDuplicates_from (k :: seen) t) (fun t' =>
        Ok (article :: t')))
  end.

Definition removeDuplicates (articles : list value) : result (list value) :=
  removeDuplicates_from [] articles.

(** What [Promise.allSettled] reports for one source: its articles, or
    [None] when it was rejected. *)
Definition fulfilled (r : option (list value)) : list value :=
  match r with
  | Some articles => articles
  | None => []
  end.

Definition cached (st : state) (cacheKey : jsstring) (now : Z)
  : option ConflictNews :=
  match JsMap.get st cacheKey with
  | Some (data, timestamp) =>
      if now - timestamp <? CACHE_DURATION then Some data else None
  | None => None
  end.

(** The [try] block of [getConflictNews], from the three settled fetches
    on. *)
Definition digest (newsApiResults guardianResults rssResults
                     : option (list value)) (now : Z)
  : result ConflictNews :=
  let allArticles :=
    fulfilled newsApiResults ++ fulfilled guardianResults
    ++ fulfilled rssResults in
  bind (removeDuplicates allArticles) (fun uniqueArticles =>
  let sortedArticles := sort_by_relevance uniqueArticles in
  Ok {| articles := firstn 50 sortedArticles;
        lastUpdated := now;
        totalResults := List.length sortedArticles |}).

Definition getConflictNews (st : state) (keywords : list jsstring)
    (newsApiResults guardianResults rssResults : option (list value))
    (clk : clock) : ConflictNews * state :=
  let cacheKey := join keywords in
  match cached st cacheKey (at_entry clk) with
  | Some data => (data, st)
  | None =>
      match digest newsApiResults guardianResults rssResults (at_result clk)
      with
      | Ok result => (result, JsMap.set st cacheKey (result, at_store clk))
      | Throw _ =>
          ({| articles := []; lastUpdated := at_result clk;
              totalResults := 0 |}, st)
      end
  end.

End Service.
End NewsService.

(* ================================================================== *)
(** * Stock prices and the real-time data manager *)
(* ================================================================== *)

(** src/services/stockService.ts *)
Module StockService.
Import JsString Js.

(** The sources of a price, in the order they are tried. *)
Inductive source : Type :=
| AlphaVantage
| YahooFinance
| Finnhub.

(** One entry of the historical prices.  A date is its time value,
    [None] for an invalid date. *)
Record bar : Type := {
  date : option Z;
  close : float
}.

(** [a < b] and [a >= b] on dates: both are false when either date is
    invalid. *)
Definition before (a b : option Z) : bool :=
  match a, b with
  | Some x, Some y => x <? y
  | _, _ => false
  end.

Definition not_before (a b : option Z) : bool :=
  match a, b with
  | Some x, Some y => x >=? y
  | _, _ => false
  end.

Record conflictImpact : Type := {
  preConflictPrice : float;
  currentPrice : float;
  impactPercent : float;
  volatility : float
}.

Section Service.

(** [StockPrice] *)
Variable StockPrice : Type.

(** [getMockPrice(symbol)], which draws from [Math.random]. *)
Variable getMockPrice : jsstring -> StockPrice.

(** [Math.pow] and [Math.sqrt] *)
Variable Math_pow : float -> float -> float.
Variable Math_sqrt : float -> float.

(** [this.priceCache] *)
Definition state : Type := list (jsstring * (StockPrice * Z)).

Definition CACHE_DURATION : Z := 60 * 1000.

(** What each fetcher resolves to when it is asked: a price, or [null].
    None of them rejects. *)
Definition fetchers : Type := source -> option StockPrice.

(** The body of the [try]: the sources in turn until one has a price,
    with the sources asked. *)
Definition fetch (from : fetchers) : option StockPrice * list source :=
  match from AlphaVantage with
  | Some price => (Some price, [AlphaVantage])
  | None =>
      match from YahooFinance with
      | Some price => (Some price, [AlphaVantage; YahooFinance])
      | None =>
          (from Finnhub, [AlphaVantage; YahooFinance; Finnhub])
      end
  end.

Definition getCurrentPrice (st : state) (symbol : jsstring) (from : fetchers)
    (clk : clock) : StockPrice * state * list source :=
  let miss :=
    match fetch from with
    | (Some price, asked) =>
        (price, JsMap.set st symbol (price, at_store clk), asked)
    | (None, asked) => (getMockPrice symbol, st, asked)
    end in
  match JsMap.get st symbol with
  | Some (data, timestamp) =>
      if at_entry clk - timestamp <? CACHE_DURATION then (data, st, [])
      else miss
  | None => miss
  end.

(** [xs.reduce((sum, r) => sum + f r, 0)] *)
Definition sum (f : float -> float) (xs : list float) : float :=
  fold_left (fun sum r => (sum + f r)%float) xs 0%float.

(** The daily returns: each closing price against the one before it. *)
Fixpoint returns (previous : float) (prices : list bar) : list float :=
  match prices with
  | [] => []
  | price :: t =>
      ((close price - previous) / previous)%float :: returns (close price) t
  end.

Definition calculateConflictImpact (prices : list bar)
    (conflictStartDate : option Z) : option conflictImpact :=
  let preConflictPrices :=
    filter (fun p => before (date p) conflictStartDate) prices in
  let postConflictPrices :=
    filter (fun p => not_before (date p) conflictStartDate) prices in
  match rev preConflictPrices, postConflictPrices with
  | pre :: _, first :: rest =>
      let preConflictPrice := close pre in
      let currentPrice := close (last rest first) in
      let impactPercent :=
        ((currentPrice - preConflictPrice) / preConflictPrice * 100)%float in
      let returns := returns (close first) rest in
      let avgReturn :=
        (sum (fun r => r) returns / Js.of_nat (List.length returns))%float in
      let variance :=
        (sum (fun r => Math_pow (r - avgReturn) 2) returns
         / Js.of_nat (List.length returns))%float in
      let volatility := (Math_sqrt variance * Math_sqrt 252)%float in
      Some {| preConflictPrice := preConflictPrice;
              currentPrice := currentPrice;
              impactPercent := impactPercent;
              volatility := volatility |}
  | _, _ => None
  end.

End Service.
End StockService.

(** src/services/realTimeDataManager.ts *)
Module RealTimeDataManager.
Import JsString Js.

(** What [calculateMarketImpact] reads of a company: its
    [stockData.currentPrice.marketCap], when there is one, and the
    [impactPercent] of its [stockData.conflictImpact], when there is
    one. *)
Record company : Type := {
  marketCap : option float;
  impactPercent : option float
}.

(** [x || 0] for an optional number. *)
Definition or_zero (x : option float) : float :=
  match x with
  | Some v => if is_zero v || is_nan v then 0%float else v
  | None => 0%float
  end.

Definition calculateMarketImpact (companies : list company) : float :=
  let totalMarketCap :=
    fold_left (fun sum c => (sum + or_zero (marketCap c))%float)
              companies 0%float in
  let weightedImpact :=
    fold_left (fun sum c =>
                 let weight := (or_zero (marketCap c) / totalMarketCap)%float in
                 let impact := or_zero (impactPercent c) in
                 (sum + weight * abs impact)%float)
              companies 0%float in
  weightedImpact.

(** A subscriber of [onUpdate]: the callback it registered. *)
Definition callback := nat.


(** The function [onUpdate] returned: [indexOf] finds the first
    registration of the callback, and [splice] removes it. *)
Fixpoint unsubscribe (updateCallbacks : list callback) (c : callback)
  : list callback :=
  match updateCallbacks with
  | [] => []
  | x :: t => if Nat.eqb x c then t else x :: unsubscribe t c
  end.

End RealTimeDataManager.

(* ================================================================== *)
(** * Vocabulary of the specifications *)
(* ================================================================== *)

Module Spec.
Import JsString Js.

(** [out] occurs in [s] as a run of consecutive code units. *)
Definition infix (out s : jsstring) : Prop :=
  exists a b, s = a ++ out ++ b.

(** The text holds no code-fence marker. *)
Definition no_fence (s : jsstring) : Prop := ~ infix fence s.

(** [out] is the slice of [t] from its first opening brace through its
    last closing brace, the former coming before the latter. *)
Definition brace_span (t out : jsstring) : Prop :=
  exists pre mid post,
    t = pre ++ lbrace :: mid ++ rbrace :: post /\
    ~ In lbrace pre /\ ~ In rbrace post /\
    out = lbrace :: mid ++ [rbrace].

Definition no_brace (t : jsstring) : Prop :=
  ~ In lbrace t /\ ~ In rbrace t.

(** A number that is not NaN, so neither [null] nor [undefined]. *)
Definition defined_number (v : value) : Prop :=
  exists x, v = VNum x /\ is_nan x = false.


(** A number within [lo, hi]. *)
Definition within (lo hi : float) (v : value) : bool :=
  match v with
  | VNum x => (lo <=? x)%float && (x <=? hi)%float
  | _ => false
  end.










Definition companies_of (event : value) : list value :=
  match field event "companies" with
  | VArr cs => cs
  | _ => []
  end.

(** ** The schema of section 3, as a check on a dataset *)

Definition is_string (v : value) : bool :=
  match v with VStr _ => true | _ => false end.

Definition is_number (v : value) : bool :=
  match v with VNum x => negb (is_nan x) | _ => false end.

Definition positive (v : value) : bool :=
  match v with VNum x => (0 <? x)%float | _ => false end.

(** The company categories the sources document: the [category] union of
    [CrisisCompany], and the list of the server's prompt. *)
Definition documented_categories : list jsstring :=
  [ lit "Arms Supplier"; lit "Defense Contractor"; lit "Cleanup Contractor";
    lit "Insurance"; lit "Technology"; lit "Energy"; lit "Healthcare";
    lit "Logistics"; lit "Construction"; lit "Financial"; lit "Cleanup" ].

Definition category_in (cats : list jsstring) (v : value) : bool :=
  match v with
  | VStr s => existsb (key_eqb s) cats
  | _ => false
  end.

(** Every recognized field of a company is present with its type, the
    price is positive and the confidence within [0, 1]. *)
Definition company_ok (c : value) : bool :=
  forallb (fun k => is_string (field c k))
    [ "name"; "symbol"; "role"; "category"; "involvement"; "impact" ]%string
  && positive (field c "price")
  && is_number (field c "change")
  && is_number (field c "changePercent")
  && within 0 1 (field c "confidence").

Definition event_ok (e : value) : bool :=
  forallb (fun k => is_string (field e k))
    [ "title"; "date"; "type"; "severity"; "location"; "status";
      "description" ]%string
  && is_number (field e "id")
  && within 0 100 (field e "riskScore")
  && is_number (field e "marketImpact")
  && match field e "companies" with
     | VArr cs => forallb company_ok cs
     | _ => false
     end.

Definition events_of (d : value) : list value :=
  match field d "events" with
  | VArr es => es
  | _ => []
  end.

Definition same_id (a b : value) : bool :=
  match field a "id", field b "id" with
  | VNum x, VNum y => (x =? y)%float
  | _, _ => true
  end.

Fixpoint unique_ids (es : list value) : bool :=
  match es with
  | [] => true
  | e :: t => negb (existsb (same_id e) t) && unique_ids t
  end.

Definition categories_of (d : value) : list value :=
  flat_map (fun e => List.map (fun c => field c "category") (companies_of e))
           (events_of d).

(** A non-empty batch of events with unique ids, each of them well
    formed. *)
Definition dataset_ok (d : value) : bool :=
  match events_of d with
  | [] => false
  | es => forallb event_ok es && unique_ids es
  end.

Definition categories_documented (d : value) : bool :=
  forallb (category_in documented_categories) (categories_of d).

(** The production a fast-service request would join, if there is one. *)
Definition in_flight (st : FastApiService.state)
  : option FastApiService.promise :=
  if FastApiService.isLoading st then FastApiService.loadingPromise st
  else None.

(** The bucket [q] of a confidence score [c]. *)
Definition quality_of (c : float) (q : DataValidator.quality) : Prop :=
  (q = DataValidator.high <-> (80 <=? c)%float = true) /\
  (q = DataValidator.medium <->
     (60 <=? c)%float = true /\ (c <? 80)%float = true) /\
  (q = DataValidator.low <->
     (80 <=? c)%float = false /\ (60 <=? c)%float = false).

Definition scored (v : DataValidator.ValidationResult) : Prop :=
  (DataValidator.isValid v = true <-> DataValidator.errors v = []) /\
  (is_nan (DataValidator.confidence v) = true \/
   within 0 100 (VNum (DataValidator.confidence v)) = true) /\
  quality_of (DataValidator.confidence v) (DataValidator.dataQuality v).

(** ** Vocabulary of the further properties *)

(** [out] is [s] with some of its elements left out, the others in their
    order. *)
Inductive subseq {A : Type} : list A -> list A -> Prop :=
| subseq_nil : subseq [] []
| subseq_drop (c : A) (out s : list A) :
    subseq out s -> subseq out (c :: s)
| subseq_keep (c : A) (out s : list A) :
    subseq out s -> subseq (c :: out) (c :: s).

(** The count [n] as [n || 0] stores it. *)
Definition count (n : nat) : value := or (VNum (of_nat n)) (VNum 0).

(** The registry of the fast API service agrees with the productions
    started and completed so far: the promise in flight, if any, is the
    last one started, and the promises settled are all the earlier ones,
    each of them once. *)
Definition registry_ok (sys : FastApiService.system) : Prop :=
  let st := FastApiService.service sys in
  match FastApiService.loadingPromise st with
  | Some p =>
      FastApiService.isLoading st = true /\
      FastApiService.started sys = S p /\
      List.map fst (FastApiService.settled sys) = rev (seq 0 p)
  | None =>
      FastApiService.isLoading st = false /\
      List.map fst (FastApiService.settled sys)
      = rev (seq 0 (FastApiService.started sys))
  end.

(** The events of the batch the GPT crisis service has cached. *)
Definition cached_events (st : GptCrisisService.state) : list value :=
  match GptCrisisService.cache st with
  | Some c => events_of c
  | None => []
  end.

(** The cached batch apart from its [events]. *)
Definition same_but_events (st st' : GptCrisisService.state) : Prop :=
  match GptCrisisService.cache st, GptCrisisService.cache st' with
  | Some c, Some c' =>
      forall k, key_eqb (lit "events") (lit k) = false ->
                field c' k = field c k
  | None, None => True
  | _, _ => False
  end.

(** The key under which [removeDuplicates] files an article, for an
    article that has one. *)
Definition title_key (toLowerCase : jsstring -> jsstring) (article : value)
  : jsstring :=
  match NewsService.key toLowerCase article with
  | Ok k => k
  | Throw _ => []
  end.

Definition titled (toLowerCase : jsstring -> jsstring) (article : value)
  : Prop :=
  exists k, NewsService.key toLowerCase article = Ok k.

(** Articles that all have a title and no two of which share their
    key. *)
Definition distinct_titles (toLowerCase : jsstring -> jsstring)
    (articles : list value) : Prop :=
  Forall (titled toLowerCase) articles /\
  NoDup (List.map (title_key toLowerCase) articles).

(** A digest of at most fifty articles with distinct titles, whose
    [totalResults] is no less than their number. *)
Definition digest_ok (toLowerCase : jsstring -> jsstring)
    (d : NewsService.ConflictNews) : Prop :=
  (List.length (NewsService.articles d) <= 50)%nat /\
  (List.length (NewsService.articles d) <= NewsService.totalResults d)%nat /\
  distinct_titles toLowerCase (NewsService.articles d).

(** A company for which [marketCap || 0] is 0: no market capitalisation,
    or one that is zero or NaN. *)
Definition no_market_cap (c : RealTimeDataManager.company) : bool :=
  match RealTimeDataManager.marketCap c with
  | Some v => is_zero v || is_nan v
  | None => true
  end.

(** The sources that come before [s] in the order they are tried. *)
Definition tried_before (s : StockService.source) : list StockService.source :=
  match s with
  | StockService.AlphaVantage => []
  | StockService.YahooFinance => [StockService.AlphaVantage]
  | StockService.Finnhub =>
      [StockService.AlphaVantage; StockService.YahooFinance]
  end.

(** An array of at most [n] elements. *)
Definition at_most (n : nat) (v : value) : bool :=
  match v with
  | VArr xs => Nat.leb (List.length xs) n
  | _ => false
  end.

(** What the profit predictor has cached, if anything, is an array of at
    most fifteen opportunities. *)
Definition opportunities_ok (st : ProfitPredictorService.state) : Prop :=
  match ProfitPredictorService.cache st with
  | Some (data, _) => at_most 15 data = true
  | None => True
  end.

(** A trading signal that respects every constraint the validator
    enforces: a known action, a confidence within [0, 100], positive
    prices, the stop loss on the losing side of the target, and data no
    older than four hours. *)
Definition well_formed_signal (s : DataValidator.Signal.t) : Prop :=
  let action := DataValidator.Signal.action s in
  let confidence := DataValidator.Signal.confidence s in
  let targetPrice := DataValidator.Signal.targetPrice s in
  let stopLoss := DataValidator.Signal.stopLoss s in
  In action [ lit "BUY"; lit "SELL"; lit "HOLD"; lit "STRONG_BUY";
              lit "STRONG_SELL" ] /\
  (0 <=? confidence)%float = true /\
  (confidence <=? 100)%float = true /\
  (0 <? targetPrice)%float = true /\
  (0 <? stopLoss)%float = true /\
  (action = lit "BUY" \/ action = lit "STRONG_BUY" ->
   (stopLoss <? targetPrice)%float = true) /\
  (action = lit "SELL" \/ action = lit "STRONG_SELL" ->
   (targetPrice <? stopLoss)%float = true) /\
  (DataValidator.Signal.dataFreshness s <=? 240)%float = true.

(** The numbers of a signal that the validator compares, none of them
    NaN. *)
Definition signal_numbers (s : DataValidator.Signal.t) : bool :=
  negb (is_nan (DataValidator.Signal.confidence s))
  && negb (is_nan (DataValidator.Signal.targetPrice s))
  && negb (is_nan (DataValidator.Signal.stopLoss s))
  && negb (is_nan (DataValidator.Signal.dataFreshness s)).

End Spec.

(* ================================================================== *)
(** * Sample inputs *)
(* ================================================================== *)

Module Samples.
Import JsString Js.

Definition today : jsstring := lit "2026-11-02".

(** A [parseFloat] that reads no string as a number, and a constant draw
    of [Math.random]. *)
Definition no_number (s : jsstring) : float := nan.
Definition drawn (position : nat) : float := 4242.

(** Scenario 1 of the specification, with one company added. *)
Definition sparse_event : list (jsstring * value) :=
  [ prop "title" (VStr (lit "X"));
    prop "companies" (VArr
      [ VObj [ prop "name" (VStr (lit "Acme")); prop "price" (VNum 12.5) ] ]) ].



(** A [JSON.parse] that accepts nothing. *)
Definition reject_all (s : jsstring) : option value := None.

Definition to_zero (v : value) : float := 0.

Definition keep_date (v : value) : value := v.

Definition noon : clock :=
  {| at_entry := 1000; at_result := 2000; at_store := 2001 |}.

(** A signal the model returned without a usable confidence. *)
Definition nan_signal : DataValidator.Signal.t :=
  {| DataValidator.Signal.action := lit "HOLD";
     DataValidator.Signal.confidence := nan;
     DataValidator.Signal.targetPrice := 150;
     DataValidator.Signal.stopLoss := 130;
     DataValidator.Signal.expectedReturn := 12.5;
     DataValidator.Signal.riskLevel := lit "low";
     DataValidator.Signal.crisisTrigger := lit "Shipping lanes closed";
     DataValidator.Signal.dataFreshness := 0 |}.

Definition plain_signal : DataValidator.Signal.t :=
  {| DataValidator.Signal.action := lit "HOLD";
     DataValidator.Signal.confidence := 85;
     DataValidator.Signal.targetPrice := 150;
     DataValidator.Signal.stopLoss := 130;
     DataValidator.Signal.expectedReturn := 12.5;
     DataValidator.Signal.riskLevel := lit "low";
     DataValidator.Signal.crisisTrigger := lit "Shipping lanes closed";
     DataValidator.Signal.dataFreshness := 0 |}.

(** A [JSON.parse] that reads every text as the sparse event. *)
Definition accept_sparse (s : jsstring) : option value :=
  Some (VObj sparse_event).

(** The GPT crisis service with its fallback batch cached. *)
Definition warm : GptCrisisService.state :=
  {| GptCrisisService.cache := Some (GptCoercer.getFallbackData 0);
     GptCrisisService.lastFetch := Some 0 |}.

(** Thirty days of 24 hours. *)
Definition a_month_before (now : Z) : Z := now - 30 * 86400000.

(** Lower case for the letters A to Z, other code units unchanged. *)
Definition ascii_lower (s : jsstring) : jsstring :=
  List.map (fun c => if ((65 <=? c) && (c <=? 90))%N then (c + 32)%N else c) s.

(** Three articles, two of which differ in case and spacing only. *)
Definition headlines : list value :=
  [ VObj [ prop "title" (VStr (lit "Ceasefire talks resume"));
           prop "relevanceScore" (VNum 0.3) ];
    VObj [ prop "title" (VStr (lit "Oil prices climb"));
           prop "relevanceScore" (VNum 0) ];
    VObj [ prop "title" (VStr (lit " CEASEFIRE talks resume "));
           prop "relevanceScore" (VNum 0.6) ] ].

(** [Math.pow(x, 2)] as a product. *)
Definition square (x y : float) : float := (x * x)%float.

(** A closing price the day before the conflict starts and one the day
    after. *)
Definition two_bars : list StockService.bar :=
  [ {| StockService.date := Some 1000; StockService.close := 100 |};
    {| StockService.date := Some 2000; StockService.close := 110 |} ].


End Samples.

(* ================================================================== *)
(** * Facts about strings *)
(* ================================================================== *)

Section StringFacts.
Import JsString Spec.

Lemma infix_refl (s : jsstring) : infix s s.
Proof. exists [], []. now rewrite app_nil_r. Qed.

Lemma infix_trans (a b c : jsstring) : infix a b -> infix b c -> infix a c.
Proof.
  intros [x [y ->]] [u [v ->]].
  exists (u ++ x), (y ++ v). now rewrite !app_assoc.
Qed.

Lemma infix_cons (a s : jsstring) (c : N) : infix a s -> infix a (c :: s).
Proof. intros [x [y ->]]. now exists (c :: x), y. Qed.

Lemma infix_skipn (n : nat) (s : jsstring) : infix (skipn n s) s.
Proof.
  exists (firstn n s), []. now rewrite app_nil_r, firstn_skipn.
Qed.

Lemma infix_firstn (n : nat) (s : jsstring) : infix (firstn n s) s.
Proof. exists [], (skipn n s). simpl. now rewrite firstn_skipn. Qed.

Lemma infix_In (a s : jsstring) (c : N) : infix a s -> In c a -> In c s.
Proof.
  intros [x [y ->]] H. apply in_or_app. right. apply in_or_app. now left.
Qed.

Lemma infix_substring (s : jsstring) (a b : Z) : infix (substring s a b) s.
Proof.
  unfold substring.
  eapply infix_trans; [apply infix_firstn | apply infix_skipn].
Qed.

(** ** Trimming *)

Lemma trimStart_split (s : jsstring) :
  exists w, s = w ++ trimStart s /\ Forall (fun c => is_ws c = true) w /\
            match trimStart s with
            | [] => True
            | c :: _ => is_ws c = false
            end.
Proof.
  induction s as [|c t IH]; simpl.
  - exists []. repeat split; auto.
  - destruct (is_ws c) eqn:E.
    + destruct IH as [w [H1 [H2 H3]]].
      exists (c :: w). simpl. repeat split; auto.
      now f_equal.
    + exists []. simpl. rewrite E. repeat split; auto.
Qed.

Lemma trimStart_keep (c : N) (t : jsstring) :
  is_ws c = false -> trimStart (c :: t) = c :: t.
Proof. intros H. simpl. now rewrite H. Qed.

Lemma trimEnd_keep (s : jsstring) (c : N) :
  is_ws c = false -> trimEnd (s ++ [c]) = s ++ [c].
Proof.
  intros H. unfold trimEnd. rewrite rev_app_distr. simpl.
  rewrite H. simpl. now rewrite rev_involutive.
Qed.

Lemma trimEnd_split (s : jsstring) :
  exists w, s = trimEnd s ++ w /\ Forall (fun c => is_ws c = true) w /\
            (trimEnd s = [] \/
             exists m c, trimEnd s = m ++ [c] /\ is_ws c = false).
Proof.
  unfold trimEnd.
  destruct (trimStart_split (rev s)) as [w [H1 [H2 H3]]].
  exists (rev w). split; [|split].
  - rewrite <- rev_app_distr, <- H1. now rewrite rev_involutive.
  - apply Forall_rev. exact H2.
  - destruct (trimStart (rev s)) as [|c m]; [now left|].
    right. exists (rev m), c. simpl. now split.
Qed.

Lemma trim_infix (s : jsstring) : infix (trim s) s.
Proof.
  unfold trim.
  destruct (trimStart_split s) as [w [H1 _]].
  destruct (trimEnd_split (trimStart s)) as [w' [H2 _]].
  exists w, w'. rewrite <- H2. exact H1.
Qed.

(** Text that begins and ends with something else than whitespace is left
    alone. *)
Lemma trim_fixed (a b : N) (m : jsstring) :
  is_ws a = false -> is_ws b = false ->
  trim (a :: m ++ [b]) = a :: m ++ [b].
Proof.
  intros Ha Hb. unfold trim. rewrite trimStart_keep by exact Ha.
  change (a :: m ++ [b]) with ((a :: m) ++ [b]).
  now apply trimEnd_keep.
Qed.

Lemma trimEnd_idem (s : jsstring) : trimEnd (trimEnd s) = trimEnd s.
Proof.
  destruct (trimEnd_split s) as [w [_ [_ [E | [m [c [E Hc]]]]]]].
  - rewrite E. reflexivity.
  - rewrite E. now apply trimEnd_keep.
Qed.

Lemma trimStart_idem (s : jsstring) : trimStart (trimStart s) = trimStart s.
Proof.
  destruct (trimStart_split s) as [w [_ [_ H]]].
  destruct (trimStart s) as [|c t]; [reflexivity|].
  now apply trimStart_keep.
Qed.

(** Dropping trailing whitespace keeps a first code unit that is not
    whitespace. *)
Lemma trimEnd_head (c : N) (t : jsstring) :
  is_ws c = false -> exists t', trimEnd (c :: t) = c :: t' /\ infix t' t.
Proof.
  intros Hc.
  destruct (trimEnd_split (c :: t)) as [w [H1 [H2 H3]]].
  destruct (trimEnd (c :: t)) as [|x t'] eqn:E.
  - simpl in H1. subst w. inversion H2; subst. congruence.
  - simpl in H1. injection H1 as -> ->.
    exists t'. split; [reflexivity|]. exists [], w. reflexivity.
Qed.

Lemma trim_idem (s : jsstring) : trim (trim s) = trim s.
Proof.
  unfold trim.
  destruct (trimStart_split s) as [w [_ [_ H]]].
  destruct (trimStart s) as [|c t] eqn:E.
  - reflexivity.
  - destruct (trimEnd_head c t H) as [t' [E' _]].
    rewrite E'. rewrite trimStart_keep by exact H.
    rewrite <- E'. apply trimEnd_idem.
Qed.

(** ** Searching *)

Lemma indexOf_range (s : jsstring) (c : N) :
  indexOf s c = -1 \/ 0 <= indexOf s c < JsString.length s.
Proof.
  unfold JsString.length.
  induction s as [|x t IH]; simpl; [now left|].
  destruct (N.eqb x c); [right; lia|].
  destruct (indexOf t c =? -1) eqn:E; [now left|].
  apply Z.eqb_neq in E. right. lia.
Qed.

Lemma indexOf_absent (s : jsstring) (c : N) :
  indexOf s c = -1 <-> ~ In c s.
Proof.
  induction s as [|x t IH]; simpl.
  - tauto.
  - destruct (N.eqb x c) eqn:E.
    + apply N.eqb_eq in E. split; [discriminate | intros H; exfalso; auto].
    + apply N.eqb_neq in E.
      destruct (indexOf_range t c) as [R | R].
      * rewrite R. simpl. split; [|reflexivity].
        intros _ [H | H]; [auto | now apply IH in H].
      * destruct (indexOf t c =? -1) eqn:E'; [apply Z.eqb_eq in E'; lia|].
        split; [lia|]. intros H. exfalso.
        assert (indexOf t c = -1) by (apply IH; tauto). lia.
Qed.

Lemma indexOf_first (pre post : jsstring) (c : N) :
  ~ In c pre -> indexOf (pre ++ c :: post) c = Z.of_nat (List.length pre).
Proof.
  induction pre as [|x t IH]; simpl; intros H.
  - now rewrite N.eqb_refl.
  - destruct (N.eqb x c) eqn:E; [apply N.eqb_eq in E; tauto|].
    rewrite IH by tauto.
    destruct (Z.of_nat (List.length t) =? -1) eqn:E'; [apply Z.eqb_eq in E'|]; lia.
Qed.

Lemma indexOf_split (s : jsstring) (c : N) :
  In c s ->
  exists pre post, s = pre ++ c :: post /\ ~ In c pre.
Proof.
  induction s as [|x t IH]; simpl; [tauto|].
  intros H. destruct (N.eq_dec x c) as [-> | Hne].
  - exists [], t. split; [reflexivity | tauto].
  - destruct H as [H | H]; [tauto|].
    destruct (IH H) as [pre [post [-> Hp]]].
    exists (x :: pre), post. split; [reflexivity|].
    simpl. tauto.
Qed.

Lemma lastIndexOf_absent (s : jsstring) (c : N) :
  lastIndexOf s c = -1 <-> ~ In c s.
Proof.
  induction s as [|x t IH]; simpl.
  - tauto.
  - destruct (lastIndexOf t c =? -1) eqn:E.
    + apply Z.eqb_eq in E. apply IH in E.
      destruct (N.eqb x c) eqn:E'.
      * apply N.eqb_eq in E'. split; [discriminate | intros H; exfalso; auto].
      * apply N.eqb_neq in E'. split; [|reflexivity]. intros _ [H | H]; auto.
    + apply Z.eqb_neq in E.
      assert (R : 0 <= lastIndexOf t c).
      { clear -E. induction t as [|y u IHu]; simpl in *; [lia|].
        destruct (lastIndexOf u c =? -1) eqn:F.
        - destruct (N.eqb y c); lia.
        - apply Z.eqb_neq in F. specialize (IHu F). lia. }
      split; [lia|]. intros H. exfalso. apply E, IH. tauto.
Qed.

Lemma lastIndexOf_last (pre post : jsstring) (c : N) :
  ~ In c post ->
  lastIndexOf (pre ++ c :: post) c = Z.of_nat (List.length pre).
Proof.
  intros H. induction pre as [|x t IH]; simpl.
  - apply lastIndexOf_absent in H. rewrite H. simpl.
    now rewrite N.eqb_refl.
  - rewrite IH.
    destruct (Z.of_nat (List.length t) =? -1) eqn:E'; [apply Z.eqb_eq in E'|]; lia.
Qed.

Lemma lastIndexOf_split (s : jsstring) (c : N) :
  In c s ->
  exists pre post, s = pre ++ c :: post /\ ~ In c post.
Proof.
  induction s as [|x t IH]; simpl; [tauto|].
  intros H. destruct (in_dec N.eq_dec c t) as [Hin | Hnin].
  - destruct (IH Hin) as [pre [post [-> Hp]]].
    now exists (x :: pre), post.
  - destruct H as [-> | H]; [|tauto].
    now exists [], t.
Qed.

Lemma strip_prefix_Some (p s r : jsstring) :
  strip_prefix p s = Some r <-> s = p ++ r.
Proof.
  revert s. induction p as [|a p IH]; intros s; simpl.
  - split; congruence.
  - destruct s as [|b s]; [split; discriminate|].
    destruct (N.eqb_spec a b) as [-> | Hne].
    + rewrite IH. split; congruence.
    + split; [discriminate | congruence].
Qed.

(** ** Slicing *)

Lemma substring_middle (pre mid post : jsstring) :
  substring (pre ++ mid ++ post)
    (Z.of_nat (List.length pre))
    (Z.of_nat (List.length pre) + Z.of_nat (List.length mid)) = mid.
Proof.
  unfold substring, JsString.length. rewrite !length_app.
  rewrite !Nat2Z.inj_add.
  set (p := Z.of_nat (List.length pre)).
  set (m := Z.of_nat (List.length mid)).
  set (q := Z.of_nat (List.length post)).
  assert (0 <= p) by (subst p; lia).
  assert (0 <= m) by (subst m; lia).
  assert (0 <= q) by (subst q; lia).
  replace (Z.max 0 (Z.min p (p + (m + q)))) with p by lia.
  replace (Z.max 0 (Z.min (p + m) (p + (m + q)))) with (p + m) by lia.
  replace (Z.min p (p + m)) with p by lia.
  replace (Z.max p (p + m) - p) with m by lia.
  subst p m. rewrite !Nat2Z.id.
  rewrite skipn_app, skipn_all, Nat.sub_diag. simpl.
  rewrite firstn_app, firstn_all, Nat.sub_diag. simpl.
  now rewrite app_nil_r.
Qed.

End StringFacts.

(* ================================================================== *)
(** * The sanitizer *)
(* ================================================================== *)

Section FenceRemoval.
Import JsString Spec.

(** What follows a fence is consumed by something that only drops code
    units from the front. *)
Variable tail : jsstring -> jsstring.
Hypothesis tail_short :
  forall s, (List.length (tail s) <= List.length s)%nat.

Lemma strip_fence_Some (s r : jsstring) :
  strip_prefix fence s = Some r <-> s = 96%N :: 96%N :: 96%N :: r.
Proof.
  change (96%N :: 96%N :: 96%N :: r) with (fence ++ r).
  apply strip_prefix_Some.
Qed.

Lemma fence_prefix_found (l : jsstring) :
  strip_prefix fence (96%N :: 96%N :: 96%N :: l) = Some l.
Proof. now apply strip_fence_Some. Qed.

Lemma replace_scan_S (pat : jsstring) (k : nat) (s : jsstring) :
  replace_scan (S k) pat tail s =
  match strip_prefix pat s with
  | Some rest => replace_scan k pat tail (tail rest)
  | None =>
      match s with
      | [] => []
      | c :: t => c :: replace_scan k pat tail t
      end
  end.
Proof. reflexivity. Qed.

(** A scan result that begins with a backtick copied it from the input. *)
Lemma scan_head (k : nat) (t l : jsstring) :
  replace_scan k fence tail t = 96%N :: l ->
  (exists r, strip_prefix fence t = Some r) \/
  (exists t1 k1, t = 96%N :: t1 /\ k = S k1 /\
                 strip_prefix fence t = None /\
                 l = replace_scan k1 fence tail t1).
Proof.
  destruct k as [|k]; [discriminate|]. rewrite replace_scan_S.
  destruct (strip_prefix fence t) as [r|] eqn:E.
  - intros _. left. now exists r.
  - destruct t as [|c t1]; [discriminate|].
    intros H. injection H as -> <-. right. now exists t1, k.
Qed.

Lemma scan_no_fence_prefix (k : nat) (s l : jsstring) :
  strip_prefix fence s = None ->
  replace_scan (S k) fence tail s <> 96%N :: 96%N :: 96%N :: l.
Proof.
  intros E H. rewrite replace_scan_S, E in H.
  destruct s as [|c t]; [discriminate|].
  injection H as -> H.
  apply scan_head in H.
  destruct H as [[r Hr] | [t1 [k1 [-> [-> [E1 H]]]]]].
  - apply strip_fence_Some in Hr. subst t.
    now rewrite fence_prefix_found in E.
  - symmetry in H. apply scan_head in H.
    destruct H as [[r Hr] | [t2 [k2 [-> [-> [E2 H]]]]]].
    + apply strip_fence_Some in Hr. subst t1.
      now rewrite fence_prefix_found in E1.
    + now rewrite fence_prefix_found in E.
Qed.

Lemma infix_cons_inv (a s : jsstring) (c : N) :
  infix a (c :: s) -> infix a s \/ exists b, c :: s = a ++ b.
Proof.
  intros [x [y H]]. destruct x as [|x0 x].
  - right. now exists y.
  - left. simpl in H. injection H as _ ->. now exists x, y.
Qed.

Lemma scan_no_fence (k : nat) (s : jsstring) :
  (List.length s < k)%nat -> no_fence (replace_scan k fence tail s).
Proof.
  revert s. induction k as [|k IH]; intros s Hk; [lia|].
  destruct (strip_prefix fence s) as [r|] eqn:E.
  - rewrite replace_scan_S, E. apply IH.
    apply strip_fence_Some in E. subst s. simpl in Hk.
    pose proof (tail_short r). lia.
  - intros Hin.
    assert (Hs : replace_scan (S k) fence tail s =
                 match s with
                 | [] => []
                 | c :: t => c :: replace_scan k fence tail t
                 end) by (now rewrite replace_scan_S, E).
    destruct s as [|c t].
    + rewrite Hs in Hin. destruct Hin as [a [b H]].
      destruct a; discriminate.
    + rewrite Hs in Hin. apply infix_cons_inv in Hin.
      destruct Hin as [Hin | [b Hb]].
      * revert Hin. apply IH. simpl in Hk. lia.
      * rewrite <- Hs in Hb.
        now apply (scan_no_fence_prefix k (c :: t) b E).
Qed.

(** After [replace(/```<tail>/g, '')] no fence is left. *)
Lemma replace_all_no_fence (s : jsstring) :
  no_fence (replace_all fence tail s).
Proof. apply scan_no_fence. lia. Qed.

(** A scan for a pattern that begins with a fence copies a text without
    fence unchanged. *)
Lemma scan_fixed (pat : jsstring) (k : nat) (s : jsstring) :
  (forall t r, strip_prefix pat t = Some r -> exists b, t = fence ++ b) ->
  (List.length s < k)%nat -> no_fence s ->
  replace_scan k pat tail s = s.
Proof.
  intros Hpat. revert s. induction k as [|k IH]; intros s Hk Hs; [lia|].
  rewrite replace_scan_S. destruct (strip_prefix pat s) as [r|] eqn:E.
  - exfalso. apply Hs. destruct (Hpat _ _ E) as [b ->]. now exists [], b.
  - destruct s as [|c t]; [reflexivity|].
    f_equal. apply IH; [simpl in Hk; lia|].
    intros H. apply Hs. now apply infix_cons.
Qed.

(** More fuel than code units changes nothing: the scan never runs out. *)
Lemma replace_scan_fuel (pat : jsstring) (k k' : nat) (s : jsstring) :
  pat <> [] -> (List.length s < k)%nat -> (List.length s < k')%nat ->
  replace_scan k pat tail s = replace_scan k' pat tail s.
Proof.
  intros Hpat. revert k' s. induction k as [|k IH]; intros k' s Hk Hk'; [lia|].
  destruct k' as [|k']; [lia|].
  rewrite !replace_scan_S.
  destruct (strip_prefix pat s) as [r|] eqn:E.
  - apply strip_prefix_Some in E. subst s.
    rewrite length_app in Hk, Hk'.
    assert (0 < List.length pat)%nat by (destruct pat; [congruence | simpl; lia]).
    pose proof (tail_short r). apply IH; lia.
  - destruct s as [|c t]; [reflexivity|].
    simpl in Hk, Hk'. f_equal. apply IH; lia.
Qed.

(** The scan, step by step. *)
Lemma replace_all_unfold (pat s : jsstring) :
  pat <> [] ->
  replace_all pat tail s =
  match strip_prefix pat s with
  | Some rest => replace_all pat tail (tail rest)
  | None =>
      match s with
      | [] => []
      | c :: t => c :: replace_all pat tail t
      end
  end.
Proof.
  intros Hpat. unfold replace_all. rewrite replace_scan_S.
  destruct (strip_prefix pat s) as [r|] eqn:E.
  - apply strip_prefix_Some in E. subst s.
    assert (0 < List.length pat)%nat by (destruct pat; [congruence | simpl; lia]).
    pose proof (tail_short r).
    apply replace_scan_fuel; [exact Hpat | rewrite length_app; lia | lia].
  - destruct s as [|c t]; [reflexivity|]. reflexivity.
Qed.
End FenceRemoval.

Section Sanitizer.
Import JsString Spec.

Lemma skip_ws_short (s : jsstring) :
  (List.length (skip_ws s) <= List.length s)%nat.
Proof.
  induction s as [|c t IH]; simpl; [lia|].
  destruct (is_ws c); simpl; lia.
Qed.

Lemma skip_nl_short (s : jsstring) :
  (List.length (skip_nl s) <= List.length s)%nat.
Proof.
  destruct s as [|c t]; simpl; [lia|].
  destruct c as [|p]; simpl; try lia.
  do 4 (destruct p; simpl; try lia).
Qed.

Lemma fence_starts_fence (t r : jsstring) :
  strip_prefix fence t = Some r -> exists b, t = fence ++ b.
Proof. intros H. apply strip_fence_Some in H. subst t. now exists r. Qed.

Lemma fence_json_starts_fence (t r : jsstring) :
  strip_prefix fence_json t = Some r -> exists b, t = fence ++ b.
Proof.
  intros H. apply strip_prefix_Some in H. subst t.
  now exists (lit "json" ++ r).
Qed.

Lemma server_strip_no_fence (s : jsstring) :
  no_fence (ServerSanitizer.strip_fences s).
Proof. apply replace_all_no_fence, skip_ws_short. Qed.

Lemma gpt_strip_no_fence (s : jsstring) :
  no_fence (GptSanitizer.strip_fences s).
Proof. apply replace_all_no_fence, skip_nl_short. Qed.

Lemma server_strip_fixed (s : jsstring) :
  no_fence s -> ServerSanitizer.strip_fences s = s.
Proof.
  intros H. unfold ServerSanitizer.strip_fences, replace_all.
  rewrite (scan_fixed skip_ws fence_json) by
    first [exact fence_json_starts_fence | lia | assumption].
  apply scan_fixed; first [exact fence_starts_fence | lia | assumption].
Qed.

Lemma gpt_strip_fixed (s : jsstring) :
  no_fence s -> GptSanitizer.strip_fences s = s.
Proof.
  intros H. unfold GptSanitizer.strip_fences, replace_all.
  rewrite (scan_fixed skip_nl fence_json) by
    first [exact fence_json_starts_fence | lia | assumption].
  apply scan_fixed; first [exact fence_starts_fence | lia | assumption].
Qed.

Lemma no_fence_infix (a s : jsstring) : infix a s -> no_fence s -> no_fence a.
Proof. intros H Hs Ha. apply Hs. now apply infix_trans with a. Qed.

Lemma brace_ws : is_ws lbrace = false /\ is_ws rbrace = false.
Proof. split; reflexivity. Qed.

Lemma braces_differ : lbrace <> rbrace.
Proof. discriminate. Qed.

(** The server slices exactly when the first opening brace comes before the
    last closing one. *)
Lemma server_slice (t out : jsstring) :
  brace_span t out ->
  (let jsonStart := indexOf t lbrace in
   let jsonEnd := lastIndexOf t rbrace + 1 in
   if negb (jsonStart =? -1) && (jsonEnd >? jsonStart)
   then substring t jsonStart jsonEnd else t) = out.
Proof.
  intros [pre [mid [post [-> [Hpre [Hpost ->]]]]]]. cbv zeta.
  rewrite indexOf_first by exact Hpre.
  replace (pre ++ lbrace :: mid ++ rbrace :: post)
    with ((pre ++ lbrace :: mid) ++ rbrace :: post)
    by (now rewrite <- app_assoc).
  rewrite lastIndexOf_last by exact Hpost.
  rewrite length_app. simpl List.length.
  destruct (Z.of_nat (List.length pre) =? -1) eqn:E1;
    [apply Z.eqb_eq in E1; lia|].
  destruct (Z.of_nat (List.length pre + S (List.length mid)) + 1
            >? Z.of_nat (List.length pre)) eqn:E2;
    [|rewrite Z.gtb_ltb in E2; apply Z.ltb_ge in E2; lia].
  simpl.
  replace ((pre ++ lbrace :: mid) ++ rbrace :: post)
    with (pre ++ (lbrace :: mid ++ [rbrace]) ++ post)
    by (simpl; rewrite <- !app_assoc; reflexivity).
  replace (Z.of_nat (List.length pre + S (List.length mid)) + 1)
    with (Z.of_nat (List.length pre)
          + Z.of_nat (List.length (lbrace :: mid ++ [rbrace])))
    by (simpl List.length; rewrite length_app; simpl; lia).
  apply substring_middle.
Qed.

Lemma server_clean_span (s out : jsstring) :
  brace_span (ServerSanitizer.strip_fences (trim s)) out ->
  ServerSanitizer.cleanJsonResponse s = out.
Proof. intros H. unfold ServerSanitizer.cleanJsonResponse. now apply server_slice. Qed.

Lemma server_clean_plain (s : jsstring) :
  no_brace (ServerSanitizer.strip_fences (trim s)) ->
  ServerSanitizer.cleanJsonResponse s = ServerSanitizer.strip_fences (trim s).
Proof.
  intros [H _]. unfold ServerSanitizer.cleanJsonResponse. cbv zeta.
  apply indexOf_absent in H. now rewrite H.
Qed.

Lemma server_clean_infix (s : jsstring) :
  infix (ServerSanitizer.cleanJsonResponse s)
        (ServerSanitizer.strip_fences (trim s)).
Proof.
  unfold ServerSanitizer.cleanJsonResponse. cbv zeta.
  destruct (_ && _); [apply infix_substring | apply infix_refl].
Qed.

(** The two cuts of the client sanitizer. *)
Lemma drop_before_brace_found (pre post : jsstring) :
  ~ In lbrace pre ->
  GptSanitizer.drop_before_brace (pre ++ lbrace :: post) = lbrace :: post.
Proof.
  intros Hpre. unfold GptSanitizer.drop_before_brace. cbv zeta.
  rewrite indexOf_first by exact Hpre.
  destruct pre as [|p0 pre]; [reflexivity|].
  replace (Z.of_nat (List.length (p0 :: pre)) >? 0) with true
    by (symmetry; rewrite Z.gtb_ltb; apply Z.ltb_lt; simpl List.length; lia).
  unfold substring_from.
  replace ((p0 :: pre) ++ lbrace :: post)
    with ((p0 :: pre) ++ (lbrace :: post) ++ [])
    by (now rewrite app_nil_r).
  replace (JsString.length ((p0 :: pre) ++ (lbrace :: post) ++ []))
    with (Z.of_nat (List.length (p0 :: pre))
          + Z.of_nat (List.length (lbrace :: post)))
    by (unfold JsString.length; rewrite !length_app; simpl List.length; lia).
  apply substring_middle.
Qed.

Lemma drop_before_brace_absent (t : jsstring) :
  ~ In lbrace t -> GptSanitizer.drop_before_brace t = t.
Proof.
  intros H. unfold GptSanitizer.drop_before_brace. cbv zeta.
  apply indexOf_absent in H. now rewrite H.
Qed.

Lemma drop_after_brace_found (pre post : jsstring) :
  pre <> [] -> ~ In rbrace post ->
  GptSanitizer.drop_after_brace (pre ++ rbrace :: post) = pre ++ [rbrace].
Proof.
  intros Hne Hpost. unfold GptSanitizer.drop_after_brace. cbv zeta.
  rewrite lastIndexOf_last by exact Hpost.
  replace (Z.of_nat (List.length pre) >? 0) with true
    by (symmetry; rewrite Z.gtb_ltb; apply Z.ltb_lt;
        destruct pre; [congruence | simpl List.length; lia]).
  cbn [andb].
  destruct post as [|q0 post].
  - replace (Z.of_nat (List.length pre)
             <? JsString.length (pre ++ [rbrace]) - 1) with false
      by (symmetry; apply Z.ltb_ge; unfold JsString.length;
          rewrite length_app; simpl List.length; lia).
    reflexivity.
  - replace (Z.of_nat (List.length pre)
             <? JsString.length (pre ++ rbrace :: q0 :: post) - 1) with true
      by (symmetry; apply Z.ltb_lt; unfold JsString.length;
          rewrite length_app; simpl List.length; lia).
    replace (pre ++ rbrace :: q0 :: post)
      with ([] ++ (pre ++ [rbrace]) ++ q0 :: post)
      by (simpl; rewrite <- app_assoc; reflexivity).
    replace (Z.of_nat (List.length pre) + 1)
      with (Z.of_nat (List.length (@nil N))
            + Z.of_nat (List.length (pre ++ [rbrace])))
      by (rewrite length_app; simpl List.length; lia).
    apply (substring_middle [] (pre ++ [rbrace]) (q0 :: post)).
Qed.

Lemma drop_after_brace_first (post : jsstring) :
  ~ In rbrace post ->
  GptSanitizer.drop_after_brace (rbrace :: post) = rbrace :: post.
Proof.
  intros Hpost. unfold GptSanitizer.drop_after_brace. cbv zeta.
  pose proof (lastIndexOf_last [] post rbrace Hpost) as E.
  simpl app in E. simpl List.length in E. now rewrite E.
Qed.

Lemma drop_after_brace_absent (t : jsstring) :
  ~ In rbrace t -> GptSanitizer.drop_after_brace t = t.
Proof.
  intros H. unfold GptSanitizer.drop_after_brace. cbv zeta.
  apply lastIndexOf_absent in H. now rewrite H.
Qed.

Lemma drop_before_brace_infix (t : jsstring) :
  infix (GptSanitizer.drop_before_brace t) t.
Proof.
  unfold GptSanitizer.drop_before_brace. cbv zeta.
  destruct (_ >? 0); [apply infix_substring | apply infix_refl].
Qed.

Lemma drop_after_brace_infix (t : jsstring) :
  infix (GptSanitizer.drop_after_brace t) t.
Proof.
  unfold GptSanitizer.drop_after_brace. cbv zeta.
  destruct (_ && _); [apply infix_substring | apply infix_refl].
Qed.

Lemma gpt_clean_span (s out : jsstring) :
  brace_span (GptSanitizer.strip_fences s) out ->
  GptSanitizer.cleanJsonResponse s = out.
Proof.
  intros [pre [mid [post [E [Hpre [Hpost ->]]]]]].
  unfold GptSanitizer.cleanJsonResponse. cbv zeta. rewrite E.
  rewrite drop_before_brace_found by exact Hpre.
  change (lbrace :: mid ++ rbrace :: post)
    with ((lbrace :: mid) ++ rbrace :: post).
  rewrite drop_after_brace_found by (exact Hpost || discriminate).
  apply trim_fixed; apply brace_ws.
Qed.

Lemma gpt_clean_plain (s : jsstring) :
  no_brace (GptSanitizer.strip_fences s) ->
  GptSanitizer.cleanJsonResponse s = trim (GptSanitizer.strip_fences s).
Proof.
  intros [H1 H2]. unfold GptSanitizer.cleanJsonResponse. cbv zeta.
  rewrite drop_before_brace_absent by exact H1.
  now rewrite drop_after_brace_absent by exact H2.
Qed.

Lemma gpt_clean_infix (s : jsstring) :
  infix (GptSanitizer.cleanJsonResponse s) (GptSanitizer.strip_fences s).
Proof.
  unfold GptSanitizer.cleanJsonResponse. cbv zeta.
  eapply infix_trans; [apply trim_infix|].
  eapply infix_trans; [apply drop_after_brace_infix|].
  apply drop_before_brace_infix.
Qed.

End Sanitizer.

Section SanitizerClaims.
Import JsString Spec.

(** Scenario 1 of the specification: a fenced JSON object, on both
    implementations. *)
Example clean_fenced_object :
  let raw := lit "```json" ++ [10%N] ++ quoted "{'events':[{'title':'X'}]}"
             ++ [10%N] ++ lit "```" in
  ServerSanitizer.cleanJsonResponse raw = quoted "{'events':[{'title':'X'}]}" /\
  GptSanitizer.cleanJsonResponse raw = quoted "{'events':[{'title':'X'}]}".
Proof. split; vm_compute; reflexivity. Qed.

(** Boundary extraction: prose around the fenced block does not matter. *)
Example clean_prose_around :
  let raw := lit "Sure, here it is: ```json" ++ [10%N] ++ quoted "{'a':[1,{}]}"
             ++ [10%N] ++ lit "``` Hope this helps." in
  ServerSanitizer.cleanJsonResponse raw = quoted "{'a':[1,{}]}" /\
  GptSanitizer.cleanJsonResponse raw = quoted "{'a':[1,{}]}".
Proof. split; vm_compute; reflexivity. Qed.

(** Where the two implementations part: a closing brace alone cuts the
    text in the client only, and the server keeps the blank a fence leaves
    behind. *)
Example clean_divergence :
  ServerSanitizer.cleanJsonResponse (lit "a}b") = lit "a}b" /\
  GptSanitizer.cleanJsonResponse (lit "a}b") = lit "a}" /\
  ServerSanitizer.cleanJsonResponse (lit "} {") = lit "} {" /\
  GptSanitizer.cleanJsonResponse (lit "} {") = lit "{" /\
  ServerSanitizer.cleanJsonResponse (lit "hello ```") = lit "hello " /\
  GptSanitizer.cleanJsonResponse (lit "hello ```") = lit "hello".
Proof. repeat split; vm_compute; reflexivity. Qed.

(** Scenario 5 of the specification: this text is not JSON, before and
    after sanitization. *)
Example malformed_stays_malformed :
  Json.valid (quoted "{'events': [}") = false /\
  ServerSanitizer.cleanJsonResponse (quoted "{'events': [}")
  = quoted "{'events': [}" /\
  GptSanitizer.cleanJsonResponse (quoted "{'events': [}")
  = quoted "{'events': [}".
Proof. repeat split; vm_compute; reflexivity. Qed.

(** C3, the claim as stated fails: a text that is a fence and nothing else
    is not empty once trimmed and holds no brace, yet both sanitizers
    return the empty string. *)
Lemma clean_can_return_empty :
  trim (lit "```") <> [] /\ no_brace (lit "```") /\
  ServerSanitizer.cleanJsonResponse (lit "```") = [] /\
  GptSanitizer.cleanJsonResponse (lit "```") = [].
Proof.
  split; [vm_compute; discriminate|].
  split; [|split; vm_compute; reflexivity].
  split; vm_compute; intuition discriminate.
Qed.

(** C3, amended: both sanitizers leave no code-fence marker in their
    result; when the fence-free text has a first opening brace before its
    last closing brace, both return exactly the slice from the former
    through the latter; when it has no brace at all, the client returns it
    trimmed and the server returns it up to surrounding whitespace.  (The
    result may be empty.) *)
Theorem cleanJsonResponse_spec (s : jsstring) :
  no_fence (ServerSanitizer.cleanJsonResponse s) /\
  no_fence (GptSanitizer.cleanJsonResponse s) /\
  (forall out, brace_span (ServerSanitizer.strip_fences (trim s)) out ->
               ServerSanitizer.cleanJsonResponse s = out) /\
  (forall out, brace_span (GptSanitizer.strip_fences s) out ->
               GptSanitizer.cleanJsonResponse s = out) /\
  (no_brace (ServerSanitizer.strip_fences (trim s)) ->
   trim (ServerSanitizer.cleanJsonResponse s)
   = trim (ServerSanitizer.strip_fences (trim s))) /\
  (no_brace (GptSanitizer.strip_fences s) ->
   GptSanitizer.cleanJsonResponse s = trim (GptSanitizer.strip_fences s)).
Proof.
  split; [|split; [|split; [|split; [|split]]]].
  - eapply no_fence_infix; [apply server_clean_infix|].
    apply server_strip_no_fence.
  - eapply no_fence_infix; [apply gpt_clean_infix|].
    apply gpt_strip_no_fence.
  - intros out. apply server_clean_span.
  - intros out. apply gpt_clean_span.
  - intros H. now rewrite server_clean_plain.
  - apply gpt_clean_plain.
Qed.

(** ** Idempotence *)

(** C9 at the failing input: a fenced JSON array.  The server's result
    keeps the line feed that stood before the closing fence; it parses as
    JSON, and sanitizing it again removes the line feed.  The client's
    result is stable. *)
Lemma server_clean_not_idempotent :
  let raw := lit "```json" ++ [10%N] ++ lit "[1,2,3]" ++ [10%N] ++ lit "```" in
  ServerSanitizer.cleanJsonResponse raw = lit "[1,2,3]" ++ [10%N] /\
  Json.valid (ServerSanitizer.cleanJsonResponse raw) = true /\
  ServerSanitizer.cleanJsonResponse (ServerSanitizer.cleanJsonResponse raw)
  = lit "[1,2,3]" /\
  GptSanitizer.cleanJsonResponse raw = lit "[1,2,3]".
Proof. repeat split; vm_compute; reflexivity. Qed.

Lemma trimStart_last (m : jsstring) (b : N) :
  is_ws b = false -> exists m', trimStart (m ++ [b]) = m' ++ [b].
Proof.
  intros Hb. induction m as [|c m IH]; simpl.
  - rewrite Hb. now exists [].
  - destruct (is_ws c); [exact IH | now exists (c :: m)].
Qed.

(** The shape of a client result: no opening brace, or one in front. *)
Lemma gpt_clean_left (s : jsstring) :
  ~ In lbrace (GptSanitizer.cleanJsonResponse s) \/
  exists m, GptSanitizer.cleanJsonResponse s = lbrace :: m.
Proof.
  unfold GptSanitizer.cleanJsonResponse. cbv zeta.
  set (t := GptSanitizer.strip_fences s).
  assert (Hu : ~ In lbrace (GptSanitizer.drop_before_brace t) \/
               exists m, GptSanitizer.drop_before_brace t = lbrace :: m).
  { destruct (in_dec N.eq_dec lbrace t) as [Hin | Hnin].
    - destruct (indexOf_split _ _ Hin) as [pre [post [-> Hpre]]].
      right. exists post. now apply drop_before_brace_found.
    - left. now rewrite drop_before_brace_absent. }
  set (u := GptSanitizer.drop_before_brace t) in *.
  assert (Hv : ~ In lbrace (GptSanitizer.drop_after_brace u) \/
               exists m, GptSanitizer.drop_after_brace u = lbrace :: m).
  { destruct Hu as [Hu | [m Hm]].
    - left. intros H. apply Hu.
      eapply infix_In; [apply drop_after_brace_infix | exact H].
    - right. rewrite Hm.
      destruct (in_dec N.eq_dec rbrace (lbrace :: m)) as [Hin | Hnin].
      + destruct (lastIndexOf_split _ _ Hin) as [pre [post [E Hpost]]].
        destruct pre as [|p0 pre].
        * simpl in E. injection E as E _. discriminate.
        * rewrite E. rewrite drop_after_brace_found by (exact Hpost || discriminate).
          simpl in E. injection E as <- _. now exists (pre ++ [rbrace]).
      + exists m. now apply drop_after_brace_absent. }
  set (v := GptSanitizer.drop_after_brace u) in *.
  destruct Hv as [Hv | [m Hm]].
  - left. intros H. apply Hv. eapply infix_In; [apply trim_infix | exact H].
  - right. rewrite Hm. unfold trim.
    rewrite trimStart_keep by apply brace_ws.
    destruct (trimEnd_head lbrace m (proj1 brace_ws)) as [t' [E _]].
    now exists t'.
Qed.

(** The shape of a client result: no closing brace, one at the end, or one
    in front alone. *)
Lemma gpt_clean_right (s : jsstring) :
  ~ In rbrace (GptSanitizer.cleanJsonResponse s) \/
  (exists m, GptSanitizer.cleanJsonResponse s = m ++ [rbrace]) \/
  (exists m, GptSanitizer.cleanJsonResponse s = rbrace :: m /\ ~ In rbrace m).
Proof.
  unfold GptSanitizer.cleanJsonResponse. cbv zeta.
  set (u := GptSanitizer.drop_before_brace (GptSanitizer.strip_fences s)).
  assert (Hv : ~ In rbrace (GptSanitizer.drop_after_brace u) \/
               (exists m, GptSanitizer.drop_after_brace u = m ++ [rbrace]) \/
               (exists m, GptSanitizer.drop_after_brace u = rbrace :: m /\
                          ~ In rbrace m)).
  { destruct (in_dec N.eq_dec rbrace u) as [Hin | Hnin].
    - destruct (lastIndexOf_split _ _ Hin) as [pre [post [-> Hpost]]].
      destruct pre as [|p0 pre].
      + right. right. exists post. split; [|exact Hpost].
        now apply drop_after_brace_first.
      + right. left. exists (p0 :: pre).
        apply drop_after_brace_found; [discriminate | exact Hpost].
    - left. now rewrite drop_after_brace_absent. }
  set (v := GptSanitizer.drop_after_brace u) in *.
  destruct Hv as [Hv | [[m Hm] | [m [Hm Hn]]]].
  - left. intros H. apply Hv. eapply infix_In; [apply trim_infix | exact H].
  - right. left. rewrite Hm. unfold trim.
    destruct (trimStart_last m rbrace (proj2 brace_ws)) as [m' ->].
    exists m'. apply trimEnd_keep, brace_ws.
  - right. right. rewrite Hm. unfold trim.
    rewrite trimStart_keep by apply brace_ws.
    destruct (trimEnd_head rbrace m (proj2 brace_ws)) as [t' [E Hi]].
    exists t'. split; [exact E|].
    intros H. apply Hn. eapply infix_In; [exact Hi | exact H].
Qed.

(** The client sanitizer is idempotent on every input. *)
Theorem gpt_clean_idempotent (s : jsstring) :
  GptSanitizer.cleanJsonResponse (GptSanitizer.cleanJsonResponse s)
  = GptSanitizer.cleanJsonResponse s.
Proof.
  set (c := GptSanitizer.cleanJsonResponse s).
  assert (Hf : no_fence c).
  { eapply no_fence_infix; [apply gpt_clean_infix | apply gpt_strip_no_fence]. }
  assert (Ht : trim c = c).
  { unfold c, GptSanitizer.cleanJsonResponse. cbv zeta. apply trim_idem. }
  unfold GptSanitizer.cleanJsonResponse at 1. cbv zeta.
  rewrite gpt_strip_fixed by exact Hf.
  assert (E1 : GptSanitizer.drop_before_brace c = c).
  { destruct (gpt_clean_left s) as [H | [m H]]; fold c in H.
    - now apply drop_before_brace_absent.
    - rewrite H. apply (drop_before_brace_found [] m). tauto. }
  rewrite E1.
  assert (E2 : GptSanitizer.drop_after_brace c = c).
  { destruct (gpt_clean_right s) as [H | [[m H] | [m [H Hn]]]]; fold c in H.
    - now apply drop_after_brace_absent.
    - rewrite H. destruct m as [|m0 m].
      + apply (drop_after_brace_first []). tauto.
      + apply (drop_after_brace_found (m0 :: m) []); [discriminate | tauto].
    - rewrite H. now apply drop_after_brace_first. }
  rewrite E2. exact Ht.
Qed.

(** The server sanitizer is idempotent whenever its result is delimited by
    braces, as every JSON object is. *)
Theorem server_clean_idempotent_object (s mid : jsstring) :
  ServerSanitizer.cleanJsonResponse s = lbrace :: mid ++ [rbrace] ->
  ServerSanitizer.cleanJsonResponse (ServerSanitizer.cleanJsonResponse s)
  = ServerSanitizer.cleanJsonResponse s.
Proof.
  intros E.
  assert (Hf : no_fence (ServerSanitizer.cleanJsonResponse s)).
  { eapply no_fence_infix; [apply server_clean_infix|].
    apply server_strip_no_fence. }
  rewrite E in *.
  apply server_clean_span.
  rewrite trim_fixed by apply brace_ws.
  rewrite server_strip_fixed by exact Hf.
  exists [], mid, []. repeat split; auto.
Qed.

Lemma server_clean_idempotent_object_witness :
  ServerSanitizer.cleanJsonResponse (lit "x {} ```") = lbrace :: [] ++ [rbrace] /\
  ServerSanitizer.cleanJsonResponse
    (ServerSanitizer.cleanJsonResponse (lit "x {} ```"))
  = ServerSanitizer.cleanJsonResponse (lit "x {} ```").
Proof.
  split; [vm_compute; reflexivity|].
  apply (server_clean_idempotent_object (lit "x {} ```") []).
  vm_compute; reflexivity.
Defined.

End SanitizerClaims.

(* ================================================================== *)
(** * The coercion step *)
(* ================================================================== *)

Section CoercionFacts.
Import JsString Js Spec.

Lemma key_eqb_eq (a b : jsstring) : key_eqb a b = true <-> a = b.
Proof.
  unfold key_eqb. destruct (list_eq_dec N.eq_dec a b); split; congruence.
Qed.

Lemma key_eqb_refl (a : jsstring) : key_eqb a a = true.
Proof. now apply key_eqb_eq. Qed.

Lemma lookup_set_same (o : list (jsstring * value)) (k : jsstring) (v : value) :
  lookup (set_prop o k v) k = v.
Proof.
  induction o as [|[k' v'] t IH]; simpl.
  - now rewrite key_eqb_refl.
  - destruct (key_eqb k' k) eqn:E; simpl.
    + now rewrite key_eqb_refl.
    + now rewrite E.
Qed.

Lemma lookup_set_other (o : list (jsstring * value)) (k k' : jsstring)
    (v : value) :
  key_eqb k k' = false -> lookup (set_prop o k v) k' = lookup o k'.
Proof.
  intros Hk. induction o as [|[k0 v0] t IH]; simpl.
  - now rewrite Hk.
  - destruct (key_eqb k0 k) eqn:E; simpl.
    + apply key_eqb_eq in E. subst k0. now rewrite Hk.
    + destruct (key_eqb k0 k'); auto.
Qed.







Variable parseFloat_string : jsstring -> float.




End CoercionFacts.

Section CoercionClaims.
Import JsString Js Spec.

Variable today : jsstring.
Variable parseFloat_string : jsstring -> float.
Variable random_id : nat -> float.













End CoercionClaims.

Section BatchCoercion.
Import JsString Js Spec.

Variable today : jsstring.
Variable parseFloat_string : jsstring -> float.
Variable random_id : nat -> float.



End BatchCoercion.


Section CoercionExamples.
Import JsString Js Spec.






End CoercionExamples.

(* ================================================================== *)
(** * The fallback datasets *)
(* ================================================================== *)

Section FallbackClaims.
Import JsString Js Spec.

(** C8, the claim as stated fails: the fast fallback dataset lists a
    company under the category "Mining", which no source documents. *)
Lemma fast_fallback_undocumented_category :
  In (VStr (lit "Mining")) (categories_of (FastFallback.getFastFallbackData 0)) /\
  category_in documented_categories (VStr (lit "Mining")) = false /\
  categories_documented (FastFallback.getFastFallbackData 0) = false.
Proof.
  split; [|split; vm_compute; reflexivity].
  vm_compute. do 7 right. left. reflexivity.
Qed.

(** C8, amended: each static fallback dataset is a non-empty batch of
    events with unique ids in which no recognized field of an event or a
    company is absent, every price is positive, every confidence within
    [0, 1] and every riskScore within [0, 100]; every company category is a
    documented one, except "Mining" in the fast fallback dataset. *)
Theorem fallback_datasets_valid (now : Z) :
  dataset_ok ServerCoercer.getFallbackData = true /\
  dataset_ok (GptCoercer.getFallbackData now) = true /\
  dataset_ok (SecureFallback.getFallbackData now) = true /\
  dataset_ok (FastFallback.getFastFallbackData now) = true /\
  categories_documented ServerCoercer.getFallbackData = true /\
  categories_documented (GptCoercer.getFallbackData now) = true /\
  categories_documented (SecureFallback.getFallbackData now) = true /\
  forallb (category_in (lit "Mining" :: documented_categories))
          (categories_of (FastFallback.getFastFallbackData now)) = true.
Proof. repeat split; vm_compute; reflexivity. Qed.

(** The counts the fallback datasets declare, against the pipeline's own
    rule ([riskScore >= 70]): the fast dataset declares 4 high-risk events
    and holds 5. *)
Example fallback_high_risk_counts (now : Z) :
  GptCrisisService.highRiskEvents Samples.to_zero
    (field (GptCoercer.getFallbackData now) "events")
  = Ok (field (GptCoercer.getFallbackData now) "highRiskEvents") /\
  GptCrisisService.highRiskEvents Samples.to_zero
    (field (SecureFallback.getFallbackData now) "events")
  = Ok (field (SecureFallback.getFallbackData now) "highRiskEvents") /\
  GptCrisisService.highRiskEvents Samples.to_zero
    (field (FastFallback.getFastFallbackData now) "events") = Ok (VNum 5) /\
  field (FastFallback.getFastFallbackData now) "highRiskEvents" = VNum 4.
Proof. repeat split; vm_compute; reflexivity. Qed.

End FallbackClaims.

(* ================================================================== *)
(** * Failure paths *)
(* ================================================================== *)

Section ServerClaims.
Import JsString Js Spec.

Variable JSON_parse : jsstring -> option value.
Variable ToNumber_other : value -> float.
Variable parseFloat_string : jsstring -> float.
Variable random_id : nat -> float.

(** C6, amended: whatever is thrown behind the credential check, the
    response of POST /api/analyze-crisis has status 500 and the body
    [{ error: 'Analysis temporarily unavailable', fallback: ... }] with the
    static, well-formed events of [getFallbackData]; without a credential
    the response has status 500 and the body
    [{ error: 'Server configuration error' }] alone.  Neither depends on
    the exception or on the credential; there is no other failure
    response. *)
Theorem analyze_crisis_failure (token : option jsstring)
    (reply : Server.model_reply) (now : Z) :
  let r := Server.analyze_crisis JSON_parse ToNumber_other parseFloat_string
             random_id token reply now in
  let attempt := Server.analyze JSON_parse ToNumber_other parseFloat_string
                   random_id reply now in
  ((Server.missing token = true /\
    r = {| Server.status := 500;
           Server.body :=
             VObj [ prop "error" (VStr (lit "Server configuration error")) ] |})
   \/
   (Server.missing token = false /\
    exists crisisData,
      attempt = Ok crisisData /\
      r = {| Server.status := 200; Server.body := crisisData |})
   \/
   (Server.missing token = false /\
    (exists message, attempt = Throw message) /\
    r = {| Server.status := 500;
           Server.body :=
             VObj [ prop "error"
                      (VStr (lit "Analysis temporarily unavailable"));
                    prop "fallback" ServerCoercer.getFallbackData ] |}))
  /\ (forall message,
        Server.analyze JSON_parse ToNumber_other parseFloat_string random_id
          (Server.Rejected message) now = Throw message)
  /\ dataset_ok ServerCoercer.getFallbackData = true.
Proof.
  cbv zeta. split; [|split; [reflexivity | vm_compute; reflexivity]].
  unfold Server.analyze_crisis.
  destruct (Server.missing token).
  - left. now split.
  - right.
    destruct (Server.analyze JSON_parse ToNumber_other parseFloat_string
                random_id reply now) as [d | m].
    + left. split; [reflexivity|]. now exists d.
    + right. split; [reflexivity|]. split; [now exists m | reflexivity].
Qed.

End ServerClaims.

Section ServerExamples.
Import JsString Js Spec.

(** C6, the claim as stated fails: without a credential the body carries
    no fallback, and the fallback sent after a thrown error has the events
    only, not [lastUpdated], [totalEvents] or [highRiskEvents]. *)
Lemma analyze_crisis_fallback_missing :
  let unconfigured :=
    Server.analyze_crisis Samples.reject_all Samples.to_zero Samples.no_number
      Samples.drawn None (Server.Replied (lit "{}")) 0 in
  let failed :=
    Server.analyze_crisis Samples.reject_all Samples.to_zero Samples.no_number
      Samples.drawn (Some (lit "r8_secret"))
      (Server.Rejected (lit "401 Unauthorized")) 0 in
  Server.status unconfigured = 500 /\
  field (Server.body unconfigured) "fallback" = VUndefined /\
  Server.status failed = 500 /\
  field (field (Server.body failed) "fallback") "lastUpdated" = VUndefined /\
  field (field (Server.body failed) "fallback") "totalEvents" = VUndefined /\
  field (field (Server.body failed) "fallback") "highRiskEvents" = VUndefined.
Proof. cbv zeta. repeat split; vm_compute; reflexivity. Qed.

(** Scenario 2 of the specification: the model call is refused. *)
Example analyze_crisis_unauthorized :
  Server.analyze_crisis Samples.reject_all Samples.to_zero Samples.no_number
    Samples.drawn (Some (lit "r8_secret"))
    (Server.Rejected (lit "401 Unauthorized: r8_secret")) 0
  = {| Server.status := 500;
       Server.body :=
         VObj [ prop "error" (VStr (lit "Analysis temporarily unavailable"));
                prop "fallback" ServerCoercer.getFallbackData ] |}.
Proof. reflexivity. Qed.


End ServerExamples.

Section PipelineClaims.
Import JsString Js Spec.

Variable JSON_parse : jsstring -> option value.
Variable ToNumber_other : value -> float.
Variable today : jsstring.
Variable new_Date : value -> value.
Variable sort_by_profit : list value -> list value.



End PipelineClaims.

(* ================================================================== *)
(** * The caches *)
(* ================================================================== *)

Section CacheClaims.
Import JsString Js Spec.

Variable JSON_parse : jsstring -> option value.
Variable ToNumber_other : value -> float.
Variable today : jsstring.
Variable new_Date : value -> value.

Lemma gpt_cached_iff (d : value) (T now : Z) :
  GptCrisisService.cached
    {| GptCrisisService.cache := Some d; GptCrisisService.lastFetch := Some T |}
    now false
  = if now - T <? GptCrisisService.CACHE_DURATION then Some d else None.
Proof. reflexivity. Qed.

Lemma secure_cached_iff (d : value) (T now : Z) :
  SecureApiService.cached
    {| SecureApiService.cache := Some d; SecureApiService.lastFetch := Some T |}
    now false
  = if now - T <? SecureApiService.CACHE_DURATION then Some d else None.
Proof. reflexivity. Qed.


(** Scenario 4 of the specification: an entry 29 minutes old is served
    from the 30-minute cache and nothing is sent. *)
Example secure_cache_29_minutes (d : value) (T : Z) (b : SecureApiService.backend) :
  let st := {| SecureApiService.cache := Some d;
               SecureApiService.lastFetch := Some T |} in
  SecureApiService.getCrisisData new_Date st false b
    {| at_entry := T + 29 * 60 * 1000; at_result := T + 29 * 60 * 1000;
       at_store := T + 29 * 60 * 1000 |}
  = (d, st, []).
Proof.
  cbv zeta. unfold SecureApiService.getCrisisData.
  rewrite secure_cached_iff. cbn [at_entry].
  replace (T + 29 * 60 * 1000 - T <? SecureApiService.CACHE_DURATION) with true;
    [reflexivity|].
  symmetry. apply Z.ltb_lt. unfold SecureApiService.CACHE_DURATION. lia.
Qed.

(** The two sides of the boundary, on the 10-minute cache. *)
Example gpt_cache_boundary (d : value) (T : Z)
    (reply : GptCrisisService.model_reply) :
  let st := {| GptCrisisService.cache := Some d;
               GptCrisisService.lastFetch := Some T |} in
  let at_ now := {| at_entry := now; at_result := now; at_store := now |} in
  GptCrisisService.getAllCrisisData JSON_parse ToNumber_other today st false
    reply (at_ (T + 10 * 60 * 1000 - 1)) = (d, st, []) /\
  snd (GptCrisisService.getAllCrisisData JSON_parse ToNumber_other today st
         false reply (at_ (T + 10 * 60 * 1000 + 1))) = [ModelRun].
Proof.
  cbv zeta. unfold GptCrisisService.getAllCrisisData.
  rewrite !gpt_cached_iff. cbn [at_entry].
  unfold GptCrisisService.CACHE_DURATION.
  replace (T + 10 * 60 * 1000 - 1 - T <? 10 * 60 * 1000) with true
    by (symmetry; apply Z.ltb_lt; lia).
  replace (T + 10 * 60 * 1000 + 1 - T <? 10 * 60 * 1000) with false
    by (symmetry; apply Z.ltb_ge; lia).
  split; [reflexivity|].
  now destruct (GptCrisisService.settle _ _ _ _ _ _).
Qed.

(** ** Coalescing in the fast service *)

Lemma fast_call_miss (sys : FastApiService.system) (now : Z) (force : bool) :
  FastApiService.cached (FastApiService.service sys) now force = None ->
  match in_flight (FastApiService.service sys) with
  | Some p => FastApiService.call sys now force = (sys, FastApiService.Later p)
  | None =>
      exists sys',
        FastApiService.call sys now force
        = (sys', FastApiService.Later (FastApiService.started sys)) /\
        in_flight (FastApiService.service sys')
        = Some (FastApiService.started sys) /\
        FastApiService.started sys' = S (FastApiService.started sys) /\
        (forall n f, FastApiService.cached (FastApiService.service sys') n f
                     = FastApiService.cached (FastApiService.service sys) n f)
  end.
Proof.
  intros H. unfold FastApiService.call. cbv zeta. rewrite H.
  unfold in_flight.
  destruct (FastApiService.isLoading (FastApiService.service sys)),
           (FastApiService.loadingPromise (FastApiService.service sys));
    try reflexivity; eexists; repeat split.
Qed.

Lemma fast_calls_join (p : FastApiService.promise) (reqs : list (Z * bool))
    (sys : FastApiService.system) :
  in_flight (FastApiService.service sys) = Some p ->
  Forall (fun r => FastApiService.cached (FastApiService.service sys)
                     (fst r) (snd r) = None) reqs ->
  FastApiService.calls sys reqs
  = (sys, List.map (fun _ => FastApiService.Later p) reqs).
Proof.
  intros Hp. induction reqs as [|[now force] t IH]; intros H.
  - reflexivity.
  - inversion H as [|? ? H1 H2]; subst. cbn [fst snd] in H1.
    cbn [FastApiService.calls].
    pose proof (fast_call_miss sys now force H1) as C. rewrite Hp in C.
    rewrite C. rewrite (IH H2). reflexivity.
Qed.

Lemma fast_resolved (sys : FastApiService.system) (p : FastApiService.promise)
    (b : FastApiService.backend) (clk : clock) :
  in_flight (FastApiService.service sys) = Some p ->
  exists r,
    FastApiService.resolved
      (FastApiService.settle new_Date sys b clk) (FastApiService.Later p)
    = Some r.
Proof.
  unfold in_flight. intros H.
  destruct (FastApiService.isLoading (FastApiService.service sys));
    [|discriminate].
  unfold FastApiService.settle. cbv zeta. rewrite H.
  destruct (FastApiService.fetchFreshData new_Date
              (FastApiService.service sys) b clk) as [[r c] t].
  exists r. cbn. now rewrite Nat.eqb_refl.
Qed.

(** C5, amended: in the fast service, requests that the cache does not
    answer and that arrive before the production settles all wait for one
    promise: the one in flight if there is one, otherwise the single one
    the first of them starts; when it settles they all resolve to its
    value.  (The GPT service and the secure service keep no such registry:
    each of their requests that misses the cache starts a production.) *)
Theorem fast_requests_coalesce (sys : FastApiService.system)
    (reqs : list (Z * bool)) (b : FastApiService.backend) (clk : clock) :
  Forall (fun r => FastApiService.cached (FastApiService.service sys)
                     (fst r) (snd r) = None) reqs ->
  reqs <> [] ->
  exists p r,
    snd (FastApiService.calls sys reqs)
    = List.map (fun _ => FastApiService.Later p) reqs /\
    FastApiService.started (fst (FastApiService.calls sys reqs))
    = match in_flight (FastApiService.service sys) with
      | Some _ => FastApiService.started sys
      | None => S (FastApiService.started sys)
      end /\
    Forall (fun a =>
              FastApiService.resolved
                (FastApiService.settle new_Date
                   (fst (FastApiService.calls sys reqs)) b clk) a = Some r)
           (snd (FastApiService.calls sys reqs)).
Proof.
  intros H Hne.
  destruct reqs as [|[now force] t]; [congruence|].
  inversion H as [|? ? H1 H2]; subst. cbn [fst snd] in H1.
  pose proof (fast_call_miss sys now force H1) as C.
  destruct (in_flight (FastApiService.service sys)) as [p|] eqn:Ep.
  - rewrite (fast_calls_join p _ sys Ep H). cbn [fst snd].
    destruct (fast_resolved sys p b clk Ep) as [r Hr].
    exists p, r. repeat split.
    apply Forall_forall. intros a Ha. apply in_map_iff in Ha.
    destruct Ha as [_ [<- _]]. exact Hr.
  - destruct C as [sys' [C1 [C2 [C3 C4]]]].
    cbn [FastApiService.calls]. rewrite C1.
    rewrite (fast_calls_join (FastApiService.started sys) t sys' C2).
    + cbn [fst snd].
      destruct (fast_resolved sys' _ b clk C2) as [r Hr].
      exists (FastApiService.started sys), r. repeat split; [exact C3|].
      constructor; [exact Hr|].
      apply Forall_forall. intros a Ha. apply in_map_iff in Ha.
      destruct Ha as [_ [<- _]]. exact Hr.
    + eapply Forall_impl; [|exact H2]. cbv beta. intros a Ha.
      now rewrite C4.
Qed.

End CacheClaims.

Section CacheExamples.
Import JsString Js Spec.

(** Scenario 3 of the specification on the fast service: three requests
    right after construction join the preload; one production in all. *)
Lemma fast_requests_coalesce_witness :
  Forall (fun r => FastApiService.cached
                     (FastApiService.service FastApiService.boot)
                     (fst r) (snd r) = None)
         [(5, false); (5, false); (6, true)] /\
  exists p r,
    snd (FastApiService.calls FastApiService.boot
           [(5, false); (5, false); (6, true)])
    = [FastApiService.Later p; FastApiService.Later p; FastApiService.Later p] /\
    FastApiService.started
      (fst (FastApiService.calls FastApiService.boot
              [(5, false); (5, false); (6, true)])) = 1%nat /\
    Forall (fun a =>
              FastApiService.resolved
                (FastApiService.settle Samples.keep_date
                   (fst (FastApiService.calls FastApiService.boot
                           [(5, false); (5, false); (6, true)]))
                   SecureApiService.HealthDown Samples.noon) a = Some r)
           (snd (FastApiService.calls FastApiService.boot
                   [(5, false); (5, false); (6, true)])).
Proof.
  assert (H : Forall (fun r => FastApiService.cached
                        (FastApiService.service FastApiService.boot)
                        (fst r) (snd r) = None)
                     [(5, false); (5, false); (6, true)])
    by (repeat constructor).
  split; [exact H|].
  destruct (fast_requests_coalesce Samples.keep_date FastApiService.boot
              [(5, false); (5, false); (6, true)]
              SecureApiService.HealthDown Samples.noon H
              ltac:(discriminate)) as [p [r [A [B C]]]].
  exists p, r. repeat split; assumption.
Defined.

(** C5, the claim as stated fails for the GPT service: two requests on an
    empty cache, the second before the first reply, run the model twice,
    and the two callers get the results of two productions (here two
    fallback datasets of different dates). *)
Lemma gpt_requests_do_not_coalesce :
  let sys := GptCrisisService.calls GptCrisisService.boot
               [(5, false); (5, false)] in
  let first := GptCrisisService.arrive Samples.reject_all Samples.to_zero
                 Samples.today sys (GptCrisisService.Rejected (lit "timeout"))
                 {| at_entry := 5; at_result := 60; at_store := 61 |} in
  let second := GptCrisisService.arrive Samples.reject_all Samples.to_zero
                  Samples.today (fst first)
                  (GptCrisisService.Rejected (lit "timeout"))
                  {| at_entry := 5; at_result := 70; at_store := 71 |} in
  GptCrisisService.modelRuns sys = 2%nat /\
  GptCrisisService.waiting sys = 2%nat /\
  GptCrisisService.waiting (fst second) = 0%nat /\
  snd first <> snd second.
Proof.
  cbv zeta. split; [reflexivity|]. split; [reflexivity|].
  split; [reflexivity|].
  vm_compute. intros H. discriminate H.
Qed.

End CacheExamples.

(* ================================================================== *)
(** * The data validator *)
(* ================================================================== *)

Section FloatOrder.
Import JsString Js Spec.

Lemma SFcompare_antisym (a b : spec_float) :
  SFcompare b a = option_map CompOpp (SFcompare a b).
Proof.
  destruct a as [sa | sa | | sa ma ea], b as [sb | sb | | sb mb eb];
    try reflexivity;
    try (destruct sa; reflexivity);
    try (destruct sb; reflexivity);
    try (destruct sa, sb; reflexivity).
  cbn [SFcompare option_map].
  destruct sa, sb; try reflexivity; f_equal;
    rewrite (Z.compare_antisym ea eb);
    destruct (ea ?= eb) eqn:E; cbn [CompOpp]; try reflexivity.
  - rewrite CompOpp_involutive. rewrite Pos.compare_cont_antisym. reflexivity.
  - rewrite Pos.compare_cont_antisym. reflexivity.
Qed.

Lemma SFcompare_refl (a : spec_float) :
  a <> S754_nan -> SFcompare a a = Some Eq.
Proof.
  destruct a as [s | s | | s m e]; intros H; try reflexivity.
  - now destruct s.
  - congruence.
  - cbn [SFcompare]. rewrite Z.compare_refl, Pos.compare_cont_refl.
    now destruct s.
Qed.

Lemma SFcompare_None (a b : spec_float) :
  SFcompare a b = None -> a = S754_nan \/ b = S754_nan.
Proof.
  destruct a as [sa | sa | | sa ma ea], b as [sb | sb | | sb mb eb];
    cbn [SFcompare]; intros H; try discriminate H; auto.
Qed.

Lemma is_nan_spec (x : float) :
  is_nan x = false <-> Prim2SF x <> S754_nan.
Proof.
  unfold is_nan. rewrite eqb_spec. unfold SFeqb. split.
  - intros H E. rewrite E in H. discriminate H.
  - intros H. now rewrite SFcompare_refl.
Qed.

(** [x < y] gives [x <= y]. *)
Lemma ltb_leb (x y : float) : (x <? y)%float = true -> (x <=? y)%float = true.
Proof.
  rewrite ltb_spec, leb_spec. unfold SFltb, SFleb.
  now destruct (SFcompare (Prim2SF x) (Prim2SF y)) as [[]|].
Qed.

(** Numbers other than NaN are totally ordered. *)
Lemma ltb_false_leb (x y : float) :
  is_nan x = false -> is_nan y = false ->
  (y <? x)%float = false -> (x <=? y)%float = true.
Proof.
  rewrite !is_nan_spec, ltb_spec, leb_spec. unfold SFltb, SFleb.
  intros Hx Hy. rewrite (SFcompare_antisym (Prim2SF x) (Prim2SF y)).
  destruct (SFcompare (Prim2SF x) (Prim2SF y)) as [[]|] eqn:E;
    cbn; try congruence.
  apply SFcompare_None in E. tauto.
Qed.

Lemma leb_false_ltb (x y : float) :
  is_nan x = false -> is_nan y = false ->
  (y <=? x)%float = false -> (x <? y)%float = true.
Proof.
  rewrite !is_nan_spec, ltb_spec, leb_spec. unfold SFltb, SFleb.
  intros Hx Hy. rewrite (SFcompare_antisym (Prim2SF x) (Prim2SF y)).
  destruct (SFcompare (Prim2SF x) (Prim2SF y)) as [[]|] eqn:E;
    cbn; try congruence.
  apply SFcompare_None in E. tauto.
Qed.

Lemma ltb_leb_false (x y : float) :
  (x <? y)%float = true -> (y <=? x)%float = false.
Proof.
  rewrite ltb_spec, leb_spec. unfold SFltb, SFleb.
  rewrite (SFcompare_antisym (Prim2SF x) (Prim2SF y)).
  now destruct (SFcompare (Prim2SF x) (Prim2SF y)) as [[]|].
Qed.

(** Only numbers other than NaN compare. *)
Lemma leb_not_nan (x y : float) :
  (x <=? y)%float = true -> is_nan x = false /\ is_nan y = false.
Proof.
  rewrite !is_nan_spec, leb_spec. unfold SFleb.
  intros H. split; intros E; rewrite E in H;
    [|destruct (Prim2SF x)]; discriminate H.
Qed.

(** [Math.max(0, Math.min(100, c))] is NaN when [c] is, and within
    [0, 100] otherwise. *)
Lemma clamp_range (c : float) :
  let r := Math_max 0 (Math_min 100 c) in
  (is_nan c = true /\ is_nan r = true) \/
  (is_nan c = false /\ (0 <=? r)%float = true /\ (r <=? 100)%float = true).
Proof.
  cbv zeta. unfold Math_min.
  change (is_nan 100) with false. cbn [orb].
  destruct (is_nan c) eqn:Hn.
  - left. split; reflexivity.
  - right. split; [reflexivity|].
    destruct (100 <? c)%float eqn:E1.
    + split; reflexivity.
    + assert (Hc : (c <=? 100)%float = true)
        by (apply ltb_false_leb; [exact Hn | reflexivity | exact E1]).
      assert (Em : (if (c <? 100)%float then c
                    else if get_sign 100 then 100%float else c) = c)
        by (destruct (c <? 100)%float; reflexivity).
      rewrite Em. unfold Math_max.
      change (is_nan 0) with false. rewrite Hn. cbn [orb].
      destruct (0 <? c)%float eqn:E2.
      * split; [now apply ltb_leb | exact Hc].
      * assert (Ez : (if (c <? 0)%float then 0%float
                      else if get_sign 0 then c else 0%float) = 0%float)
          by (destruct (c <? 0)%float; reflexivity).
        rewrite Ez. split; reflexivity.
Qed.


End FloatOrder.

Section ValidatorClaims.
Import JsString Js Spec DataValidator.

Lemma getDataQuality_buckets (c : float) : quality_of c (getDataQuality c).
Proof.
  unfold quality_of, getDataQuality.
  destruct (80 <=? c)%float eqn:E8; [|destruct (60 <=? c)%float eqn:E6];
    repeat split; intros;
    repeat match goal with H : _ /\ _ |- _ => destruct H end;
    try congruence; try discriminate.
  - match goal with
    | H : (c <? 80)%float = true |- _ => apply ltb_leb_false in H
    end.
    congruence.
  - destruct (leb_not_nan _ _ E6) as [_ Hn].
    apply leb_false_ltb; [exact Hn | reflexivity | exact E8].
Qed.

Lemma clamp_scored (raw : float) :
  let c := Math_max 0 (Math_min 100 raw) in
  is_nan c = true \/ within 0 100 (VNum c) = true.
Proof.
  cbv zeta. destruct (clamp_range raw) as [[_ H] | [_ [H1 H2]]].
  - now left.
  - right. cbn [within]. now rewrite H1, H2.
Qed.

Lemma no_error_iff (l : list string) :
  match l with [] => true | _ :: _ => false end = true <-> l = [].
Proof. destruct l; split; congruence. Qed.

(** What holds of every result of the three validators: [isValid] says
    that there is no error, [dataQuality] is the bucket of the confidence
    (high from 80, medium from 60, low otherwise), and the confidence is
    within [0, 100] unless it is NaN. *)
Theorem validation_results_scored (price : Stock.t) (signal : Signal.t)
    (opportunity : Opportunity.t) (now now' stamp : Z) :
  scored (validateStockPrice price now now' stamp) /\
  scored (validateTradingSignal signal stamp) /\
  scored (validateProfitOpportunity opportunity stamp).
Proof.
  unfold scored, validateStockPrice, validateTradingSignal,
    validateProfitOpportunity.
  cbv zeta. cbn [isValid errors confidence dataQuality].
  split; [|split];
    (split; [apply no_error_iff |
     split; [apply clamp_scored | apply getDataQuality_buckets]]).
Qed.

(** C10 at the failing input: a HOLD signal whose confidence is NaN passes
    every check, so it is valid, and its confidence score is NaN, which is
    not within [0, 100]; its data quality is low. *)
Lemma validator_nan_confidence :
  let v := validateTradingSignal Samples.nan_signal 0 in
  isValid v = true /\ errors v = [] /\
  is_nan (confidence v) = true /\
  within 0 100 (VNum (confidence v)) = false /\
  dataQuality v = low.
Proof. cbv zeta. repeat split; vm_compute; reflexivity. Qed.

(** The same signal with a confidence of 85 scores 85, high. *)
Example validator_plain_signal :
  let v := validateTradingSignal Samples.plain_signal 0 in
  isValid v = true /\ confidence v = 85%float /\ dataQuality v = high.
Proof. cbv zeta. repeat split; vm_compute; reflexivity. Qed.

End ValidatorClaims.

(* ================================================================== *)
(** * Further properties of the sanitizer *)
(* ================================================================== *)

Section Subsequences.
Import JsString Spec.

Context {A : Type}.

Lemma subseq_nil_l (s : list A) : subseq [] s.
Proof. induction s; constructor; assumption. Qed.

Lemma subseq_refl (s : list A) : subseq s s.
Proof. induction s; constructor; assumption. Qed.

Lemma subseq_trans (a b c : list A) : subseq a b -> subseq b c -> subseq a c.
Proof.
  intros Hab Hbc. revert a Hab.
  induction Hbc as [|x b c Hbc IH|x b c Hbc IH]; intros a Hab.
  - exact Hab.
  - apply subseq_drop. now apply IH.
  - inversion Hab; subst.
    + apply subseq_drop. now apply IH.
    + apply subseq_keep. now apply IH.
Qed.

Lemma subseq_app_l (p s out : list A) : subseq out s -> subseq out (p ++ s).
Proof. intros H. induction p; simpl; [exact H | now apply subseq_drop]. Qed.

Lemma subseq_app (a b c d : list A) :
  subseq a b -> subseq c d -> subseq (a ++ c) (b ++ d).
Proof.
  intros H1 H2.
  induction H1; simpl; [exact H2 | now apply subseq_drop | now apply subseq_keep].
Qed.

Lemma subseq_length (out s : list A) :
  subseq out s -> (List.length out <= List.length s)%nat.
Proof. induction 1; simpl; lia. Qed.

Lemma subseq_In (out s : list A) (x : A) : subseq out s -> In x out -> In x s.
Proof.
  induction 1; simpl; [tauto | |]; intros H'.
  - right. auto.
  - destruct H'; [now left | right; auto].
Qed.

End Subsequences.

Section SanitizerDeletes.
Import JsString Spec.

Lemma infix_subseq (out s : jsstring) : infix out s -> subseq out s.
Proof.
  intros [a [b ->]]. apply subseq_app_l.
  rewrite <- (app_nil_r out) at 1.
  apply subseq_app; [apply subseq_refl | apply subseq_nil_l].
Qed.

Lemma skip_ws_suffix (s : jsstring) : exists p, s = p ++ skip_ws s.
Proof.
  induction s as [|c t [p IH]]; [now exists []|].
  simpl. destruct (is_ws c).
  - exists (c :: p). simpl. now rewrite <- IH.
  - now exists [].
Qed.

Lemma skip_nl_suffix (s : jsstring) : exists p, s = p ++ skip_nl s.
Proof.
  destruct s as [|c t]; [now exists []|].
  destruct (N.eq_dec c 10) as [->|H].
  - now exists [10%N].
  - exists []. simpl. destruct c as [|q]; [reflexivity|].
    do 4 (destruct q; try reflexivity). now contradiction H.
Qed.

Lemma replace_scan_subseq (tail : jsstring -> jsstring) (pat : jsstring)
    (k : nat) (s : jsstring) :
  (forall r, exists p, r = p ++ tail r) ->
  subseq (replace_scan k pat tail s) s.
Proof.
  intros Htail. revert s.
  induction k as [|k IH]; intros s; [apply subseq_nil_l|].
  simpl. destruct (strip_prefix pat s) as [rest|] eqn:E.
  - apply strip_prefix_Some in E. subst s.
    destruct (Htail rest) as [p Hp].
    apply subseq_app_l. rewrite Hp at 2. apply subseq_app_l, IH.
  - destruct s as [|c t]; [constructor|]. apply subseq_keep, IH.
Qed.

Lemma server_strip_subseq (s : jsstring) :
  subseq (ServerSanitizer.strip_fences s) s.
Proof.
  unfold ServerSanitizer.strip_fences, replace_all.
  eapply subseq_trans; apply replace_scan_subseq, skip_ws_suffix.
Qed.

Lemma gpt_strip_subseq (s : jsstring) :
  subseq (GptSanitizer.strip_fences s) s.
Proof.
  unfold GptSanitizer.strip_fences, replace_all.
  eapply subseq_trans; apply replace_scan_subseq, skip_nl_suffix.
Qed.

(** Neither sanitizer ever adds, changes or reorders a code unit:
    what [cleanJsonResponse] returns is its input with some code units
    deleted, so it is never longer than the input. *)
Theorem sanitizers_only_delete (s : jsstring) :
  subseq (ServerSanitizer.cleanJsonResponse s) s /\
  subseq (GptSanitizer.cleanJsonResponse s) s /\
  (List.length (ServerSanitizer.cleanJsonResponse s) <= List.length s)%nat /\
  (List.length (GptSanitizer.cleanJsonResponse s) <= List.length s)%nat.
Proof.
  assert (Hs : subseq (ServerSanitizer.cleanJsonResponse s) s).
  { eapply subseq_trans; [apply infix_subseq, server_clean_infix|].
    eapply subseq_trans; [apply server_strip_subseq|].
    apply infix_subseq, trim_infix. }
  assert (Hg : subseq (GptSanitizer.cleanJsonResponse s) s).
  { eapply subseq_trans; [apply infix_subseq, gpt_clean_infix|].
    apply gpt_strip_subseq. }
  repeat split; try assumption; now apply subseq_length.
Qed.

End SanitizerDeletes.

(* ================================================================== *)
(** * Further properties of the coercion step *)
(* ================================================================== *)

Section CoercionIdempotence.
Import JsString Js Spec.

Variable today : jsstring.

Lemma or_idem (a b : value) : or (or a b) b = or a b.
Proof.
  unfold or. destruct (truthy a) eqn:E; [now rewrite E|].
  now destruct (truthy b).
Qed.

Lemma mapM_fixed {A : Type} (f : A -> result A) (xs ys : list A) :
  (forall x y, f x = Ok y -> f y = Ok y) ->
  mapM f xs = Ok ys -> mapM f ys = Ok ys.
Proof.
  intros Hf. revert ys.
  induction xs as [|x t IH]; intros ys; cbn [mapM].
  - intros H. injection H as <-. reflexivity.
  - destruct (f x) as [y|] eqn:Ex; [|discriminate]. cbn [bind].
    destruct (mapM f t) as [t'|] eqn:Et; [|discriminate]. cbn [bind].
    intros H. injection H as <-. cbn [mapM].
    rewrite (Hf x y Ex). cbn [bind]. rewrite (IH t' eq_refl). reflexivity.
Qed.

Lemma gpt_company_fixed (c c' : value) :
  GptCoercer.processCompany c = Ok c' -> GptCoercer.processCompany c' = Ok c'.
Proof.
  unfold GptCoercer.processCompany at 1.
  destruct (nullish c); [discriminate|].
  intros H. injection H as <-.
  unfold GptCoercer.processCompany. cbn [nullish].
  do 2 f_equal.
  repeat (f_equal; [ f_equal; apply or_idem | ]).
  do 2 f_equal. apply or_idem.
Qed.

Lemma gpt_companies_fixed (e cs : value) (rest : list (jsstring * value)) :
  GptCoercer.processCompanies e = Ok cs ->
  lookup rest (lit "companies") = cs ->
  GptCoercer.processCompanies (VObj rest) = Ok cs.
Proof.
  unfold GptCoercer.processCompanies.
  destruct (or (field e "companies") (VArr [])); try discriminate.
  destruct (mapM GptCoercer.processCompany xs) as [cs'|] eqn:E;
    [|discriminate].
  cbn [bind]. intros H. injection H as <-. intros Hrest.
  cbn [field]. rewrite Hrest. cbn [or truthy].
  rewrite (mapM_fixed _ xs cs' gpt_company_fixed E). reflexivity.
Qed.

Lemma gpt_processEvent_fixed (e e' : value) (index : option Z) :
  GptCoercer.processEvent today e index = Ok e' ->
  GptCoercer.processEvent today e' index = Ok e'.
Proof.
  unfold GptCoercer.processEvent at 1.
  destruct (nullish e); [discriminate|].
  destruct (GptCoercer.processCompanies e) as [cs|] eqn:E; [|discriminate].
  cbn [bind]. intros H. injection H as <-.
  unfold GptCoercer.processEvent. cbn [nullish].
  erewrite gpt_companies_fixed; [|exact E|reflexivity].
  cbn [bind]. do 2 f_equal.
  repeat (f_equal; [ f_equal; apply or_idem | ]).
  do 2 f_equal. apply or_idem.
Qed.

Variable parseFloat_string : jsstring -> float.
Variable random_id : nat -> float.

Lemma set_prop_present (o : list (jsstring * value)) (k : jsstring) :
  In k (List.map fst o) -> set_prop o k (lookup o k) = o.
Proof.
  induction o as [|[k' v'] t IH]; simpl; [contradiction|].
  destruct (key_eqb k' k) eqn:E.
  - intros _. apply key_eqb_eq in E. now subst k'.
  - intros [H | H]; [subst k'; now rewrite key_eqb_refl in E|].
    now rewrite IH.
Qed.

Lemma set_prop_keys (o : list (jsstring * value)) (k k' : jsstring)
    (v : value) :
  k' = k \/ In k' (List.map fst o) -> In k' (List.map fst (set_prop o k v)).
Proof.
  induction o as [|[k0 v0] t IH]; simpl.
  - intros [-> | []]. now left.
  - destruct (key_eqb k0 k) eqn:E; simpl.
    + apply key_eqb_eq in E. subst k0. intros [H | [H | H]]; auto.
    + intros [H | [H | H]]; auto.
Qed.

(** [parseFloat(x) || d] read again: the same value, for the four
    defaults of the server. *)
Lemma parseFloat_or_fixed (d : float) (v : value) :
  ServerCoercer.parseFloat parseFloat_string (VNum d) = d ->
  or (VNum (ServerCoercer.parseFloat parseFloat_string
              (or (VNum (ServerCoercer.parseFloat parseFloat_string v))
                  (VNum d))))
     (VNum d)
  = or (VNum (ServerCoercer.parseFloat parseFloat_string v)) (VNum d).
Proof.
  intros Hd. set (y := ServerCoercer.parseFloat parseFloat_string v).
  unfold or at 2 3. destruct (truthy (VNum y)) eqn:T.
  - assert (E : ServerCoercer.parseFloat parseFloat_string (VNum y) = y).
    { cbn [ServerCoercer.parseFloat]. cbn [truthy] in T.
      destruct (is_zero y); [discriminate T | reflexivity]. }
    rewrite E. unfold or. now rewrite T.
  - rewrite Hd. unfold or. now destruct (truthy (VNum d)).
Qed.

Lemma server_company_fixed (c c' : value) :
  ServerCoercer.processCompany parseFloat_string c = Ok c' ->
  ServerCoercer.processCompany parseFloat_string c' = Ok c'.
Proof.
  unfold ServerCoercer.processCompany at 1.
  destruct (nullish c); [discriminate|]. cbv zeta.
  set (v1 := or (VNum (ServerCoercer.parseFloat _ (field c "price"))) _).
  set (v2 := or (VNum (ServerCoercer.parseFloat _ (field c "change"))) _).
  set (v3 := or (VNum (ServerCoercer.parseFloat _ (field c "changePercent"))) _).
  set (v4 := or (VNum (ServerCoercer.parseFloat _ (field c "confidence"))) _).
  set (o1 := set_prop (own_props c) (lit "price") v1).
  set (o2 := set_prop o1 (lit "change") v2).
  set (o3 := set_prop o2 (lit "changePercent") v3).
  set (o4 := set_prop o3 (lit "confidence") v4).
  intros H. injection H as <-.
  unfold ServerCoercer.processCompany. cbn [nullish own_props field]. cbv zeta.
  assert (L4 : lookup o4 (lit "confidence") = v4) by apply lookup_set_same.
  assert (L3 : lookup o4 (lit "changePercent") = v3).
  { unfold o4. rewrite lookup_set_other by reflexivity. apply lookup_set_same. }
  assert (L2 : lookup o4 (lit "change") = v2).
  { unfold o4, o3. rewrite !lookup_set_other by reflexivity.
    apply lookup_set_same. }
  assert (L1 : lookup o4 (lit "price") = v1).
  { unfold o4, o3, o2. rewrite !lookup_set_other by reflexivity.
    apply lookup_set_same. }
  assert (K : forall k, In k [lit "price"; lit "change"; lit "changePercent";
                              lit "confidence"] ->
                        In k (List.map fst o4)).
  { intros k Hk. unfold o4, o3, o2, o1. simpl in Hk.
    destruct Hk as [<- | [<- | [<- | [<- | []]]]];
      repeat first [ apply set_prop_keys; left; reflexivity
                   | apply set_prop_keys; right ]. }
  rewrite L1, L2, L3, L4.
  unfold v1 at 1. rewrite parseFloat_or_fixed by reflexivity. fold v1.
  unfold v2 at 1. rewrite parseFloat_or_fixed by reflexivity. fold v2.
  unfold v3 at 1. rewrite parseFloat_or_fixed by reflexivity. fold v3.
  unfold v4 at 1. rewrite parseFloat_or_fixed by reflexivity. fold v4.
  rewrite <- L1 at 1. rewrite set_prop_present by (apply K; simpl; auto).
  rewrite <- L2 at 1. rewrite set_prop_present by (apply K; simpl; auto).
  rewrite <- L3 at 1. rewrite set_prop_present by (apply K; simpl; auto).
  rewrite <- L4 at 1. rewrite set_prop_present by (apply K; simpl; auto).
  reflexivity.
Qed.

Lemma server_processEvent_fixed (e e' : value) (position : nat) :
  ServerCoercer.processEvent parseFloat_string random_id e position = Ok e' ->
  ServerCoercer.processEvent parseFloat_string random_id e' position = Ok e'.
Proof.
  unfold ServerCoercer.processEvent at 1.
  destruct (nullish e); [discriminate|]. cbv zeta.
  destruct (ServerCoercer.processCompanies parseFloat_string e) as [cs|] eqn:C;
    [|discriminate].
  cbn [bind].
  set (id := or (field e "id") (VNum (random_id position))).
  set (o1 := set_prop (own_props e) (lit "id") id).
  set (o2 := set_prop o1 (lit "companies") cs).
  intros H. injection H as <-.
  assert (L2 : lookup o2 (lit "companies") = cs) by apply lookup_set_same.
  assert (L1 : lookup o2 (lit "id") = id).
  { unfold o2. rewrite lookup_set_other by reflexivity. apply lookup_set_same. }
  assert (C' : ServerCoercer.processCompanies parseFloat_string (VObj o2)
               = Ok cs).
  { unfold ServerCoercer.processCompanies in *. cbv zeta in *.
    cbn [field]. rewrite L2.
    destruct (nullish (field e "companies")).
    - injection C as <-. reflexivity.
    - destruct (field e "companies"); try discriminate.
      destruct (mapM _ xs) as [cs'|] eqn:M; [|discriminate].
      cbn [bind] in C. injection C as <-. cbn [or truthy nullish].
      rewrite (mapM_fixed _ xs cs' server_company_fixed M). reflexivity. }
  unfold ServerCoercer.processEvent. cbn [nullish own_props]. cbv zeta.
  rewrite C'. cbn [bind field]. rewrite L1.
  unfold id at 1. rewrite or_idem. fold id.
  rewrite <- L1 at 1.
  rewrite set_prop_present
    by (unfold o2, o1; apply set_prop_keys; right; apply set_prop_keys;
        now left).
  rewrite <- L2 at 1.
  rewrite set_prop_present by (unfold o2; apply set_prop_keys; now left).
  reflexivity.
Qed.

(** The coercion is a normalisation, on the client and on the server:
    an event that [processEvent] returned is returned unchanged when it
    is coerced again (at the same position, on the same day, with the same
    draw for a missing id). *)
Theorem coercion_is_idempotent (e : value) (index : option Z)
    (position : nat) :
  (forall e1,
     GptCoercer.processEvent today e index = Ok e1 ->
     GptCoercer.processEvent today e1 index = Ok e1) /\
  (forall e2,
     ServerCoercer.processEvent parseFloat_string random_id e position
     = Ok e2 ->
     ServerCoercer.processEvent parseFloat_string random_id e2 position
     = Ok e2).
Proof.
  split; intros e' H.
  - exact (gpt_processEvent_fixed e e' index H).
  - exact (server_processEvent_fixed e e' position H).
Qed.

End CoercionIdempotence.

Section CoercionIdempotenceExamples.
Import JsString Js Spec.

Lemma coercion_is_idempotent_witness :
  exists e1 e2,
    GptCoercer.processEvent Samples.today (VObj Samples.sparse_event) (Some 4)
    = Ok e1 /\
    GptCoercer.processEvent Samples.today e1 (Some 4) = Ok e1 /\
    ServerCoercer.processEvent Samples.no_number Samples.drawn
      (VObj Samples.sparse_event) 4 = Ok e2 /\
    ServerCoercer.processEvent Samples.no_number Samples.drawn e2 4 = Ok e2.
Proof.
  destruct (coercion_is_idempotent Samples.today Samples.no_number
              Samples.drawn (VObj Samples.sparse_event) (Some 4) 4)
    as [G S].
  do 2 eexists.
  split; [vm_compute; reflexivity|].
  split; [apply G; vm_compute; reflexivity|].
  split; [vm_compute; reflexivity|].
  apply S. vm_compute. reflexivity.
Defined.

End CoercionIdempotenceExamples.

Section CrisisCounters.
Import JsString Js Spec.
Variable JSON_parse : jsstring -> option value.
Variable ToNumber_other : value -> float.
Variable today : jsstring.
Variable parseFloat_string : jsstring -> float.
Variable random_id : nat -> float.

Lemma mapiM_length {A B : Type} (f : A -> Z -> result B) (i : Z)
    (xs : list A) (ys : list B) :
  mapiM f i xs = Ok ys -> List.length ys = List.length xs.
Proof.
  revert i ys. induction xs as [|x t IH]; intros i ys; cbn [mapiM].
  - intros H. injection H as <-. reflexivity.
  - destruct (f x i); [|discriminate]. cbn [bind].
    destruct (mapiM f (i + 1) t) as [t'|] eqn:E; [|discriminate]. cbn [bind].
    intros H. injection H as <-. simpl. f_equal. now apply (IH (i + 1)).
Qed.

Lemma processEvents_from_length (n : nat) (es es' : list value) :
  ServerCoercer.processEvents_from parseFloat_string random_id n es = Ok es' ->
  List.length es' = List.length es.
Proof.
  revert n es'. induction es as [|x t IH]; intros n es';
    cbn [ServerCoercer.processEvents_from].
  - intros H. injection H as <-. reflexivity.
  - destruct (ServerCoercer.processEvent _ _ x n); [|discriminate].
    cbn [bind].
    destruct (ServerCoercer.processEvents_from _ _ (S n) t) as [t'|] eqn:E;
      [|discriminate].
    cbn [bind]. intros H. injection H as <-. simpl. f_equal.
    now apply (IH (S n)).
Qed.

Lemma filterM_length (f : value -> result bool) (xs ys : list value) :
  GptCrisisService.filterM f xs = Ok ys ->
  (List.length ys <= List.length xs)%nat.
Proof.
  revert ys. induction xs as [|x t IH]; intros ys;
    cbn [GptCrisisService.filterM].
  - intros H. injection H as <-. reflexivity.
  - destruct (f x) as [b|]; [|discriminate]. cbn [bind].
    destruct (GptCrisisService.filterM f t) as [t'|] eqn:E; [|discriminate].
    cbn [bind]. intros H. injection H as <-.
    specialize (IH t' eq_refl). destruct b; simpl; lia.
Qed.

(** The two counters of a batch agree with the array that goes with
    them. *)
Lemma counters_agree (events out high : value)
    (coerce : value -> result value) :
  (forall v o, coerce v = Ok o ->
     exists es0 es', v = VArr es0 /\ o = VArr es' /\
                     List.length es' = List.length es0) ->
  coerce (or events (VArr [])) = Ok out ->
  GptCrisisService.highRiskEvents ToNumber_other events = Ok high ->
  exists es h,
    out = VArr es /\
    GptCrisisService.totalEvents events = count (List.length es) /\
    high = count h /\ (h <= List.length es)%nat.
Proof.
  intros Hc He Hh. unfold GptCrisisService.highRiskEvents in Hh.
  unfold GptCrisisService.totalEvents.
  apply Hc in He. destruct He as [es0 [es [E0 [-> L]]]].
  exists es.
  destruct events; cbn [nullish] in *; try discriminate.
  - cbn [or truthy] in E0. injection E0 as <-. destruct es; [|discriminate].
    injection Hh as <-. exists 0%nat. repeat split; reflexivity || lia.
  - cbn [or truthy] in E0. injection E0 as <-. destruct es; [|discriminate].
    injection Hh as <-. exists 0%nat. repeat split; reflexivity || lia.
  - cbn [or truthy] in E0. injection E0 as <-.
    destruct (GptCrisisService.filterM _ xs) as [hs|] eqn:F; [|discriminate].
    cbn [bind] in Hh. injection Hh as <-.
    exists (List.length hs). rewrite L. repeat split.
    apply filterM_length in F. exact F.
Qed.

Lemma gpt_processEvents_shape (v o : value) :
  GptCoercer.processEvents today v = Ok o ->
  exists es0 es', v = VArr es0 /\ o = VArr es' /\
                  List.length es' = List.length es0.
Proof.
  unfold GptCoercer.processEvents. destruct v; try discriminate.
  destruct (mapiM _ 0 xs) as [es'|] eqn:E; [|discriminate].
  cbn [bind]. intros H. injection H as <-.
  exists xs, es'. repeat split. now apply mapiM_length in E.
Qed.

Lemma server_processEvents_shape (v o : value) :
  ServerCoercer.processEvents parseFloat_string random_id v = Ok o ->
  exists es0 es', v = VArr es0 /\ o = VArr es' /\
                  List.length es' = List.length es0.
Proof.
  unfold ServerCoercer.processEvents. destruct v; try discriminate.
  destruct (ServerCoercer.processEvents_from _ _ 0 xs) as [es'|] eqn:E;
    [|discriminate].
  cbn [bind]. intros H. injection H as <-.
  exists xs, es'. repeat split. now apply processEvents_from_length in E.
Qed.

(** In every batch that the client's production or the server's
    handler builds, the counters agree with the events delivered:
    [totalEvents] is the length of [events], and [highRiskEvents] counts
    some of them. *)
Theorem crisis_counts_agree (reply : GptCrisisService.model_reply)
    (clk : clock) (reply' : Server.model_reply) (now : Z) (d : value) :
  GptCrisisService.produce JSON_parse ToNumber_other today reply clk = Ok d \/
  Server.analyze JSON_parse ToNumber_other parseFloat_string random_id
    reply' now = Ok d ->
  exists es h,
    field d "events" = VArr es /\
    field d "totalEvents" = count (List.length es) /\
    field d "highRiskEvents" = count h /\
    (h <= List.length es)%nat.
Proof.
  intros [H | H].
  - unfold GptCrisisService.produce in H.
    destruct reply as [m|text]; [discriminate|]. cbv zeta in H.
    destruct (get _ "events") as [events|]; [|discriminate].
    cbn [bind] in H.
    destruct (GptCoercer.processEvents today _) as [out|] eqn:E;
      [|discriminate].
    cbn [bind] in H.
    destruct (GptCrisisService.highRiskEvents _ events) as [high|] eqn:F;
      [|discriminate].
    cbn [bind] in H. injection H as <-.
    destruct (counters_agree events out high _ gpt_processEvents_shape E F)
      as [es [h [-> [T [-> L]]]]].
    exists es, h. repeat split; assumption.
  - unfold Server.analyze in H.
    destruct reply' as [m|text]; [discriminate|]. cbv zeta in H.
    destruct (get _ "events") as [events|]; [|discriminate].
    cbn [bind] in H.
    destruct (ServerCoercer.processEvents _ _ _) as [out|] eqn:E;
      [|discriminate].
    cbn [bind] in H.
    destruct (GptCrisisService.highRiskEvents _ events) as [high|] eqn:F;
      [|discriminate].
    cbn [bind] in H. injection H as <-.
    destruct (counters_agree events out high _ server_processEvents_shape E F)
      as [es [h [-> [T [-> L]]]]].
    exists es, h. repeat split; assumption.
Qed.

End CrisisCounters.

Section CrisisCountersExamples.
Import JsString Js Spec.
Lemma crisis_counts_agree_witness :
  exists d es h,
    GptCrisisService.produce Samples.reject_all Samples.to_zero Samples.today
      (GptCrisisService.Replied (lit "no json here")) Samples.noon = Ok d /\
    field d "events" = VArr es /\
    field d "totalEvents" = count (List.length es) /\
    field d "highRiskEvents" = count h /\
    (h <= List.length es)%nat.
Proof.
  assert (P : exists d,
            GptCrisisService.produce Samples.reject_all Samples.to_zero
              Samples.today (GptCrisisService.Replied (lit "no json here"))
              Samples.noon = Ok d)
    by (eexists; vm_compute; reflexivity).
  destruct P as [d P]. exists d.
  destruct (crisis_counts_agree Samples.reject_all Samples.to_zero
              Samples.today Samples.no_number Samples.drawn
              (GptCrisisService.Replied (lit "no json here")) Samples.noon
              (Server.Rejected []) 0 d (or_introl P))
    as [es [h H]].
  exists es, h. split; [exact P | exact H].
Defined.
End CrisisCountersExamples.

Section FinancialHandler.
Import JsString Js Spec.
Variable JSON_parse : jsstring -> option value.


End FinancialHandler.

Section BareObjects.
Import JsString Spec.

(** A reply that is already a bare object is returned as it is: both
    sanitizers leave unchanged every text that begins with an opening
    brace, ends with a closing brace and holds no code-fence marker. *)
Theorem sanitizers_keep_bare_objects (mid : jsstring) :
  no_fence (lbrace :: mid ++ [rbrace]) ->
  ServerSanitizer.cleanJsonResponse (lbrace :: mid ++ [rbrace])
  = lbrace :: mid ++ [rbrace] /\
  GptSanitizer.cleanJsonResponse (lbrace :: mid ++ [rbrace])
  = lbrace :: mid ++ [rbrace].
Proof.
  intros Hf. split.
  - apply server_clean_span.
    rewrite trim_fixed by apply brace_ws.
    rewrite server_strip_fixed by exact Hf.
    exists [], mid, []. repeat split; auto.
  - apply gpt_clean_span.
    rewrite gpt_strip_fixed by exact Hf.
    exists [], mid, []. repeat split; auto.
Qed.

(** The condition on fences matters: a fence marker inside a string of
    the object is removed with what separates it from the next token. *)
Example fence_inside_a_string_is_removed :
  ServerSanitizer.cleanJsonResponse (quoted "{'note':'``` x'}")
  = quoted "{'note':'x'}" /\
  GptSanitizer.cleanJsonResponse (quoted "{'note':'``` x'}")
  = quoted "{'note':' x'}".
Proof. split; vm_compute; reflexivity. Qed.

End BareObjects.

Section BareObjectsExamples.
Import JsString Spec.

Lemma sanitizers_keep_bare_objects_witness :
  ServerSanitizer.cleanJsonResponse (quoted "{'events':[]}")
  = quoted "{'events':[]}" /\
  GptSanitizer.cleanJsonResponse (quoted "{'events':[]}")
  = quoted "{'events':[]}".
Proof.
  apply (sanitizers_keep_bare_objects (quoted "'events':[]")).
  intros [a [b H]].
  assert (I : In 96%N (quoted "{'events':[]}")).
  { change (quoted "{'events':[]}")
      with (lbrace :: quoted "'events':[]" ++ [rbrace]).
    rewrite H. apply in_or_app. right. now left. }
  vm_compute in I. intuition discriminate.
Defined.

End BareObjectsExamples.

(* ================================================================== *)
(** * The fast API service over time, and the update of one event *)
(* ================================================================== *)

Section CacheStatus.
Import JsString Js Spec.

(** The cache status tells whether a request would be answered from the
    cache: [expires] is positive exactly when [getCrisisData()] called at
    the same instant is a cache hit; the age and the time left add up to
    the hour; after [forceRefresh()] nothing is reported as cached. *)
Theorem cache_status_predicts_hit (st : FastApiService.state) (now : Z) :
  let status := FastApiStatus.getCacheStatus st now in
  (FastApiStatus.cached status = true /\ 0 < FastApiStatus.expires status <->
   exists d, FastApiService.cached st now false = Some d) /\
  (FastApiStatus.cached status = true ->
   FastApiStatus.age status + FastApiStatus.expires status
   = FastApiService.CACHE_DURATION) /\
  (FastApiStatus.cached status = false ->
   FastApiStatus.age status = 0 /\ FastApiStatus.expires status = 0 /\
   forall force, FastApiService.cached st now force = None) /\
  (forall sys,
     FastApiStatus.getCacheStatus
       (FastApiService.service (FastApiService.forceRefresh sys)) now
     = {| FastApiStatus.cached := false; FastApiStatus.age := 0;
          FastApiStatus.expires := 0 |}).
Proof.
  unfold FastApiStatus.getCacheStatus, FastApiService.cached.
  destruct (FastApiService.cache st) as [c|],
           (FastApiService.lastFetch st) as [t|];
    cbn [FastApiStatus.cached FastApiStatus.age FastApiStatus.expires negb];
    (split; [split|split; [|split]]);
    try discriminate; try reflexivity;
    try (intros [? ?]; discriminate);
    try (intros _; repeat split; intros []; reflexivity).
  - intros [_ Hx]. exists c.
    destruct (now - t <? _) eqn:E; [reflexivity|].
    apply Z.ltb_ge in E. lia.
  - intros [d Hd]. destruct (now - t <? _) eqn:E; [|discriminate].
    apply Z.ltb_lt in E. lia.
  - intros _. lia.
Qed.

End CacheStatus.

Section FastRuns.
Import JsString Js Spec.
Variable new_Date : value -> value.

Lemma registry_ok_blank : registry_ok FastApiService.blank.
Proof. repeat split. Qed.

Lemma registry_ok_call (sys : FastApiService.system) (now : Z) (force : bool) :
  registry_ok sys -> registry_ok (fst (FastApiService.call sys now force)).
Proof.
  unfold registry_ok, FastApiService.call. cbv zeta. intros H.
  destruct (FastApiService.cached _ now force); [exact H|].
  destruct (FastApiService.loadingPromise (FastApiService.service sys))
    as [p|] eqn:Ep.
  - destruct H as [H1 H2]. rewrite H1. cbn [fst]. rewrite Ep. now split.
  - destruct H as [H1 H2]. rewrite H1. cbn [fst FastApiService.service
      FastApiService.loadingPromise FastApiService.isLoading
      FastApiService.started FastApiService.settled].
    repeat split. exact H2.
Qed.

Lemma registry_ok_settle (sys : FastApiService.system)
    (b : FastApiService.backend) (clk : clock) :
  registry_ok sys -> registry_ok (FastApiService.settle new_Date sys b clk).
Proof.
  unfold registry_ok, FastApiService.settle. cbv zeta. intros H.
  destruct (FastApiService.loadingPromise (FastApiService.service sys))
    as [p|] eqn:Ep.
  - destruct H as [H1 [H2 H3]].
    destruct (FastApiService.fetchFreshData _ _ _ _) as [[r c] t].
    cbn [FastApiService.service FastApiService.loadingPromise
         FastApiService.isLoading FastApiService.started
         FastApiService.settled List.map fst].
    split; [reflexivity|]. rewrite H2, H3, seq_S, rev_app_distr. reflexivity.
  - now rewrite Ep.
Qed.

Lemma registry_ok_refresh (sys : FastApiService.system) :
  registry_ok sys -> registry_ok (FastApiService.forceRefresh sys).
Proof. unfold registry_ok, FastApiService.forceRefresh. cbv zeta. exact (fun H => H). Qed.

Lemma registry_ok_step (sys : FastApiService.system) (ev : FastApiRuns.event) :
  registry_ok sys -> registry_ok (FastApiRuns.step new_Date sys ev).
Proof.
  destruct ev; cbn [FastApiRuns.step].
  - apply registry_ok_call.
  - apply registry_ok_settle.
  - apply registry_ok_refresh.
Qed.

Lemma registry_ok_run (sys : FastApiService.system)
    (evs : list FastApiRuns.event) :
  registry_ok sys -> registry_ok (FastApiRuns.run new_Date sys evs).
Proof.
  revert sys. induction evs as [|ev t IH]; intros sys H; [exact H|].
  apply IH, registry_ok_step, H.
Qed.

Lemma NoDup_rev_seq (n : nat) : NoDup (rev (seq 0 n)).
Proof. apply NoDup_rev, seq_NoDup. Qed.

(** Whatever callers, completions and forced refreshes come in whatever
    order, the fast API service keeps its registry consistent: no promise
    settles twice, and the productions started are the ones completed plus
    the one in flight, if any. *)
Theorem fast_registry_invariant (evs : list FastApiRuns.event) :
  let sys := FastApiRuns.run new_Date FastApiService.blank evs in
  registry_ok sys /\
  NoDup (List.map fst (FastApiService.settled sys)) /\
  FastApiService.started sys
  = (List.length (FastApiService.settled sys)
     + match in_flight (FastApiService.service sys) with
       | Some _ => 1
       | None => 0
       end)%nat.
Proof.
  cbv zeta.
  pose proof (registry_ok_run _ evs registry_ok_blank) as H.
  split; [exact H|].
  unfold registry_ok in H. cbv zeta in H. unfold in_flight.
  destruct (FastApiService.loadingPromise _) as [p|].
  - destruct H as [H1 [H2 H3]]. rewrite H1, H2.
    split; [rewrite H3; apply NoDup_rev_seq|].
    rewrite <- (length_map fst), H3, length_rev, length_seq. lia.
  - destruct H as [H1 H2]. rewrite H1.
    split; [rewrite H2; apply NoDup_rev_seq|].
    rewrite <- (length_map fst), H2, length_rev, length_seq. lia.
Qed.

Lemma find_rank_In (l : list (nat * value)) (p : nat) (e : nat * value) :
  find (fun e => Nat.eqb (fst e) p) l = Some e -> In p (List.map fst l).
Proof.
  intros H. apply find_some in H. destruct H as [H1 H2].
  apply Nat.eqb_eq in H2. subst p. now apply in_map.
Qed.

Lemma resolved_step (sys : FastApiService.system) (ev : FastApiRuns.event)
    (a : FastApiService.answer) (v : value) :
  registry_ok sys ->
  FastApiService.resolved sys a = Some v ->
  FastApiService.resolved (FastApiRuns.step new_Date sys ev) a = Some v.
Proof.
  intros Hok. destruct a as [d|p]; [exact (fun H => H)|].
  destruct ev as [now force|b clk|]; cbn [FastApiRuns.step].
  - unfold FastApiService.call. cbv zeta.
    destruct (FastApiService.cached _ now force); [exact (fun H => H)|].
    destruct (FastApiService.isLoading _);
      [destruct (FastApiService.loadingPromise _)|]; exact (fun H => H).
  - unfold FastApiService.settle. cbv zeta.
    unfold registry_ok in Hok. cbv zeta in Hok.
    destruct (FastApiService.loadingPromise _) as [q|];
      [|exact (fun H => H)].
    destruct Hok as [_ [_ H3]].
    destruct (FastApiService.fetchFreshData _ _ _ _) as [[r c] t].
    unfold FastApiService.resolved.
    cbn [FastApiService.settled find fst].
    destruct (find (fun e : nat * value => Nat.eqb (fst e) p)
                (FastApiService.settled sys)) as [e|] eqn:E;
      [|discriminate].
    intros H.
    assert (I : In p (rev (seq 0 q)))
      by (rewrite <- H3; exact (find_rank_In _ _ _ E)).
    apply in_rev, in_seq in I.
    destruct (Nat.eqb q p) eqn:Q; [apply Nat.eqb_eq in Q; lia|exact H].
  - exact (fun H => H).
Qed.

Lemma resolved_run (sys : FastApiService.system)
    (evs : list FastApiRuns.event) (a : FastApiService.answer) (v : value) :
  registry_ok sys ->
  FastApiService.resolved sys a = Some v ->
  FastApiService.resolved (FastApiRuns.run new_Date sys evs) a = Some v.
Proof.
  revert sys. induction evs as [|ev t IH]; intros sys Hok H; [exact H|].
  apply IH; [apply registry_ok_step, Hok | apply resolved_step; assumption].
Qed.

(** Every answer of [getCrisisData] resolves at the next completion, to
    the cached data it carried or to the result of the production in
    flight, and the value it resolved to never changes afterwards,
    whatever happens to the service. *)
Theorem fast_answers_resolve_once (evs more : list FastApiRuns.event)
    (now : Z) (force : bool) (b : FastApiService.backend) (clk : clock) :
  let sys := FastApiRuns.run new_Date FastApiService.blank evs in
  let sys1 := fst (FastApiService.call sys now force) in
  let a := snd (FastApiService.call sys now force) in
  let sys2 := FastApiService.settle new_Date sys1 b clk in
  let v := match a with
           | FastApiService.Now d => d
           | FastApiService.Later _ =>
               fst (fst (FastApiService.fetchFreshData new_Date
                           (FastApiService.service sys1) b clk))
           end in
  FastApiService.resolved sys2 a = Some v /\
  FastApiService.resolved (FastApiRuns.run new_Date sys2 more) a = Some v.
Proof.
  cbv zeta.
  pose proof (registry_ok_run _ evs registry_ok_blank) as H.
  set (sys := FastApiRuns.run new_Date FastApiService.blank evs) in *.
  pose proof (registry_ok_call sys now force H) as H1.
  assert (R : FastApiService.resolved
                (FastApiService.settle new_Date
                   (fst (FastApiService.call sys now force)) b clk)
                (snd (FastApiService.call sys now force))
              = Some match snd (FastApiService.call sys now force) with
                     | FastApiService.Now d => d
                     | FastApiService.Later _ =>
                         fst (fst (FastApiService.fetchFreshData new_Date
                           (FastApiService.service
                              (fst (FastApiService.call sys now force)))
                           b clk))
                     end).
  { unfold FastApiService.call. cbv zeta.
    destruct (FastApiService.cached _ now force); [reflexivity|].
    unfold registry_ok in H. cbv zeta in H.
    destruct (FastApiService.loadingPromise (FastApiService.service sys))
      as [p|] eqn:Ep.
    - destruct H as [Hl _]. rewrite Hl. cbn [fst snd].
      unfold FastApiService.settle. cbv zeta. rewrite Ep.
      destruct (FastApiService.fetchFreshData _ _ _ _) as [[r c] t].
      unfold FastApiService.resolved. cbn [FastApiService.settled find fst snd].
      now rewrite Nat.eqb_refl.
    - destruct H as [Hl _]. rewrite Hl. cbn [fst snd].
      unfold FastApiService.settle. cbv zeta.
      cbn [FastApiService.service FastApiService.loadingPromise].
      destruct (FastApiService.fetchFreshData _ _ _ _) as [[r c] t].
      unfold FastApiService.resolved. cbn [FastApiService.settled find fst snd].
      now rewrite Nat.eqb_refl. }
  split; [exact R|].
  apply resolved_run; [apply registry_ok_settle, H1 | exact R].
Qed.

End FastRuns.

Section EventUpdate.
Import JsString Js Spec.
Variable JSON_parse : jsstring -> option value.
Variable today : jsstring.

Lemma findIndex_found (p : value -> result bool) (xs : list value)
    (i k : nat) :
  GptEventUpdate.findIndex p i xs = Ok (Some k) ->
  exists j, k = (i + j)%nat /\ (j < List.length xs)%nat /\
            p (nth j xs VUndefined) = Ok true /\
            forall j', (j' < j)%nat -> p (nth j' xs VUndefined) = Ok false.
Proof.
  revert i. induction xs as [|x t IH]; intros i; cbn [GptEventUpdate.findIndex].
  - discriminate.
  - destruct (p x) as [[|]|] eqn:E; cbn [bind]; [| |discriminate].
    + intros H. injection H as <-. exists 0%nat. simpl.
      repeat split; try lia; try assumption.
    + intros H. apply IH in H. destruct H as [j [-> [Hl [Hp Hb]]]].
      exists (S j). simpl. repeat split; try lia; try assumption.
      intros [|j'] Hj; [exact E | apply Hb; lia].
Qed.

Lemma findIndex_none (p : value -> result bool) (xs : list value) (i : nat) :
  Forall (fun e => p e = Ok false) xs ->
  GptEventUpdate.findIndex p i xs = Ok None.
Proof.
  intros H. revert i.
  induction H as [|e t H1 H2 IH]; intros i; cbn [GptEventUpdate.findIndex];
    [reflexivity|].
  rewrite H1. cbn [bind]. apply IH.
Qed.

Lemma assign_length (xs : list value) (i : nat) (v : value) :
  List.length (GptEventUpdate.assign xs i v) = List.length xs.
Proof.
  revert i. induction xs as [|x t IH]; intros [|i]; simpl; auto.
Qed.

Lemma nth_assign (xs : list value) (i j : nat) (v : value) :
  (i < List.length xs)%nat ->
  nth j (GptEventUpdate.assign xs i v) VUndefined
  = if Nat.eqb j i then v else nth j xs VUndefined.
Proof.
  revert i j. induction xs as [|x t IH]; intros [|i] [|j]; simpl;
    try lia; try reflexivity.
  intros H. apply IH. lia.
Qed.

Lemma events_of_cache (cache : option value) (es : list value) :
  GptEventUpdate.events_of cache = Ok es ->
  exists props, cache = Some (VObj props) /\
                lookup props (lit "events") = VArr es.
Proof.
  unfold GptEventUpdate.events_of. destruct cache as [c|]; [|discriminate].
  unfold get. destruct (nullish c); [discriminate|]. cbn [bind].
  destruct (field c "events") eqn:E; try discriminate.
  intros H. injection H as ->.
  destruct c; cbn [field] in E;
    try discriminate;
    try (destruct (key_eqb _ _); discriminate).
  now exists props.
Qed.

(** An update of one event touches nothing else: whatever the model
    replies, and whatever state the service is in when the reply arrives,
    [updateSpecificEvent] leaves [lastFetch], the number of cached events
    and every other property of the cached batch (the counters and
    [lastUpdated] among them) as they were; the only event that can change
    is the first one carrying the requested id, which then is the event
    returned; and when the update fails, the event found on entry is
    returned and the state is untouched. *)
Theorem update_touches_one_event (st : GptCrisisService.state)
    (eventId : float) (event : value)
    (reply : GptCrisisService.model_reply) :
  let out := GptEventUpdate.resume JSON_parse today st eventId event reply in
  let r := fst out in
  let st' := snd out in
  GptCrisisService.lastFetch st' = GptCrisisService.lastFetch st /\
  List.length (cached_events st') = List.length (cached_events st) /\
  same_but_events st st' /\
  (forall j,
     nth j (cached_events st') VUndefined
     <> nth j (cached_events st) VUndefined ->
     nth j (cached_events st') VUndefined = r /\
     GptEventUpdate.has_id eventId (nth j (cached_events st) VUndefined)
     = Ok true /\
     forall i, (i < j)%nat ->
       GptEventUpdate.has_id eventId (nth i (cached_events st) VUndefined)
       = Ok false) /\
  (forall m, GptEventUpdate.update JSON_parse today st eventId reply = Throw m ->
     out = (event, st)).
Proof.
  cbv zeta. unfold GptEventUpdate.resume.
  assert (Same : forall s, same_but_events s s).
  { intros s. unfold same_but_events.
    destruct (GptCrisisService.cache s); auto. }
  destruct (GptEventUpdate.update JSON_parse today st eventId reply)
    as [[r st']|m] eqn:U; cbn [fst snd].
  2: { repeat split; auto; try discriminate; now contradiction H. }
  unfold GptEventUpdate.update in U.
  destruct reply as [m|text]; [discriminate|]. cbv zeta in U.
  destruct (JSON_parse _) as [updatedEvent|]; [|discriminate].
  destruct (GptEventUpdate.events_of _) as [es|] eqn:Ev; [|discriminate].
  cbn [bind] in U.
  destruct (GptEventUpdate.findIndex _ 0 es) as [[k|]|] eqn:F;
    cbn [bind] in U; [| |discriminate].
  2: { injection U as <- <-.
       repeat split; auto; try discriminate; now contradiction H. }
  destruct (events_of_cache _ _ Ev) as [props [Hc He]].
  rewrite Hc in U.
  destruct (GptCoercer.processEvent today updatedEvent None) as [processed|];
    [|discriminate].
  cbn [bind] in U. injection U as <- <-.
  apply findIndex_found in F. destruct F as [j [-> [Hl [Hp Hb]]]].
  cbn [Nat.add] in *.
  unfold cached_events, same_but_events. rewrite Hc.
  cbn [GptCrisisService.cache GptCrisisService.lastFetch own_props].
  unfold events_of. cbn [field]. rewrite lookup_set_same, He.
  split; [reflexivity|]. split; [apply assign_length|].
  split; [intros k Hk; now apply lookup_set_other|].
  split; [|discriminate].
  intros i. rewrite nth_assign by exact Hl.
  destruct (Nat.eqb i j) eqn:E.
  - apply Nat.eqb_eq in E. subst i. intros _. repeat split; assumption.
  - intros H. now contradiction H.
Qed.

(** With nothing cached, or with no cached event carrying the requested
    id, [updateSpecificEvent] returns [null] at once: it runs no model and
    leaves the state as it is. *)
Theorem update_without_target (st : GptCrisisService.state)
    (eventId : float) (reply : GptCrisisService.model_reply) :
  GptCrisisService.cache st = None \/
  (exists props es,
     GptCrisisService.cache st = Some (VObj props) /\
     lookup props (lit "events") = VArr es /\
     Forall (fun e => GptEventUpdate.has_id eventId e = Ok false) es) ->
  GptEventUpdate.updateSpecificEvent JSON_parse today st eventId reply
  = Ok (VNull, st, []).
Proof.
  unfold GptEventUpdate.updateSpecificEvent, GptEventUpdate.enter.
  intros [H | [props [es [Hc [He Hf]]]]].
  - rewrite H. reflexivity.
  - rewrite Hc. unfold GptEventUpdate.events_of, get.
    cbn [nullish bind field]. rewrite He. cbn [bind].
    rewrite (findIndex_none _ _ 0 Hf). reflexivity.
Qed.

End EventUpdate.

Section EventUpdateExamples.
Import JsString Js Spec.

Lemma update_without_target_witness :
  GptEventUpdate.updateSpecificEvent Samples.reject_all Samples.today
    Samples.warm 99 (GptCrisisService.Rejected [])
  = Ok (VNull, Samples.warm, []).
Proof.
  apply update_without_target. right.
  eexists. eexists. split; [reflexivity|]. split; [reflexivity|].
  repeat constructor.
Defined.

(** An update that succeeds: the second cached event is replaced by the
    coerced reply, which takes the id 1 that the first event already
    has. *)
Example update_replaces_event :
  exists r st' e2,
    GptEventUpdate.updateSpecificEvent Samples.accept_sparse Samples.today
      Samples.warm 2 (GptCrisisService.Replied [])
    = Ok (r, st', [ModelRun]) /\
    cached_events st' = [nth 0 (cached_events Samples.warm) VUndefined; e2] /\
    e2 = r /\ field r "id" = VNum 1 /\ field r "title" = VStr (lit "X") /\
    field (nth 0 (cached_events Samples.warm) VUndefined) "id" = VNum 1.
Proof.
  do 3 eexists. split; [vm_compute; reflexivity|].
  repeat split; vm_compute; reflexivity.
Qed.

End EventUpdateExamples.

(* ================================================================== *)
(** * Consents and the features they open *)
(* ================================================================== *)

Section JsMaps.
Import JsString Js Spec.

Context {V : Type}.

Lemma get_set_same (m : list (jsstring * V)) (k : jsstring) (v : V) :
  JsMap.get (JsMap.set m k v) k = Some v.
Proof.
  induction m as [|[k' v'] t IH]; simpl.
  - now rewrite key_eqb_refl.
  - destruct (key_eqb k' k) eqn:E; simpl.
    + now rewrite key_eqb_refl.
    + now rewrite E.
Qed.

Lemma key_eqb_neq (a b : jsstring) : a <> b -> key_eqb a b = false.
Proof.
  intros H. destruct (key_eqb a b) eqn:E; [|reflexivity].
  apply key_eqb_eq in E. contradiction.
Qed.

Lemma get_set_other (m : list (jsstring * V)) (k k' : jsstring) (v : V) :
  k' <> k -> JsMap.get (JsMap.set m k v) k' = JsMap.get m k'.
Proof.
  intros Hk. induction m as [|[k0 v0] t IH]; simpl.
  - rewrite key_eqb_neq; auto.
  - destruct (key_eqb k0 k) eqn:E; simpl.
    + apply key_eqb_eq in E. subst k0. rewrite !key_eqb_neq; auto.
    + destruct (key_eqb k0 k'); auto.
Qed.

Lemma get_delete_same (m : list (jsstring * V)) (k : jsstring) :
  JsMap.get (JsMap.delete m k) k = None.
Proof.
  induction m as [|[k' v'] t IH]; simpl; [reflexivity|].
  destruct (key_eqb k' k) eqn:E; simpl; [exact IH|]. now rewrite E.
Qed.

Lemma get_delete_other (m : list (jsstring * V)) (k k' : jsstring) :
  k' <> k -> JsMap.get (JsMap.delete m k) k' = JsMap.get m k'.
Proof.
  intros Hk. induction m as [|[k0 v0] t IH]; simpl; [reflexivity|].
  destruct (key_eqb k0 k) eqn:E; simpl.
  - apply key_eqb_eq in E. subst k0. rewrite key_eqb_neq; auto.
  - destruct (key_eqb k0 k'); auto.
Qed.

End JsMaps.

Section Consents.
Import JsString Js Spec.

Variable thirty_days_before : Z -> Z.


Lemma has_recorded (st : LegalService.state) (id : jsstring) (t now : Z) :
  LegalService.hasUserConsented thirty_days_before
    (LegalService.recordConsent st id t) id now
  = (thirty_days_before now <? t).
Proof.
  unfold LegalService.hasUserConsented, LegalService.recordConsent.
  cbv zeta. now rewrite get_set_same.
Qed.

Lemma has_recorded_other (st : LegalService.state) (id other : jsstring)
    (t now : Z) :
  other <> id ->
  LegalService.hasUserConsented thirty_days_before
    (LegalService.recordConsent st id t) other now
  = LegalService.hasUserConsented thirty_days_before st other now.
Proof.
  intros H. unfold LegalService.hasUserConsented, LegalService.recordConsent.
  cbv zeta. now rewrite get_set_other.
Qed.

(** The life of a consent: once recorded it counts exactly as long as its
    date is later than thirty days before the check; recording or revoking
    it changes the standing of no other disclaimer; revoked or cleared, it
    no longer counts. *)
Theorem consent_lifecycle (st : LegalService.state) (id : jsstring)
    (t now : Z) :
  let has s i := LegalService.hasUserConsented thirty_days_before s i now in
  let st1 := LegalService.recordConsent st id t in
  (has st1 id = true <-> thirty_days_before now < t) /\
  (forall other, other <> id -> has st1 other = has st other) /\
  has (LegalService.revokeConsent st1 id) id = false /\
  (forall other, other <> id ->
     has (LegalService.revokeConsent st id) other = has st other) /\
  has (LegalService.clearAllConsents st1) id = false.
Proof.
  cbv zeta.
  unfold LegalService.hasUserConsented, LegalService.recordConsent,
    LegalService.revokeConsent, LegalService.clearAllConsents.
  cbv zeta. repeat split.
  - rewrite get_set_same. cbn. apply Z.ltb_lt.
  - rewrite get_set_same. cbn. apply Z.ltb_lt.
  - intros other H. now rewrite get_set_other.
  - now rewrite get_delete_same.
  - intros other H. now rewrite get_delete_other.
Qed.

Lemma filter_nil_iff {A : Type} (f : A -> bool) (l : list A) :
  filter f l = [] <-> forall x, In x l -> f x = false.
Proof.
  induction l as [|a t IH]; simpl; [tauto|].
  destruct (f a) eqn:E; split.
  - discriminate.
  - intros H. specialize (H a (or_introl eq_refl)). congruence.
  - intros H x [<- | Hx]; [exact E | now apply IH].
  - intros H. apply IH. intros x Hx. apply H. now right.
Qed.

Lemma length_zero_iff {A : Type} (l : list A) :
  Nat.eqb (List.length l) 0 = true <-> l = [].
Proof. destruct l; simpl; split; congruence. Qed.

Lemma check_all_iff (st : LegalService.state) (feature : jsstring) (now : Z) :
  LegalService.hasAllConsents
    (LegalService.checkRequiredConsents thirty_days_before st feature now)
  = true <->
  forall d, In d (LegalService.getRequiredDisclaimers (Some feature)) ->
    LegalService.hasUserConsented thirty_days_before st (LegalService.id d) now
    = true.
Proof.
  unfold LegalService.checkRequiredConsents. cbv zeta.
  cbn [LegalService.hasAllConsents].
  rewrite length_zero_iff, filter_nil_iff. split; intros H d Hd.
  - specialize (H d Hd). now apply negb_false_iff in H.
  - apply negb_false_iff. now apply H.
Qed.

(** The consent check is exact: [hasAllConsents] is true exactly when no
    consent is missing, which is when every required disclaimer of the
    feature has a standing consent; the missing ones are exactly the
    disclaimers of the catalogue that must be acknowledged, belong to the
    feature (to any category when the feature is the empty string) and
    have no standing consent; and the required disclaimers of a category
    are those of its disclaimers that must be acknowledged. *)
Theorem consent_check_exact (st : LegalService.state) (feature : jsstring)
    (now : Z) :
  let has i := LegalService.hasUserConsented thirty_days_before st i now in
  let r :=
    LegalService.checkRequiredConsents thirty_days_before st feature now in
  (LegalService.hasAllConsents r = true <->
   LegalService.missingConsents r = []) /\
  (LegalService.hasAllConsents r = true <->
   forall d, In d (LegalService.getRequiredDisclaimers (Some feature)) ->
             has (LegalService.id d) = true) /\
  (forall d,
     In d (LegalService.missingConsents r) <->
     In d LegalService.FINANCIAL_DISCLAIMERS /\
     LegalService.userMustAcknowledge d = true /\
     (feature = [] \/ LegalService.category d = feature) /\
     has (LegalService.id d) = false) /\
  (forall category d,
     In d (LegalService.getRequiredDisclaimers category) <->
     In d (LegalService.getAllDisclaimers category) /\
     LegalService.userMustAcknowledge d = true).
Proof.
  cbv zeta. unfold LegalService.checkRequiredConsents. cbv zeta.
  cbn [LegalService.hasAllConsents LegalService.missingConsents].
  split; [apply length_zero_iff|]. split; [|split].
  - apply check_all_iff.
  - intros d. rewrite filter_In. unfold LegalService.getRequiredDisclaimers.
    rewrite filter_In, negb_true_iff, andb_true_iff, orb_true_iff.
    unfold LegalService.absent, LegalService.in_category.
    rewrite key_eqb_eq.
    destruct feature as [|c f]; intuition congruence.
  - intros category d.
    unfold LegalService.getRequiredDisclaimers, LegalService.getAllDisclaimers.
    rewrite !filter_In, andb_true_iff. tauto.
Qed.

Lemma has_after_accepting (accepted : list jsstring)
    (st : LegalService.state) (i : jsstring) (t now : Z) :
  thirty_days_before now < t ->
  LegalService.hasUserConsented thirty_days_before
    (fold_left (fun s a => LegalService.recordConsent s a t) accepted st)
    i now = true <->
  In i accepted \/
  LegalService.hasUserConsented thirty_days_before st i now = true.
Proof.
  intros Ht. revert st.
  induction accepted as [|a l IH]; intros st; cbn [fold_left In]; [tauto|].
  rewrite IH.
  destruct (list_eq_dec N.eq_dec i a) as [->|Hn].
  - rewrite has_recorded. apply Z.ltb_lt in Ht. rewrite Ht. tauto.
  - rewrite (has_recorded_other st a i t now Hn). intuition congruence.
Qed.

(** Acknowledging what is missing unlocks the feature: once a consent is
    recorded for every disclaimer the check reported missing (and for any
    others), at a date within thirty days of the check, the same check
    reports that all consents are given. *)
Theorem acknowledging_unlocks (st : LegalService.state)
    (feature : jsstring) (accepted : list jsstring) (t now : Z) :
  thirty_days_before now < t ->
  (forall d,
     In d (LegalService.missingConsents
             (LegalService.checkRequiredConsents thirty_days_before st
                feature now)) ->
     In (LegalService.id d) accepted) ->
  LegalService.hasAllConsents
    (LegalService.checkRequiredConsents thirty_days_before
       (fold_left (fun s a => LegalService.recordConsent s a t) accepted st)
       feature now) = true.
Proof.
  intros Ht Hm. apply check_all_iff. intros d Hd.
  apply has_after_accepting; [exact Ht|].
  destruct (LegalService.hasUserConsented thirty_days_before st
              (LegalService.id d) now) eqn:E; [now right|].
  left. apply Hm.
  unfold LegalService.checkRequiredConsents. cbv zeta.
  cbn [LegalService.missingConsents]. apply filter_In. split; [exact Hd|].
  now rewrite E.
Qed.

End Consents.

Section ConsentExamples.
Import JsString Js Spec.

Lemma acknowledging_unlocks_witness :
  LegalService.hasAllConsents
    (LegalService.checkRequiredConsents Samples.a_month_before []
       (lit "trading") 5000) = false /\
  LegalService.hasAllConsents
    (LegalService.checkRequiredConsents Samples.a_month_before
       (fold_left (fun s a => LegalService.recordConsent s a 4000)
                  [lit "high-risk-warning"] [])
       (lit "trading") 5000) = true.
Proof.
  split; [reflexivity|].
  apply acknowledging_unlocks; [reflexivity|].
  intros d H. vm_compute in H. destruct H as [<- | []].
  vm_compute. now left.
Defined.

End ConsentExamples.

Section FeatureGates.
Import JsString Js Spec.

Variable thirty_days_before : Z -> Z.

Lemma check_single (st : LegalService.state) (feature : jsstring) (now : Z)
    (d : LegalService.LegalDisclaimer) :
  LegalService.getRequiredDisclaimers (Some feature) = [d] ->
  LegalService.hasAllConsents
    (LegalService.checkRequiredConsents thirty_days_before st feature now)
  = LegalService.hasUserConsented thirty_days_before st (LegalService.id d) now.
Proof.
  intros H. unfold LegalService.checkRequiredConsents. cbv zeta. rewrite H.
  cbn [filter LegalService.hasAllConsents].
  now destruct (LegalService.hasUserConsented _ st _ now).
Qed.

(** Which consent opens which feature.  [loadFeature] switches
    [tradingSignals] on when the high-risk warning has a standing consent,
    [profitPredictions] when the AI-predictions warning has one and
    [portfolioAnalysis] when the not-financial-advice notice has one,
    provided the module loads; it never switches a feature off; the effect
    run on mount ties [portfolioAnalysis] to the high-risk warning
    instead; and a name that is none of the three changes no feature and
    leaves an error message. *)
Theorem feature_gates (st : FinancialFeatures.state)
    (consents : LegalService.state) (module : FinancialFeatures.imported)
    (now later : Z) :
  let has id :=
    LegalService.hasUserConsented thirty_days_before consents (lit id) now in
  let loaded :=
    match module with
    | FinancialFeatures.Loaded => true
    | FinancialFeatures.Failed _ => false
    end in
  let before := FinancialFeatures.featuresEnabled st in
  let after name :=
    FinancialFeatures.featuresEnabled
      (FinancialFeatures.loadFeature thirty_days_before st consents
         (lit name) module now later) in
  after "tradingSignals"%string
  = {| FinancialFeatures.tradingSignals :=
         FinancialFeatures.tradingSignals before
         || loaded && has "high-risk-warning"%string;
       FinancialFeatures.profitPredictions :=
         FinancialFeatures.profitPredictions before;
       FinancialFeatures.portfolioAnalysis :=
         FinancialFeatures.portfolioAnalysis before |} /\
  after "profitPredictions"%string
  = {| FinancialFeatures.tradingSignals :=
         FinancialFeatures.tradingSignals before;
       FinancialFeatures.profitPredictions :=
         FinancialFeatures.profitPredictions before
         || loaded && has "ai-predictions-warning"%string;
       FinancialFeatures.portfolioAnalysis :=
         FinancialFeatures.portfolioAnalysis before |} /\
  after "portfolioAnalysis"%string
  = {| FinancialFeatures.tradingSignals :=
         FinancialFeatures.tradingSignals before;
       FinancialFeatures.profitPredictions :=
         FinancialFeatures.profitPredictions before;
       FinancialFeatures.portfolioAnalysis :=
         FinancialFeatures.portfolioAnalysis before
         || loaded && has "not-financial-advice"%string |} /\
  FinancialFeatures.featuresEnabled
    (FinancialFeatures.checkInitialConsents thirty_days_before st consents now)
  = {| FinancialFeatures.tradingSignals := has "high-risk-warning"%string;
       FinancialFeatures.profitPredictions := has "ai-predictions-warning"%string;
       FinancialFeatures.portfolioAnalysis := has "high-risk-warning"%string |} /\
  (forall name,
     FinancialFeatures.enable name before = None ->
     let st' := FinancialFeatures.loadFeature thirty_days_before st consents
                  name module now later in
     FinancialFeatures.featuresEnabled st' = before /\
     FinancialFeatures.error st' <> None).
Proof.
  cbv zeta.
  assert (T : forall id feature d,
            LegalService.getRequiredDisclaimers (Some feature) = [d] ->
            LegalService.id d = id ->
            LegalService.hasAllConsents
              (LegalService.checkRequiredConsents thirty_days_before consents
                 feature now)
            = LegalService.hasUserConsented thirty_days_before consents id now).
  { intros id feature d H <-. now apply check_single. }
  destruct st as [l c [ts pp pa] ld e].
  cbn [FinancialFeatures.featuresEnabled FinancialFeatures.tradingSignals
       FinancialFeatures.profitPredictions FinancialFeatures.portfolioAnalysis].
  unfold FinancialFeatures.loadFeature, FinancialFeatures.checkInitialConsents.
  cbv zeta.
  change (FinancialFeatures.consentCategory (lit "tradingSignals"))
    with (lit "trading").
  change (FinancialFeatures.consentCategory (lit "profitPredictions"))
    with (lit "predictions").
  change (FinancialFeatures.consentCategory (lit "portfolioAnalysis"))
    with (lit "general").
  rewrite (T (lit "high-risk-warning") (lit "trading") _ eq_refl eq_refl).
  rewrite (T (lit "ai-predictions-warning") (lit "predictions") _
             eq_refl eq_refl).
  rewrite (T (lit "not-financial-advice") (lit "general") _ eq_refl eq_refl).
  cbn [FinancialFeatures.featuresEnabled].
  repeat split.
  - destruct (LegalService.hasUserConsented _ consents
                (lit "high-risk-warning") now), module, ts; reflexivity.
  - destruct (LegalService.hasUserConsented _ consents
                (lit "ai-predictions-warning") now), module, pp; reflexivity.
  - destruct (LegalService.hasUserConsented _ consents
                (lit "not-financial-advice") now), module, pa; reflexivity.
  - destruct (negb _); cbn [FinancialFeatures.featuresEnabled];
      [reflexivity|]. rewrite H. reflexivity.
  - destruct (negb _); cbn [FinancialFeatures.error];
      [discriminate|]. rewrite H. discriminate.
Qed.

End FeatureGates.

(* ================================================================== *)
(** * The news service *)
(* ================================================================== *)

Section NewsLocations.
Import JsString Js Spec.

Variable toLowerCase : jsstring -> jsstring.

Lemma includes_infix (s n : jsstring) :
  DataValidator.includes s n = true <-> infix n s.
Proof.
  induction s as [|c t IH]; cbn [DataValidator.includes].
  - destruct (strip_prefix n []) as [r|] eqn:E.
    + apply strip_prefix_Some in E. split; [intros _|reflexivity].
      exists [], r. exact E.
    + split; [discriminate|]. intros [a [b H]].
      destruct a; [|discriminate]. simpl in H.
      assert (strip_prefix n [] = Some b) by now apply strip_prefix_Some.
      congruence.
  - destruct (strip_prefix n (c :: t)) as [r|] eqn:E.
    + apply strip_prefix_Some in E. split; [intros _|reflexivity].
      exists [], r. exact E.
    + rewrite IH. split.
      * now apply infix_cons.
      * intros [a [b H]]. destruct a as [|x a].
        -- simpl in H.
           assert (strip_prefix n (c :: t) = Some b)
             by now apply strip_prefix_Some.
           congruence.
        -- injection H as _ H. now exists a, b.
Qed.

Lemma find_first {A : Type} (f : A -> bool) (l : list A) (x : A) :
  find f l = Some x ->
  exists pre post, l = pre ++ x :: post /\ f x = true /\
                   forall y, In y pre -> f y = false.
Proof.
  induction l as [|a t IH]; simpl; [discriminate|].
  destruct (f a) eqn:E.
  - intros H. injection H as <-. exists [], t. repeat split; auto.
    intros y [].
  - intros H. destruct (IH H) as [pre [post [-> [Hx Hp]]]].
    exists (a :: pre), post. repeat split; auto.
    intros y [<- | Hy]; auto.
Qed.

(** A location is extracted exactly when the lower-cased text mentions
    one of the fourteen countries; it then names the first of them that
    the text mentions, with the region the map gives it, which is never
    the default 'Unknown'. *)
Theorem extractLocation_region_known (text : jsstring) :
  match NewsService.extractLocation toLowerCase text with
  | Some l =>
      In (NewsService.country l) NewsService.countries /\
      infix (toLowerCase (NewsService.country l)) (toLowerCase text) /\
      JsMap.get NewsService.regionMap (NewsService.country l)
      = Some (NewsService.region l) /\
      NewsService.region l <> lit "Unknown" /\
      exists earlier later,
        NewsService.countries = earlier ++ NewsService.country l :: later /\
        forall c, In c earlier -> ~ infix (toLowerCase c) (toLowerCase text)
  | None =>
      forall c, In c NewsService.countries ->
                ~ infix (toLowerCase c) (toLowerCase text)
  end.
Proof.
  unfold NewsService.extractLocation. cbv zeta.
  destruct (find _ NewsService.countries) as [c|] eqn:F.
  - pose proof (find_first _ _ _ F) as [pre [post [Hpre [_ Hearlier]]]].
    apply find_some in F. destruct F as [Hin Hinc].
    apply includes_infix in Hinc.
    assert (K : exists x y, c = x :: y /\
              JsMap.get NewsService.regionMap c
              = Some (NewsService.getRegionForCountry c) /\
              NewsService.getRegionForCountry c <> lit "Unknown").
    { clear Hinc Hpre. simpl in Hin.
      repeat (destruct Hin as [<- | Hin];
              [do 2 eexists; split; [vm_compute; reflexivity|];
               split; [vm_compute; reflexivity | vm_compute; discriminate] |]).
      contradiction. }
    destruct K as [x [y [-> [K1 K2]]]].
    cbn [NewsService.country NewsService.region].
    repeat split; try assumption.
    exists pre, post. split; [exact Hpre|].
    intros c Hc Hinf. apply includes_infix in Hinf.
    rewrite (Hearlier c Hc) in Hinf. discriminate.
  - intros c Hc Hinf. apply includes_infix in Hinf.
    pose proof (find_none _ _ F c Hc) as H. cbv beta in H. congruence.
Qed.

End NewsLocations.

Section NewsDuplicates.
Import JsString Js Spec.

Variable toLowerCase : jsstring -> jsstring.

Lemma seen_In (k : jsstring) (seen : list jsstring) :
  existsb (key_eqb k) seen = true <-> In k seen.
Proof.
  rewrite existsb_exists. split.
  - intros [x [Hx E]]. apply key_eqb_eq in E. now subst x.
  - intros H. exists k. split; [exact H | apply key_eqb_refl].
Qed.

Lemma title_key_Ok (a : value) (k : jsstring) :
  NewsService.key toLowerCase a = Ok k -> title_key toLowerCase a = k.
Proof. unfold title_key. now intros ->. Qed.

Lemma removeDuplicates_from_spec (l : list value) :
  forall seen out,
    NewsService.removeDuplicates_from toLowerCase seen l = Ok out ->
    subseq out l /\
    Forall (titled toLowerCase) l /\
    NoDup (List.map (title_key toLowerCase) out) /\
    (forall a, In a out -> ~ In (title_key toLowerCase a) seen) /\
    (forall a, In a l ->
       In (title_key toLowerCase a) seen \/
       In (title_key toLowerCase a) (List.map (title_key toLowerCase) out)).
Proof.
  induction l as [|a t IH]; intros seen out;
    cbn [NewsService.removeDuplicates_from].
  - intros H. injection H as <-.
    repeat split; try constructor; simpl in *; contradiction.
  - destruct (NewsService.key toLowerCase a) as [k|] eqn:K; [|discriminate].
    cbn [bind]. pose proof (title_key_Ok a k K) as Tk.
    destruct (existsb (key_eqb k) seen) eqn:S.
    + intros H. apply IH in H. destruct H as [H1 [H2 [H3 [H4 H5]]]].
      apply seen_In in S. repeat split; try assumption.
      * now apply subseq_drop.
      * constructor; [now exists k | exact H2].
      * intros b [<- | Hb]; [left; now rewrite Tk | now apply H5].
    + destruct (NewsService.removeDuplicates_from toLowerCase (k :: seen) t)
        as [t'|] eqn:R; [|discriminate].
      cbn [bind]. intros H. injection H as <-.
      apply IH in R. destruct R as [H1 [H2 [H3 [H4 H5]]]].
      assert (Hs : ~ In k seen).
      { intros Hin. apply seen_In in Hin. congruence. }
      repeat split.
      * now apply subseq_keep.
      * constructor; [now exists k | exact H2].
      * cbn [List.map]. rewrite Tk. constructor; [|exact H3].
        intros Hin. apply in_map_iff in Hin. destruct Hin as [b [Eb Hb]].
        apply (H4 b Hb). rewrite Eb. now left.
      * intros b [<- | Hb]; [now rewrite Tk|].
        intros Hin. apply (H4 b Hb). now right.
      * intros b [<- | Hb].
        -- right. cbn [List.map]. now left.
        -- destruct (H5 b Hb) as [[E | Hin] | Hin].
           ++ right. cbn [List.map]. left. now rewrite Tk.
           ++ now left.
           ++ right. cbn [List.map]. now right.
Qed.

Lemma removeDuplicates_from_fixed (out : list value) :
  forall seen,
    Forall (titled toLowerCase) out ->
    NoDup (List.map (title_key toLowerCase) out) ->
    (forall a, In a out -> ~ In (title_key toLowerCase a) seen) ->
    NewsService.removeDuplicates_from toLowerCase seen out = Ok out.
Proof.
  induction out as [|a t IH]; intros seen Ht Hn Hs; [reflexivity|].
  cbn [NewsService.removeDuplicates_from].
  apply Forall_cons_iff in Ht. destruct Ht as [[k K] Ht'].
  rewrite K. cbn [bind]. pose proof (title_key_Ok a k K) as Tk.
  cbn [List.map] in Hn. rewrite Tk in Hn.
  apply NoDup_cons_iff in Hn. destruct Hn as [Hk Hn'].
  destruct (existsb (key_eqb k) seen) eqn:S.
  - apply seen_In in S. exfalso. apply (Hs a (or_introl eq_refl)).
    now rewrite Tk.
  - rewrite IH; [reflexivity | exact Ht' | exact Hn' |].
    intros b Hb [E | Hin].
    + apply Hk. rewrite E. now apply in_map.
    + apply (Hs b (or_intror Hb) Hin).
Qed.

Lemma subseq_Forall {A : Type} (P : A -> Prop) (out l : list A) :
  subseq out l -> Forall P l -> Forall P out.
Proof.
  induction 1 as [|c out s Hs IH|c out s Hs IH]; intros HP; [constructor| |].
  - apply Forall_cons_iff in HP. now apply IH.
  - apply Forall_cons_iff in HP. constructor; [apply HP | now apply IH].
Qed.

Lemma removeDuplicates_distinct (articles out : list value) :
  NewsService.removeDuplicates toLowerCase articles = Ok out ->
  subseq out articles /\ distinct_titles toLowerCase out.
Proof.
  intros H.
  pose proof (removeDuplicates_from_spec _ _ _ H) as [H1 [H2 [H3 _]]].
  split; [exact H1|]. split; [|exact H3].
  eapply subseq_Forall; eassumption.
Qed.

(** When [removeDuplicates] returns, what it returns is its input with
    some articles left out, no two of those kept share a title (lower
    case, trimmed), every title of the input is still represented, the
    first article is always kept, and removing duplicates again changes
    nothing. *)
Theorem removeDuplicates_keeps_one_per_title (articles out : list value) :
  NewsService.removeDuplicates toLowerCase articles = Ok out ->
  subseq out articles /\
  distinct_titles toLowerCase out /\
  (forall a, In a articles ->
     exists b, In b out /\ title_key toLowerCase b = title_key toLowerCase a) /\
  hd_error out = hd_error articles /\
  NewsService.removeDuplicates toLowerCase out = Ok out.
Proof.
  unfold NewsService.removeDuplicates. intros H.
  pose proof (removeDuplicates_from_spec _ _ _ H) as [H1 [H2 [H3 [H4 H5]]]].
  assert (Ht : Forall (titled toLowerCase) out)
    by (eapply subseq_Forall; eassumption).
  split; [exact H1|]. split; [now split|]. split; [|split].
  - intros a Ha. destruct (H5 a Ha) as [[] | Hin].
    apply in_map_iff in Hin. destruct Hin as [b [E Hb]]. now exists b.
  - destruct articles as [|a t]; cbn [NewsService.removeDuplicates_from] in H.
    + now injection H as <-.
    + destruct (NewsService.key toLowerCase a); [|discriminate].
      cbn [bind existsb] in H.
      destruct (NewsService.removeDuplicates_from _ _ t); [|discriminate].
      cbn [bind] in H. now injection H as <-.
  - apply removeDuplicates_from_fixed; auto.
Qed.

End NewsDuplicates.

Section NewsDuplicatesExamples.
Import JsString Js Spec.

Lemma removeDuplicates_keeps_one_per_title_witness :
  exists out,
    NewsService.removeDuplicates Samples.ascii_lower Samples.headlines
    = Ok out /\
    List.length out = 2%nat /\
    distinct_titles Samples.ascii_lower out.
Proof.
  eexists. split; [vm_compute; reflexivity|]. split; [reflexivity|].
  apply (removeDuplicates_keeps_one_per_title Samples.ascii_lower
           Samples.headlines).
  vm_compute. reflexivity.
Defined.

End NewsDuplicatesExamples.

Section NewsDigests.
Import JsString Js Spec.

Variable toLowerCase : jsstring -> jsstring.
Variable sort_by_relevance : list value -> list value.

Lemma NoDup_firstn {A : Type} (n : nat) (l : list A) :
  NoDup l -> NoDup (firstn n l).
Proof.
  intros H. rewrite <- (firstn_skipn n l) in H.
  now apply NoDup_app_remove_r in H.
Qed.

Lemma distinct_titles_perm (l l' : list value) :
  Permutation l' l ->
  distinct_titles toLowerCase l -> distinct_titles toLowerCase l'.
Proof.
  intros P [H1 H2]. split.
  - rewrite Forall_forall in *. intros a Ha. apply H1.
    eapply Permutation_in; eassumption.
  - eapply Permutation_NoDup; [|exact H2].
    apply Permutation_sym, Permutation_map, P.
Qed.

Lemma distinct_titles_firstn (n : nat) (l : list value) :
  distinct_titles toLowerCase l -> distinct_titles toLowerCase (firstn n l).
Proof.
  intros [H1 H2]. split.
  - rewrite Forall_forall in *. intros a Ha. apply H1.
    rewrite <- (firstn_skipn n l). apply in_or_app. now left.
  - rewrite <- firstn_map. now apply NoDup_firstn.
Qed.

Lemma digest_ok_digest (r1 r2 r3 : option (list value)) (now : Z)
    (d : NewsService.ConflictNews) :
  (forall l, Permutation (sort_by_relevance l) l) ->
  NewsService.digest toLowerCase sort_by_relevance r1 r2 r3 now = Ok d ->
  digest_ok toLowerCase d /\
  forall a, In a (NewsService.articles d) ->
    In a (NewsService.fulfilled r1 ++ NewsService.fulfilled r2
          ++ NewsService.fulfilled r3).
Proof.
  intros Hsort. unfold NewsService.digest. cbv zeta.
  destruct (NewsService.removeDuplicates toLowerCase _) as [u|] eqn:R;
    [|discriminate].
  cbn [bind]. intros H.
  assert (E : d = {| NewsService.articles := firstn 50 (sort_by_relevance u);
                     NewsService.lastUpdated := now;
                     NewsService.totalResults :=
                       List.length (sort_by_relevance u) |}) by congruence.
  clear H. subst d.
  apply removeDuplicates_distinct in R.
  destruct R as [Hsub Hd].
  unfold digest_ok. cbn [NewsService.articles NewsService.totalResults].
  repeat split.
  - rewrite length_firstn. lia.
  - rewrite length_firstn. lia.
  - apply distinct_titles_firstn, (distinct_titles_perm u); auto.
  - apply distinct_titles_firstn, (distinct_titles_perm u); auto.
  - intros a Ha. apply (subseq_In _ _ _ Hsub).
    apply (Permutation_in _ (Hsort u)).
    rewrite <- (firstn_skipn 50 (sort_by_relevance u)).
    apply in_or_app. now left.
Qed.

Lemma get_set_cases {V : Type} (m : list (jsstring * V)) (k k' : jsstring)
    (v v' : V) :
  JsMap.get (JsMap.set m k v) k' = Some v' ->
  v' = v \/ JsMap.get m k' = Some v'.
Proof.
  destruct (list_eq_dec N.eq_dec k' k) as [->|H].
  - rewrite get_set_same. intros E. left. congruence.
  - rewrite get_set_other by exact H. now right.
Qed.

(** Every digest that [getConflictNews] returns or stores holds at most
    fifty articles, no two of them with the same title (lower case,
    trimmed), and a [totalResults] that is no less than their number,
    provided the digests already stored do; the articles of a digest built
    on a miss all come from the three sources. *)
Theorem news_digests_bounded (st : NewsService.state)
    (keywords : list jsstring) (r1 r2 r3 : option (list value))
    (clk : clock) :
  (forall l, Permutation (sort_by_relevance l) l) ->
  (forall k d t, JsMap.get st k = Some (d, t) -> digest_ok toLowerCase d) ->
  let out := NewsService.getConflictNews toLowerCase sort_by_relevance st
               keywords r1 r2 r3 clk in
  digest_ok toLowerCase (fst out) /\
  (forall k d t, JsMap.get (snd out) k = Some (d, t) ->
                 digest_ok toLowerCase d) /\
  (NewsService.cached st (NewsService.join keywords) (at_entry clk) = None ->
   forall a, In a (NewsService.articles (fst out)) ->
     In a (NewsService.fulfilled r1 ++ NewsService.fulfilled r2
           ++ NewsService.fulfilled r3)).
Proof.
  intros Hsort Hst. cbv zeta. unfold NewsService.getConflictNews. cbv zeta.
  destruct (NewsService.cached st _ _) as [data|] eqn:C.
  - cbn [fst snd]. split; [|split; [exact Hst | discriminate]].
    unfold NewsService.cached in C.
    destruct (JsMap.get st _) as [[d t]|] eqn:G; [|discriminate].
    destruct (_ <? _); [|discriminate]. injection C as <-.
    eapply Hst; eassumption.
  - destruct (NewsService.digest _ _ r1 r2 r3 _) as [d|] eqn:D;
      cbn [fst snd].
    + destruct (digest_ok_digest _ _ _ _ _ Hsort D) as [Hd Hin].
      split; [exact Hd|]. split; [|intros _; exact Hin].
      intros k d' t G. apply get_set_cases in G.
      destruct G as [E | G]; [now injection E as -> _ | eapply Hst; eassumption].
    + split; [|split; [exact Hst|]].
      * unfold digest_ok. cbn. repeat split; try lia; constructor.
      * intros _ a [].
Qed.

(** The cache of the news service is keyed by the keywords joined with
    commas: within five minutes of a digest stored for one list of
    keywords, a request for any list with the same joined text is answered
    with that digest, and the service is left as it was. *)
Theorem news_cache_keyed_by_join (st : NewsService.state)
    (asked again : list jsstring) (r1 r2 r3 r1' r2' r3' : option (list value))
    (clk clk' : clock) (d : NewsService.ConflictNews) :
  NewsService.cached st (NewsService.join asked) (at_entry clk) = None ->
  NewsService.digest toLowerCase sort_by_relevance r1 r2 r3 (at_result clk)
  = Ok d ->
  NewsService.join again = NewsService.join asked ->
  at_entry clk' - at_store clk < NewsService.CACHE_DURATION ->
  let first := NewsService.getConflictNews toLowerCase sort_by_relevance st
                 asked r1 r2 r3 clk in
  fst first = d /\
  NewsService.getConflictNews toLowerCase sort_by_relevance (snd first)
    again r1' r2' r3' clk' = (d, snd first).
Proof.
  intros C D J F. cbv zeta.
  assert (E : NewsService.getConflictNews toLowerCase sort_by_relevance st
                asked r1 r2 r3 clk
              = (d, JsMap.set st (NewsService.join asked) (d, at_store clk))).
  { unfold NewsService.getConflictNews. cbv zeta. now rewrite C, D. }
  rewrite E. cbn [fst snd]. split; [reflexivity|].
  unfold NewsService.getConflictNews. cbv zeta. rewrite J.
  unfold NewsService.cached at 1. rewrite get_set_same.
  apply Z.ltb_lt in F. now rewrite F.
Qed.

End NewsDigests.

Section NewsDigestsExamples.
Import JsString Js Spec.

Lemma news_digests_bounded_witness :
  digest_ok Samples.ascii_lower
    (fst (NewsService.getConflictNews Samples.ascii_lower (fun l => l) []
            [lit "war"] (Some Samples.headlines) None (Some []) Samples.noon)).
Proof.
  apply (news_digests_bounded Samples.ascii_lower (fun l => l) []).
  - intros l. apply Permutation_refl.
  - intros k d t H. discriminate H.
Defined.

Lemma news_cache_keyed_by_join_witness :
  exists d,
    NewsService.getConflictNews Samples.ascii_lower (fun l => l)
      (snd (NewsService.getConflictNews Samples.ascii_lower (fun l => l) []
              [lit "oil,gas"] (Some Samples.headlines) None None Samples.noon))
      [lit "oil"; lit "gas"] None None None Samples.noon
    = (d, snd (NewsService.getConflictNews Samples.ascii_lower (fun l => l) []
                 [lit "oil,gas"] (Some Samples.headlines) None None
                 Samples.noon)) /\
    List.length (NewsService.articles d) = 2%nat.
Proof.
  eexists. split.
  - apply (news_cache_keyed_by_join Samples.ascii_lower (fun l => l) []
             [lit "oil,gas"] [lit "oil"; lit "gas"]
             (Some Samples.headlines) None None None None None
             Samples.noon Samples.noon);
      [reflexivity | vm_compute; reflexivity | reflexivity | reflexivity].
  - reflexivity.
Defined.

End NewsDigestsExamples.

Section NewsKeywords.
Import JsString Js Spec.

Variable toLowerCase : jsstring -> jsstring.

(** The first piece of a split is a prefix of the text, empty when the
    text begins with whitespace; the other pieces occur in the text. *)
Lemma split_spec (s : jsstring) :
  exists w rest,
    NewsService.split s = w :: rest /\
    (exists r, s = w ++ r) /\
    (forall c t, s = c :: t -> is_ws c = true -> w = []) /\
    (forall x, In x rest -> infix x s).
Proof.
  induction s as [|c t IH].
  - exists [], []. repeat split; [now exists []|intros x []].
  - destruct IH as [w0 [rest0 [E0 [[r Hr] [Hw Hrest]]]]].
    cbn [NewsService.split]. rewrite E0.
    destruct (is_ws c) eqn:Ec.
    + destruct t as [|c' t'].
      * exists [], (w0 :: rest0). repeat split.
        -- now exists [c].
        -- intros x [<- | Hx]; apply infix_cons;
             [exists [], r; exact Hr | now apply Hrest].
      * destruct (is_ws c') eqn:Ec'.
        -- assert (w0 = []) by (eapply Hw; [reflexivity | exact Ec']).
           subst w0. exists [], rest0. repeat split.
           ++ now exists (c :: c' :: t').
           ++ intros x Hx. now apply infix_cons, Hrest.
        -- exists [], (w0 :: rest0). repeat split.
           ++ now exists (c :: c' :: t').
           ++ intros x [<- | Hx]; apply infix_cons;
                [exists [], r; exact Hr | now apply Hrest].
    + exists (c :: w0), rest0. repeat split.
      * exists r. simpl. now rewrite <- Hr.
      * intros c0 t0 H Hc0. injection H as <- _. congruence.
      * intros x Hx. now apply infix_cons, Hrest.
Qed.

Lemma split_words_infix (s x : jsstring) :
  In x (NewsService.split s) -> infix x s.
Proof.
  destruct (split_spec s) as [w [rest [E [[r Hr] [_ Hrest]]]]].
  rewrite E. intros [<- | Hx]; [exists [], r; exact Hr | now apply Hrest].
Qed.

Lemma split_head_extends (p s r : jsstring) :
  forallb (fun c => negb (is_ws c)) p = true ->
  s = p ++ r ->
  exists q rest, NewsService.split s = (p ++ q) :: rest.
Proof.
  revert s. induction p as [|a p IH]; intros s Hp ->.
  - destruct (split_spec r) as [w [rest [E _]]]. simpl. now exists w, rest.
  - cbn [forallb] in Hp. apply andb_true_iff in Hp. destruct Hp as [Ha Hp].
    apply negb_true_iff in Ha.
    destruct (IH (p ++ r) Hp eq_refl) as [q [rest E]].
    exists q, rest. cbn [app NewsService.split]. now rewrite Ha, E.
Qed.

Lemma split_covers (term s : jsstring) :
  forallb (fun c => negb (is_ws c)) term = true ->
  infix term s ->
  exists w, In w (NewsService.split s) /\ infix term w.
Proof.
  intros Ht. induction s as [|c t IH]; intros [a [b H]].
  - destruct a; [|discriminate]. destruct term; [|discriminate].
    exists []. split; [now left | apply infix_refl].
  - destruct a as [|x a].
    + (* the term begins the text *)
      destruct (split_head_extends term (c :: t) b Ht H) as [q [rest E]].
      exists (term ++ q). rewrite E. split; [now left|]. now exists [], q.
    + injection H as Hc H. subst x.
      destruct (IH (ex_intro _ a (ex_intro _ b H))) as [w [Hw Hi]].
      destruct (split_spec t) as [w0 [rest0 [E0 _]]]. rewrite E0 in Hw.
      cbn [NewsService.split]. rewrite E0.
      destruct (is_ws c).
      * exists w. split; [|exact Hi].
        destruct t as [|c' t']; [now right|].
        destruct (is_ws c'); [exact Hw | now right].
      * destruct Hw as [<- | Hw].
        -- exists (c :: w0). split; [now left | now apply infix_cons].
        -- exists w. split; [now right | exact Hi].
Qed.

Lemma terms_have_no_space :
  forallb (fun term => forallb (fun c => negb (is_ws c)) term)
          NewsService.conflictTerms = true.
Proof. vm_compute. reflexivity. Qed.

Lemma term_in_a_word (text term : jsstring) :
  In term NewsService.conflictTerms ->
  (DataValidator.includes (toLowerCase text) term = true <->
   exists word, In word (NewsService.words toLowerCase text) /\
                DataValidator.includes word term = true).
Proof.
  intros Hin.
  pose proof terms_have_no_space as Hs. rewrite forallb_forall in Hs.
  specialize (Hs term Hin). unfold NewsService.words. split.
  - intros H. apply includes_infix in H.
    destruct (split_covers term _ Hs H) as [w [Hw Hi]].
    exists w. split; [exact Hw | now apply includes_infix].
  - intros [w [Hw Hi]]. apply includes_infix. apply includes_infix in Hi.
    eapply infix_trans; [exact Hi | now apply split_words_infix].
Qed.

(** The keywords of an article and its relevance score go together: a
    conflict term is among the extracted keywords exactly when some word
    of the lower-cased text contains it, so no keyword is extracted
    exactly when the score counts no matching word. *)
Theorem keywords_match_relevance (text : jsstring) :
  (forall term,
     In term (NewsService.extractConflictKeywords toLowerCase text) <->
     In term NewsService.conflictTerms /\
     exists word, In word (NewsService.words toLowerCase text) /\
                  DataValidator.includes word term = true) /\
  (NewsService.extractConflictKeywords toLowerCase text = [] <->
   NewsService.matches toLowerCase text = []).
Proof.
  assert (K : forall term,
            In term (NewsService.extractConflictKeywords toLowerCase text) <->
            In term NewsService.conflictTerms /\
            exists word, In word (NewsService.words toLowerCase text) /\
                         DataValidator.includes word term = true).
  { intros term. unfold NewsService.extractConflictKeywords.
    rewrite filter_In.
    change NewsService.keywords with NewsService.conflictTerms.
    split; intros [Hin H]; (split; [exact Hin|]);
      now apply (term_in_a_word text term Hin). }
  split; [exact K|].
  unfold NewsService.matches. rewrite filter_nil_iff. split.
  - intros E word Hw.
    destruct (existsb _ NewsService.conflictTerms) eqn:X; [|reflexivity].
    apply existsb_exists in X. destruct X as [term [Hin Hi]].
    assert (In term (NewsService.extractConflictKeywords toLowerCase text))
      by (apply K; split; [exact Hin | now exists word]).
    rewrite E in H. contradiction.
  - intros H.
    destruct (NewsService.extractConflictKeywords toLowerCase text)
      as [|term l] eqn:E; [reflexivity|].
    assert (Hk : In term (term :: l)) by now left.
    apply K in Hk.
    destruct Hk as [Hin [word [Hw Hi]]].
    specialize (H word Hw).
    assert (X : existsb (fun term => DataValidator.includes word term)
                  NewsService.conflictTerms = true)
      by (apply existsb_exists; now exists term).
    congruence.
Qed.

End NewsKeywords.

(* ================================================================== *)
(** * Stock prices and the real-time data manager *)
(* ================================================================== *)

Section MarketImpact.
Import JsString Js Spec.

Lemma is_nan_true (x : float) : is_nan x = true <-> Prim2SF x = S754_nan.
Proof.
  split.
  - intros H. destruct (Prim2SF x) eqn:E; try reflexivity;
      assert (N : is_nan x = false) by (apply is_nan_spec; congruence);
      congruence.
  - intros H. destruct (is_nan x) eqn:E; [reflexivity|].
    apply is_nan_spec in E. contradiction.
Qed.

Lemma nan_add_l (x y : float) : is_nan x = true -> is_nan (x + y) = true.
Proof.
  rewrite !is_nan_true, add_spec. intros ->. reflexivity.
Qed.

Lemma nan_add_r (x y : float) : is_nan y = true -> is_nan (x + y) = true.
Proof.
  rewrite !is_nan_true, add_spec. intros ->.
  now destruct (Prim2SF x).
Qed.

Lemma nan_mul_l (x y : float) : is_nan x = true -> is_nan (x * y) = true.
Proof.
  rewrite !is_nan_true, mul_spec. intros ->. reflexivity.
Qed.

Lemma nan_mul_r (x y : float) : is_nan y = true -> is_nan (x * y) = true.
Proof.
  rewrite !is_nan_true, mul_spec. intros ->.
  now destruct (Prim2SF x).
Qed.

Lemma or_zero_no_cap (c : RealTimeDataManager.company) :
  no_market_cap c = true ->
  RealTimeDataManager.or_zero (RealTimeDataManager.marketCap c) = 0%float.
Proof.
  unfold no_market_cap, RealTimeDataManager.or_zero.
  destruct (RealTimeDataManager.marketCap c); [|reflexivity].
  now intros ->.
Qed.

Lemma total_without_caps (cs : list RealTimeDataManager.company) :
  Forall (fun c => no_market_cap c = true) cs ->
  fold_left (fun sum c =>
               (sum + RealTimeDataManager.or_zero
                        (RealTimeDataManager.marketCap c))%float) cs 0%float
  = 0%float.
Proof.
  induction 1 as [|c t Hc Ht IH]; [reflexivity|].
  cbn [fold_left]. rewrite (or_zero_no_cap c Hc).
  change (0 + 0)%float with 0%float. exact IH.
Qed.

Lemma fold_nan {A : Type} (f : A -> float) (cs : list A) (acc : float) :
  is_nan acc = true ->
  is_nan (fold_left (fun sum c => (sum + f c)%float) cs acc) = true.
Proof.
  revert acc. induction cs as [|c t IH]; intros acc H; [exact H|].
  cbn [fold_left]. apply IH, nan_add_l, H.
Qed.

(** When none of the companies has a usable market capitalisation (and the
    prices of Alpha Vantage, Finnhub and the mock data carry none), the
    weights are 0 / 0: the market impact of one or more such companies is
    NaN, whatever their conflict impact; with no company at all it is
    0. *)
Theorem market_impact_needs_market_caps
    (c : RealTimeDataManager.company)
    (companies : list RealTimeDataManager.company) :
  Forall (fun c => no_market_cap c = true) (c :: companies) ->
  is_nan (RealTimeDataManager.calculateMarketImpact (c :: companies)) = true /\
  RealTimeDataManager.calculateMarketImpact [] = 0%float.
Proof.
  intros H. split; [|reflexivity].
  unfold RealTimeDataManager.calculateMarketImpact. cbv zeta.
  rewrite (total_without_caps _ H).
  apply Forall_cons_iff in H. destruct H as [Hc _].
  cbn [fold_left]. rewrite (or_zero_no_cap c Hc).
  apply (fold_nan (fun c0 =>
           (RealTimeDataManager.or_zero (RealTimeDataManager.marketCap c0) / 0
            * abs (RealTimeDataManager.or_zero
                     (RealTimeDataManager.impactPercent c0)))%float)).
  apply nan_add_r, nan_mul_l. reflexivity.
Qed.

End MarketImpact.

Section MarketImpactExamples.
Import JsString Js Spec.

Lemma market_impact_needs_market_caps_witness :
  is_nan (RealTimeDataManager.calculateMarketImpact
            [ {| RealTimeDataManager.marketCap := None;
                 RealTimeDataManager.impactPercent := Some 12.5%float |};
              {| RealTimeDataManager.marketCap := Some 0%float;
                 RealTimeDataManager.impactPercent := None |} ]) = true.
Proof.
  apply market_impact_needs_market_caps. repeat constructor.
Defined.

End MarketImpactExamples.

Section SubscriptionsAndPrices.
Import JsString Js Spec.

Lemma unsubscribe_absent (l : list RealTimeDataManager.callback)
    (c : RealTimeDataManager.callback) :
  ~ In c l -> RealTimeDataManager.unsubscribe l c = l.
Proof.
  induction l as [|x t IH]; simpl; [reflexivity|].
  intros H. destruct (Nat.eqb x c) eqn:E.
  - apply Nat.eqb_eq in E. tauto.
  - f_equal. apply IH. tauto.
Qed.


Variable StockPrice : Type.
Variable getMockPrice : jsstring -> StockPrice.

(** A price request asks the sources lazily and in order, and caches
    real prices only.  Nothing is asked exactly when the symbol has an
    entry younger than a minute, which is then returned with the cache
    untouched; a source is asked only after those before it returned
    nothing; a price that a source returned is stored for the symbol,
    with the time of storing, and the entries of other symbols are kept;
    when every source returns nothing, the mock price is returned and
    the cache is left as it was. *)
Theorem price_lookup_outcomes (st : StockService.state StockPrice)
    (symbol : jsstring) (from : StockService.fetchers StockPrice)
    (clk : clock) :
  let out := StockService.getCurrentPrice StockPrice getMockPrice st symbol
               from clk in
  let price := fst (fst out) in
  let st' := snd (fst out) in
  let asked := snd out in
  (asked = [] <->
   exists t, JsMap.get st symbol = Some (price, t) /\
             at_entry clk - t < StockService.CACHE_DURATION) /\
  (asked = [] -> st' = st) /\
  (forall s s', In s asked -> In s' (tried_before s) -> from s' = None) /\
  (forall s, In s asked -> from s = Some price ->
     JsMap.get st' symbol = Some (price, at_store clk) /\
     forall other, other <> symbol ->
       JsMap.get st' other = JsMap.get st other) /\
  (asked <> [] -> (forall s, from s = None) ->
     price = getMockPrice symbol /\ st' = st).
Proof.
  cbv zeta. unfold StockService.getCurrentPrice. cbv zeta.
  assert (Miss :
    let out :=
      match StockService.fetch StockPrice from with
      | (Some price, asked) =>
          (price, JsMap.set st symbol (price, at_store clk), asked)
      | (None, asked) => (getMockPrice symbol, st, asked)
      end in
    snd out <> [] /\
    (forall s s', In s (snd out) -> In s' (tried_before s) -> from s' = None) /\
    (forall s, In s (snd out) -> from s = Some (fst (fst out)) ->
       JsMap.get (snd (fst out)) symbol = Some (fst (fst out), at_store clk) /\
       forall other, other <> symbol ->
         JsMap.get (snd (fst out)) other = JsMap.get st other) /\
    ((forall s, from s = None) ->
       fst (fst out) = getMockPrice symbol /\ snd (fst out) = st)).
  { cbv zeta. unfold StockService.fetch.
    destruct (from StockService.AlphaVantage) as [p1|] eqn:E1;
      [|destruct (from StockService.YahooFinance) as [p2|] eqn:E2;
        [|destruct (from StockService.Finnhub) as [p3|] eqn:E3]];
      cbn [fst snd]; (split; [discriminate|]);
      (split; [intros s s' Hs Hs'; simpl in Hs;
               repeat (destruct Hs as [<- | Hs]; simpl in Hs';
                 [repeat (destruct Hs' as [<- | Hs']; try assumption);
                  contradiction|]); contradiction|]);
      (split; [intros s _ _; split;
               [apply get_set_same | intros other Ho; now apply get_set_other]
              | intros Hall; try (rewrite Hall in E1; discriminate);
                try (rewrite Hall in E2; discriminate);
                try (rewrite Hall in E3; discriminate); now split]) ||
      (split; [intros s Hs Hp; simpl in Hs;
               repeat (destruct Hs as [<- | Hs]; [congruence|]); contradiction
              | intros _; now split]). }
  cbv zeta in Miss. destruct Miss as [M1 [M2 [M3 M4]]].
  destruct (JsMap.get st symbol) as [[data t]|] eqn:G.
  - destruct (at_entry clk - t <? StockService.CACHE_DURATION) eqn:F.
    + cbn [fst snd]. apply Z.ltb_lt in F.
      repeat split; intros; simpl in *; try contradiction; try reflexivity.
      now exists t.
    + apply Z.ltb_ge in F.
      repeat split; intros; try contradiction;
        try (eapply M3; eassumption); try (apply M4; assumption);
        try (eapply M2; eassumption).
      match goal with
      | H : exists _, _ |- _ => destruct H as [t' [E Ht]]
      end.
      assert (t' = t) by congruence. subst t'. lia.
  - repeat split; intros; try contradiction;
      try (eapply M3; eassumption); try (apply M4; assumption);
        try (eapply M2; eassumption).
    match goal with
    | H : exists _, _ |- _ => destruct H as [t' [E Ht]]
    end.
    discriminate E.
Qed.

End SubscriptionsAndPrices.

Section ConflictImpact.
Import JsString Js Spec.

Variable Math_pow : float -> float -> float.
Variable Math_sqrt : float -> float.

(** The conflict impact at its edges.  There is none exactly when no
    price is dated before the start of the conflict or none is dated at
    or after it (as when the start date is invalid); and when a single
    price is dated at or after the start, there are no daily returns to
    average, so the volatility is NaN. *)
Theorem conflict_impact_edges (prices : list StockService.bar)
    (conflictStartDate : option Z) :
  is_nan (Math_sqrt nan) = true ->
  let impact :=
    StockService.calculateConflictImpact Math_pow Math_sqrt prices
      conflictStartDate in
  (impact = None <->
   (forall p, In p prices ->
      StockService.before (StockService.date p) conflictStartDate = false) \/
   (forall p, In p prices ->
      StockService.not_before (StockService.date p) conflictStartDate
      = false)) /\
  (conflictStartDate = None -> impact = None) /\
  (forall r,
     impact = Some r ->
     List.length
       (filter (fun p => StockService.not_before (StockService.date p)
                           conflictStartDate) prices) = 1%nat ->
     is_nan (StockService.volatility r) = true).
Proof.
  intros Hsqrt. cbv zeta.
  assert (Hnone :
    StockService.calculateConflictImpact Math_pow Math_sqrt prices
      conflictStartDate = None <->
    filter (fun p => StockService.before (StockService.date p)
                       conflictStartDate) prices = [] \/
    filter (fun p => StockService.not_before (StockService.date p)
                       conflictStartDate) prices = []).
  { unfold StockService.calculateConflictImpact. cbv zeta.
    destruct (filter (fun p => StockService.before _ _) prices) as [|a l]
      using rev_ind.
    - cbn [rev]. split; [now left | reflexivity].
    - rewrite rev_app_distr. cbn [rev app].
      destruct (filter (fun p => StockService.not_before _ _) prices).
      + split; [now right | reflexivity].
      + split; [discriminate|]. intros [H | H]; [|discriminate].
        now destruct l. }
  split; [|split].
  - rewrite Hnone, !filter_nil_iff. reflexivity.
  - intros ->. apply Hnone. left. apply filter_nil_iff.
    intros p _. unfold StockService.before. now destruct (StockService.date p).
  - unfold StockService.calculateConflictImpact. cbv zeta.
    destruct (rev (filter (fun p => StockService.before _ _) prices));
      [discriminate|].
    destruct (filter (fun p => StockService.not_before _ _) prices)
      as [|first rest]; [discriminate|].
    intros r H L. destruct rest; [|discriminate L].
    injection H as <-. cbn [StockService.volatility StockService.returns].
    apply nan_mul_l.
    change (StockService.sum (fun r => Math_pow (r - _) 2) [] / of_nat _)%float
      with nan.
    exact Hsqrt.
Qed.

End ConflictImpact.

Section ConflictImpactExamples.
Import JsString Js Spec.

Lemma conflict_impact_edges_witness :
  exists r,
    StockService.calculateConflictImpact Samples.square PrimFloat.sqrt
      Samples.two_bars (Some 1500) = Some r /\
    StockService.preConflictPrice r = 100%float /\
    StockService.currentPrice r = 110%float /\
    StockService.impactPercent r = 10%float /\
    is_nan (StockService.volatility r) = true.
Proof.
  eexists. split; [vm_compute; reflexivity|].
  split; [reflexivity|]. split; [reflexivity|]. split; [reflexivity|].
  refine (proj2 (proj2 (conflict_impact_edges Samples.square PrimFloat.sqrt
                          Samples.two_bars (Some 1500) eq_refl)) _ _ _);
    vm_compute; reflexivity.
Defined.

End ConflictImpactExamples.

(* ================================================================== *)
(** * The profit predictor, the validator and the pipeline as a whole *)
(* ================================================================== *)

Section ProfitBounds.
Import JsString Js Spec.

Variable ToNumber_other : value -> float.
Variable sort_by_profit : list value -> list value.

(** The profit predictor never hands out more than fifteen opportunities:
    starting from a cache that holds at most fifteen (or nothing), every
    call of [analyzeProfitOpportunities] returns an array of at most
    fifteen and leaves such a cache; and within five minutes of the time
    an analysis was stored, a call returns that analysis whatever crisis
    events it is given, the cache having a single key. *)
Theorem profit_opportunities_bounded (st : ProfitPredictorService.state)
    (crisisEvents : list value) (b : ProfitPredictorService.backend)
    (clk : clock) :
  opportunities_ok st ->
  let out := ProfitPredictorService.analyzeProfitOpportunities sort_by_profit
               st crisisEvents b clk in
  at_most 15 (fst out) = true /\
  opportunities_ok (snd out) /\
  (forall data timestamp,
     ProfitPredictorService.cache st = Some (data, timestamp) ->
     at_entry clk - timestamp < ProfitPredictorService.CACHE_DURATION ->
     out = (data, st)).
Proof.
  intros Hst. cbv zeta.
  unfold ProfitPredictorService.analyzeProfitOpportunities. cbv zeta.
  assert (Miss :
    let out :=
      match ProfitPredictorService.analyze sort_by_profit crisisEvents b
              (at_result clk) with
      | Ok sortedOpportunities =>
          (sortedOpportunities,
           {| ProfitPredictorService.cache :=
                Some (sortedOpportunities, at_store clk) |})
      | Throw _ => (ProfitPredictorService.getFallbackOpportunities, st)
      end in
    at_most 15 (fst out) = true /\ opportunities_ok (snd out)).
  { cbv zeta.
    destruct (ProfitPredictorService.analyze _ _ _ _) as [v|] eqn:A;
      cbn [fst snd]; [|split; [reflexivity | exact Hst]].
    assert (Hv : at_most 15 v = true).
    { unfold ProfitPredictorService.analyze in A.
      destruct b as [m|data]; [discriminate|].
      destruct (get data "opportunities") as [opps|]; [|discriminate].
      cbn [bind] in A.
      destruct (or opps (VArr [])); try discriminate.
      destruct (mapM _ xs) as [os'|]; [|discriminate].
      cbn [bind] in A.
      assert (E : v = VArr (firstn 15 (sort_by_profit os'))) by congruence.
      rewrite E. unfold at_most.
      apply Nat.leb_le. rewrite length_firstn. lia. }
    split; [exact Hv|]. exact Hv. }
  cbv zeta in Miss. unfold opportunities_ok in Hst.
  destruct (ProfitPredictorService.cache st) as [[data t]|] eqn:C.
  - destruct (at_entry clk - t <? ProfitPredictorService.CACHE_DURATION) eqn:F.
    + cbn [fst snd]. split; [exact Hst|]. split.
      * unfold opportunities_ok. now rewrite C.
      * intros d' t' E _. now injection E as <- <-.
    + split; [apply Miss|]. split; [apply Miss|].
      intros d' t' E Hf. injection E as <- <-. apply Z.ltb_ge in F. lia.
  - split; [apply Miss|]. split; [apply Miss|]. discriminate.
Qed.

End ProfitBounds.

Section ProfitBoundsExamples.
Import JsString Js Spec.

Lemma profit_opportunities_bounded_witness :
  at_most 15
    (fst (ProfitPredictorService.analyzeProfitOpportunities (fun l => l)
            {| ProfitPredictorService.cache := None |} []
            (ProfitPredictorService.Responded
               (VObj [ prop "opportunities"
                         (VArr (repeat (VObj []) 20)) ]))
            Samples.noon)) = true.
Proof.
  apply (profit_opportunities_bounded (fun l => l)
           {| ProfitPredictorService.cache := None |}).
  exact I.
Defined.

End ProfitBoundsExamples.

Section ValidatorSoundness.
Import JsString Js Spec DataValidator.

Lemma push_if_nil (c : bool) (m : string) (l : list string) :
  push_if c m l = [] <-> c = false /\ l = [].
Proof.
  unfold push_if. destruct c; split.
  - intros H. apply app_eq_nil in H. destruct H; discriminate.
  - intros [H _]; discriminate.
  - auto.
  - now intros [_ ->].
Qed.

(** What validation means for a signal: one that respects the
    constraints is accepted; and an accepted one respects them provided
    none of its numbers is NaN (a NaN passes every comparison). *)
Theorem accepted_signal_well_formed (signal : Signal.t) (stamp : Z) :
  (well_formed_signal signal ->
   isValid (validateTradingSignal signal stamp) = true) /\
  (isValid (validateTradingSignal signal stamp) = true ->
   signal_numbers signal = true ->
   well_formed_signal signal).
Proof.
  unfold validateTradingSignal, well_formed_signal, signal_numbers.
  cbv zeta. cbn [isValid]. rewrite no_error_iff, !push_if_nil.
  rewrite !andb_false_iff, !orb_false_iff, negb_false_iff.
  split.
  - intros [Ha [C1 [C2 [T [S [B [Se F]]]]]]].
    split; [|split; [|split; [|split; [|split; [|split]]]]].
    + destruct (240 <? _)%float eqn:E; [|reflexivity].
      apply ltb_leb_false in E. congruence.
    + simpl in Ha.
      destruct Ha as [E | [E | [E | [E | [E | []]]]]];
        try (left; rewrite <- E; reflexivity);
        right; apply ltb_leb_false; apply Se; auto.
    + simpl in Ha.
      destruct Ha as [E | [E | [E | [E | [E | []]]]]];
        try (left; rewrite <- E; reflexivity);
        right; apply ltb_leb_false; apply B; auto.
    + split; apply ltb_leb_false; assumption.
    + split.
      * destruct (_ <? 0)%float eqn:E; [|reflexivity].
        apply ltb_leb_false in E. congruence.
      * destruct (100 <? _)%float eqn:E; [|reflexivity].
        apply ltb_leb_false in E. congruence.
    + apply existsb_exists. eexists. split; [exact Ha | apply key_eqb_refl].
    + reflexivity.
  - intros [F [Se [B [[T S] [[C1 C2] [Ha _]]]]]] N.
    rewrite !andb_true_iff, !negb_true_iff in N.
    destruct N as [[[N1 N2] N3] N4].
    assert (Hin : In (Signal.action signal)
                     [lit "BUY"; lit "SELL"; lit "HOLD"; lit "STRONG_BUY";
                      lit "STRONG_SELL"]).
    { apply existsb_exists in Ha. destruct Ha as [x [Hx E]].
      apply key_eqb_eq in E. now subst x. }
    split; [exact Hin|].
    split; [apply ltb_false_leb; auto|].
    split; [apply ltb_false_leb; auto|].
    split; [apply leb_false_ltb; auto|].
    split; [apply leb_false_ltb; auto|].
    split; [|split].
    + intros Hb. apply leb_false_ltb; auto.
      destruct B as [B | B]; [|exact B].
      destruct Hb as [E | E]; rewrite E in B; discriminate B.
    + intros Hs. apply leb_false_ltb; auto.
      destruct Se as [Se | Se]; [|exact Se].
      destruct Hs as [E | E]; rewrite E in Se; discriminate Se.
    + apply ltb_false_leb; auto.
Qed.

End ValidatorSoundness.

Section ValidatorSoundnessExamples.
Import JsString Js Spec DataValidator.

Lemma accepted_signal_well_formed_witness :
  well_formed_signal Samples.plain_signal.
Proof.
  apply (accepted_signal_well_formed Samples.plain_signal 0); reflexivity.
Defined.

End ValidatorSoundnessExamples.

Section PipelineAcceptance.
Import JsString Js Spec.

Variable JSON_parse : jsstring -> option value.
Variable ToNumber_other : value -> float.
Variable today : jsstring.
Variable parseFloat_string : jsstring -> float.
Variable random_id : nat -> float.





End PipelineAcceptance.

Section PipelineAcceptanceExamples.
Import JsString Js Spec.


End PipelineAcceptanceExamples.
